(** * Intelligent Notebook: orchestration and persistence layer

    A shallow embedding of the React application state ([App.tsx]), of the
    chat view that drives it ([components/ChatView.tsx]), of the two copies
    of [services/geminiService.ts] and of [types.ts], followed by the
    properties of the notebook registry, the saved-items library, the
    generation orchestrator and the mind-map schema.

    Conventions.
    - A JavaScript string is a [string]; a value that went through
      [JSON.parse] is a [JSON] tree, since TypeScript's [as T] casts are
      erased at run time.
    - [Date.now()] is a reading of the wall clock supplied by the
      environment: every handler takes the readings it makes as arguments.
    - A handler is a function of the render it was created in (the values
      of the state variables it closes over) and yields the list of state
      setter calls it makes, in program order.  A setter called with a
      value overwrites the state, a setter called with an updater function
      is applied to the latest state. *)

From stdpp Require Import gmap strings list pretty.
From Stdlib Require Import ZArith Ascii.

(** ** JavaScript values and helpers *)

(** A value produced by [JSON.parse].  A number keeps its literal; an object
    keeps its own properties, each key once (the order of the keys is not
    observed by the code modelled here). *)
#[warnings="-register-all"]
Inductive JSON :=
| JNull
| JBool (b : bool)
| JNumber (literal : string)
| JString (s : string)
| JArray (items : list JSON)
| JObject (fields : list (string * JSON)).

(** [obj[k]] on the own properties of an object. *)
Fixpoint get_prop (k : string) (fields : list (string * JSON)) : option JSON :=
  match fields with
  | [] => None
  | (k', v) :: rest => if decide (k' = k) then Some v else get_prop k rest
  end.

(** [obj[k] = v]: an existing key keeps its position, a new key is added
    last. *)
Fixpoint set_prop (k : string) (v : JSON) (fields : list (string * JSON))
  : list (string * JSON) :=
  match fields with
  | [] => [(k, v)]
  | (k', v') :: rest =>
      if decide (k' = k) then (k', v) :: rest else (k', v') :: set_prop k v rest
  end.

(** The characters [String.prototype.trim] removes, and that JSON allows
    between tokens (ASCII range). *)
Definition is_space (c : ascii) : bool :=
  let n := nat_of_ascii c in
  ((9 <=? n)%nat && (n <=? 13)%nat) || (n =? 32)%nat.

Definition is_json_ws (c : ascii) : bool :=
  let n := nat_of_ascii c in
  (n =? 9)%nat || (n =? 10)%nat || (n =? 13)%nat || (n =? 32)%nat.

Fixpoint trimStart (s : string) : string :=
  match s with
  | String c s' => if is_space c then trimStart s' else s
  | EmptyString => EmptyString
  end.

Fixpoint trimEnd (s : string) : string :=
  match s with
  | String c s' =>
      match trimEnd s' with
      | EmptyString => if is_space c then EmptyString else String c EmptyString
      | t => String c t
      end
  | EmptyString => EmptyString
  end.

(** [s.trim()] *)
Definition trim (s : string) : string := trimEnd (trimStart s).

Definition dquote : ascii := ascii_of_nat 34.
Definition backslash : ascii := ascii_of_nat 92.
Definition newline : string := String (ascii_of_nat 10) EmptyString.

Definition is_digit (c : ascii) : bool :=
  let n := nat_of_ascii c in (48 <=? n)%nat && (n <=? 57)%nat.

(** *** [JSON.parse]

    A recursive-descent reader for the JSON grammar: literals, numbers,
    strings with their escapes, arrays and objects.  [None] is a
    [SyntaxError].  A text is a sequence of bytes in UTF-8, so the
    character a four-digit unicode escape stands for is written as its
    UTF-8 bytes; the escapes of a high and a low surrogate in a row stand
    for one character, and a surrogate on its own is written in the same
    three-byte form as the characters around it. *)

Fixpoint skip_ws (s : string) : string :=
  match s with
  | String c s' => if is_json_ws c then skip_ws s' else s
  | EmptyString => EmptyString
  end.

Fixpoint take_digits (s : string) : string * string :=
  match s with
  | String c s' =>
      if is_digit c then let '(d, r) := take_digits s' in (String c d, r)
      else (EmptyString, s)
  | EmptyString => (EmptyString, EmptyString)
  end.

Definition unescape (c : ascii) : option ascii :=
  if decide (c = dquote) then Some dquote
  else if decide (c = backslash) then Some backslash
  else if decide (c = "/"%char) then Some "/"%char
  else if decide (c = "b"%char) then Some (ascii_of_nat 8)
  else if decide (c = "f"%char) then Some (ascii_of_nat 12)
  else if decide (c = "n"%char) then Some (ascii_of_nat 10)
  else if decide (c = "r"%char) then Some (ascii_of_nat 13)
  else if decide (c = "t"%char) then Some (ascii_of_nat 9)
  else None.

(** The value of a hexadecimal digit. *)
Definition hex_digit (c : ascii) : option N :=
  let n := N_of_ascii c in
  if (48 <=? n)%N && (n <=? 57)%N then Some (n - 48)%N
  else if (65 <=? n)%N && (n <=? 70)%N then Some (n - 55)%N
  else if (97 <=? n)%N && (n <=? 102)%N then Some (n - 87)%N
  else None.

(** The code unit the four digits of a unicode escape give. *)
Definition hex4 (a b c d : ascii) : option N :=
  a ← hex_digit a; b ← hex_digit b; c ← hex_digit c; d ← hex_digit d;
  Some (((a * 16 + b) * 16 + c) * 16 + d)%N.

(** The bytes of a code point in UTF-8. *)
Definition utf8 (cp : N) : string :=
  let byte (n : N) : ascii := ascii_of_N n in
  let tail (n : N) : ascii := byte (128 + n mod 64)%N in
  if (cp <? 128)%N then String (byte cp) EmptyString
  else if (cp <? 2048)%N then
    String (byte (192 + cp / 64)%N) (String (tail cp) EmptyString)
  else if (cp <? 65536)%N then
    String (byte (224 + cp / 4096)%N)
      (String (tail (cp / 64)%N) (String (tail cp) EmptyString))
  else
    String (byte (240 + cp / 262144)%N)
      (String (tail (cp / 4096)%N)
         (String (tail (cp / 64)%N) (String (tail cp) EmptyString))).

(** The code point of a high surrogate followed by the escape
    [\u l1 l2 l3 l4] of a low one. *)
Definition surrogate_pair (high : N) (b u l1 l2 l3 l4 : ascii) : option N :=
  if decide (b = backslash) then
    if decide (u = "u"%char) then
      match hex4 l1 l2 l3 l4 with
      | Some low =>
          if (55296 <=? high)%N && (high <=? 56319)%N
             && (56320 <=? low)%N && (low <=? 57343)%N
          then Some (65536 + (high - 55296) * 1024 + (low - 56320))%N
          else None
      | None => None
      end
    else None
  else None.

(** The characters of a string literal after its opening quote. *)
Fixpoint parse_chars (s : string) : option (string * string) :=
  match s with
  | EmptyString => None
  | String c s' =>
      if decide (c = dquote) then Some (EmptyString, s')
      else if decide (c = backslash) then
        match s' with
        | String e s'' =>
            if decide (e = "u"%char) then
              match s'' with
              | String h1 (String h2 (String h3 (String h4 s5))) =>
                  match hex4 h1 h2 h3 h4 with
                  | Some unit =>
                      let single :=
                        match parse_chars s5 with
                        | Some (body, rest) => Some (utf8 unit +:+ body, rest)
                        | None => None
                        end in
                      match s5 with
                      | String b (String u (String l1 (String l2 (String l3
                          (String l4 s6))))) =>
                          match surrogate_pair unit b u l1 l2 l3 l4 with
                          | Some cp =>
                              match parse_chars s6 with
                              | Some (body, rest) => Some (utf8 cp +:+ body, rest)
                              | None => None
                              end
                          | None => single
                          end
                      | _ => single
                      end
                  | None => None
                  end
              | _ => None
              end
            else
              match unescape e, parse_chars s'' with
              | Some ch, Some (body, rest) => Some (String ch body, rest)
              | _, _ => None
              end
        | EmptyString => None
        end
      else if (nat_of_ascii c <? 32)%nat then None
      else
        match parse_chars s' with
        | Some (body, rest) => Some (String c body, rest)
        | None => None
        end
  end.

Definition parse_int_part (s : string) : option (string * string) :=
  match s with
  | String "0" s' => Some ("0", s')
  | _ =>
      match take_digits s with
      | (EmptyString, _) => None
      | (d, r) => Some (d, r)
      end
  end.

Definition parse_frac (s : string) : option (string * string) :=
  match s with
  | String "." s' =>
      match take_digits s' with
      | (EmptyString, _) => None
      | (d, r) => Some ("." +:+ d, r)
      end
  | _ => Some (EmptyString, s)
  end.

Definition parse_exp (s : string) : option (string * string) :=
  match s with
  | String c s' =>
      if decide (c = "e"%char ∨ c = "E"%char) then
        let '(sign, s1) :=
          match s' with
          | String "+" t => ("+", t)
          | String "-" t => ("-", t)
          | _ => (EmptyString, s')
          end in
        match take_digits s1 with
        | (EmptyString, _) => None
        | (d, r) => Some (String c (sign +:+ d), r)
        end
      else Some (EmptyString, s)
  | EmptyString => Some (EmptyString, s)
  end.

Definition parse_number (s : string) : option (string * string) :=
  let '(sign, s0) :=
    match s with
    | String "-" t => ("-", t)
    | _ => (EmptyString, s)
    end in
  '(i, s1) ← parse_int_part s0;
  '(f, s2) ← parse_frac s1;
  '(e, s3) ← parse_exp s2;
  Some (sign +:+ i +:+ f +:+ e, s3).

(** [s] without the prefix [word], when it starts with it. *)
Fixpoint strip_prefix (word s : string) : option string :=
  match word with
  | EmptyString => Some s
  | String a word' =>
      match s with
      | String b s' => if decide (a = b) then strip_prefix word' s' else None
      | EmptyString => None
      end
  end.

Definition expect (word : string) (v : JSON) (s : string) : option (JSON * string) :=
  rest ← strip_prefix word s; Some (v, rest).

(** One JSON value and the text left after it.  The recursion is on the
    nesting budget [fuel]. *)
Fixpoint parse_value (fuel : nat) (s : string) : option (JSON * string) :=
  match fuel with
  | O => None
  | S fuel =>
      let elements :=
        fix elements (n : nat) (s : string) : option (list JSON * string) :=
          match n with
          | O => None
          | S n =>
              '(v, s1) ← parse_value fuel s;
              match skip_ws s1 with
              | String "," s2 =>
                  '(vs, s3) ← elements n s2; Some (v :: vs, s3)
              | String "]" s2 => Some ([v], s2)
              | _ => None
              end
          end in
      let members :=
        fix members (n : nat) (s : string) : option (list (string * JSON) * string) :=
          match n with
          | O => None
          | S n =>
              match skip_ws s with
              | String c s0 =>
                  if decide (c = dquote) then
                    '(k, s1) ← parse_chars s0;
                    match skip_ws s1 with
                    | String ":" s2 =>
                        '(v, s3) ← parse_value fuel s2;
                        match skip_ws s3 with
                        | String "," s4 =>
                            '(kvs, s5) ← members n s4; Some ((k, v) :: kvs, s5)
                        | String "}" s4 => Some ([(k, v)], s4)
                        | _ => None
                        end
                    | _ => None
                    end
                  else None
              | EmptyString => None
              end
          end in
      match skip_ws s with
      | EmptyString => None
      | String c s' =>
          if decide (c = dquote) then
            '(str, rest) ← parse_chars s'; Some (JString str, rest)
          else if decide (c = "["%char) then
            match skip_ws s' with
            | String "]" rest => Some (JArray [], rest)
            | _ => '(vs, rest) ← elements (String.length s') s'; Some (JArray vs, rest)
            end
          else if decide (c = "{"%char) then
            match skip_ws s' with
            | String "}" rest => Some (JObject [], rest)
            | _ =>
                '(kvs, rest) ← members (String.length s') s';
                Some (JObject (foldl (λ o kv, set_prop kv.1 kv.2 o) [] kvs), rest)
            end
          else if decide (c = "t"%char) then expect "true" (JBool true) (String c s')
          else if decide (c = "f"%char) then expect "false" (JBool false) (String c s')
          else if decide (c = "n"%char) then expect "null" JNull (String c s')
          else '(lit, rest) ← parse_number (String c s'); Some (JNumber lit, rest)
      end
  end.

(** [JSON.parse(text)]: one value, then nothing but white space. *)
Definition JSON_parse (text : string) : option JSON :=
  '(v, rest) ← parse_value (S (String.length text)) text;
  match skip_ws rest with
  | EmptyString => Some v
  | _ => None
  end.


(** ** The data model ([types.ts]) *)

Module SourceType.
(** ['text' | 'url'] *)
Inductive t := text | url.

Definition toUpperCase (ty : t) : string :=
  match ty with text => "TEXT" | url => "URL" end.
End SourceType.

Inductive ContentType :=
| TEXT | QUIZ | FLASHCARDS | PODCAST | ERROR | SUMMARY
| FAQ | TIMELINE | IDEAS | CRITIQUE | MIND_MAP | DEBATE.

Global Instance ContentType_eq_dec : EqDecision ContentType.
Proof. solve_decision. Defined.

Module Source.
Record t := mk {
  id : string;
  type : SourceType.t;
  title : string;
  content : string;
}.
End Source.

Module SavedItem.
Record t := mk {
  id : string;
  notebookId : string;
  title : string;
  type : ContentType;
  contentData : JSON;
  createdAt : string;
}.
End SavedItem.

Module Notebook.
(** [savedItems] is optional in the interface: [None] is a notebook
    persisted without the field. *)
Record t := mk {
  id : string;
  title : string;
  sources : list Source.t;
  createdAt : string;
  savedItems : option (list SavedItem.t);
}.

(** [{ ...n, sources: v }] *)
Definition with_sources (n : t) (v : list Source.t) : t :=
  mk (id n) (title n) v (createdAt n) (savedItems n).

(** [{ ...n, savedItems: v }] *)
Definition with_savedItems (n : t) (v : list SavedItem.t) : t :=
  mk (id n) (title n) (sources n) (createdAt n) (Some v).

(** [n.savedItems || []] *)
Definition savedItems_or_empty (n : t) : list SavedItem.t :=
  default [] (savedItems n).
End Notebook.

Module Role.
(** ['user' | 'model'] *)
Inductive t := user | model.
End Role.

Global Instance Role_eq_dec : EqDecision Role.t.
Proof. solve_decision. Defined.

Module ChatMessage.
Record t := mk {
  id : string;
  role : Role.t;
  text : string;
  contentType : ContentType;
  contentData : option JSON;
}.
End ChatMessage.

(** The artifact kinds of [ChatView.tsx] and the intents [handleSendMessage]
    dispatches on: ['chat' | ActionType]. *)
Inductive ActionType :=
| summary | quiz | flashcards | faq | timeline
| podcast | ideas | critique | mindmap | debate.

Inductive Intent := chat | action (a : ActionType).

Global Instance ActionType_eq_dec : EqDecision ActionType.
Proof. solve_decision. Defined.

Definition ActionType_toString (a : ActionType) : string :=
  match a with
  | summary => "summary" | quiz => "quiz" | flashcards => "flashcards"
  | faq => "faq" | timeline => "timeline" | podcast => "podcast"
  | ideas => "ideas" | critique => "critique" | mindmap => "mindmap"
  | debate => "debate"
  end.

(** Identifiers are a prefix and a clock reading in decimal. *)
Definition notebook_id (now : Z) : string := "notebook_" +:+ pretty now.
Definition source_id (now : Z) : string := "source_" +:+ pretty now.
Definition msg_id (now : Z) : string := "msg_" +:+ pretty now.
Definition saved_id (now : Z) : string := "saved_" +:+ pretty now.
Definition flashcard_id (now : Z) (index : nat) : string :=
  "flashcard_" +:+ pretty now +:+ "_" +:+ pretty index.

(** ** Response schemas ([Type.OBJECT], [Type.ARRAY], [Type.STRING]) *)

#[warnings="-register-all"]
Inductive Schema :=
| STRING (description : option string)
| ARRAY (items : Schema) (description : option string)
| OBJECT (properties : list (string * Schema)) (required : list string).

(** [properties[k]] *)
Fixpoint property (k : string) (properties : list (string * Schema)) : option Schema :=
  match properties with
  | [] => None
  | (k', s) :: rest => if decide (k' = k) then Some s else property k rest
  end.

(** ** The generative backend and the service interface *)

Record Error := { message : string }.

(** How a promise settles. *)
Inductive Settled (A : Type) :=
| Fulfilled (value : A)
| Rejected (reason : Error).
Global Arguments Fulfilled {A} value.
Global Arguments Rejected {A} reason.

(** The argument of [ai.models.generateContent]. *)
Record GenerateContentParameters := {
  model : string;
  contents : string;
  responseSchema : option Schema;   (* with responseMimeType application/json *)
  googleSearch : bool;              (* tools: [{ googleSearch: {} }] *)
}.

(** A service function issues one request when it is called and turns the
    way the request settles ([response.text], or a rejection) into the way
    its own promise settles. *)
Record Call (A : Type) := {
  request : GenerateContentParameters;
  receive : Settled string → Settled A;
}.
Global Arguments request {A} c.
Global Arguments receive {A} c res.

(** What [App.tsx] imports as [geminiService]. *)
Class GeminiService := {
  askAboutSource : list Source.t → string → Call string;
  generateSummary : list Source.t → Call string;
  generateQuiz : list Source.t → Call JSON;
  generateFlashcards : list Source.t → Call JSON;
  generateFAQ : list Source.t → Call JSON;
  generateTimeline : list Source.t → Call JSON;
  generatePodcastScript : list Source.t → Call string;
  generateIdeas : list Source.t → Call string;
  generateCritique : list Source.t → Call string;
  generateMindMap : list Source.t → Call JSON;
  generateDebate : list Source.t → Call JSON;
}.

(** [l.join(sep)] *)
Fixpoint join (sep : string) (l : list string) : string :=
  match l with
  | [] => EmptyString
  | [x] => x
  | x :: rest => x +:+ sep +:+ join sep rest
  end.

(** [l.map((x, index) => f x index)] *)
Definition map_indexed {A B} (f : A → nat → B) (l : list A) : list B :=
  imap (λ i x, f x i) l.

(** *** The service with the unrolled mind-map levels
    (the copy with [generatePrompt]) *)

Module geminiService.

Definition model : string := "gemini-2.5-flash".

Definition flashcardSchema : Schema :=
  ARRAY (OBJECT
    [("term", STRING (Some "The key term or concept."));
     ("definition", STRING (Some "A concise definition or explanation of the term."))]
    ["term"; "definition"]) None.

Definition quizSchema : Schema :=
  ARRAY (OBJECT
    [("question", STRING (Some "The quiz question."));
     ("options", ARRAY (STRING None) (Some "An array of 4 possible answers."));
     ("correctAnswer", STRING (Some "The correct answer from the options."))]
    ["question"; "options"; "correctAnswer"]) None.

Definition faqSchema : Schema :=
  ARRAY (OBJECT
    [("question", STRING (Some "A frequently asked question from the source material."));
     ("answer", STRING (Some "A concise answer to the question, based on the source."))]
    ["question"; "answer"]) None.

Definition timelineSchema : Schema :=
  ARRAY (OBJECT
    [("date", STRING (Some ("The date or time period of the event (e.g., "
        +:+ String dquote "1992" +:+ String dquote ", "
        +:+ String dquote "Late 18th Century" +:+ String dquote ").")));
     ("event", STRING (Some "A concise title for the event."));
     ("description", STRING (Some "A short description of the event, based on the source material."))]
    ["date"; "event"; "description"]) None.

(** A schema for a mind map with a fixed depth: a root topic with up to 5
    nested levels of children. *)
Definition mindMapNodeSchemaL5 : Schema :=
  OBJECT [("topic", STRING (Some "The topic for this node."))] ["topic"].

Definition mindMapNodeSchemaL4 : Schema :=
  OBJECT [("topic", STRING (Some "The topic for this node."));
          ("children", ARRAY mindMapNodeSchemaL5 (Some "Sub-topics."))] ["topic"].

Definition mindMapNodeSchemaL3 : Schema :=
  OBJECT [("topic", STRING (Some "The topic for this node."));
          ("children", ARRAY mindMapNodeSchemaL4 (Some "Sub-topics."))] ["topic"].

Definition mindMapNodeSchemaL2 : Schema :=
  OBJECT [("topic", STRING (Some "The topic for this node."));
          ("children", ARRAY mindMapNodeSchemaL3 (Some "Sub-topics."))] ["topic"].

Definition mindMapNodeSchemaL1 : Schema :=
  OBJECT [("topic", STRING (Some "The topic for this node."));
          ("children", ARRAY mindMapNodeSchemaL2 (Some "Sub-topics."))] ["topic"].

Definition mindMapSchema : Schema :=
  OBJECT [("topic", STRING (Some "The central idea or concept for the mind map."));
          ("children", ARRAY mindMapNodeSchemaL1
             (Some "An array of child nodes, representing sub-topics."))] ["topic"].

Definition debateSchema : Schema :=
  OBJECT
    [("viewpointA", OBJECT
        [("title", STRING (Some "The title for the first viewpoint (e.g., 'For the Proposal')."));
         ("arguments", ARRAY (STRING None) (Some "A list of arguments supporting this viewpoint."))]
        ["title"; "arguments"]);
     ("viewpointB", OBJECT
        [("title", STRING (Some "The title for the opposing viewpoint (e.g., 'Against the Proposal')."));
         ("arguments", ARRAY (STRING None) (Some "A list of arguments supporting this viewpoint."))]
        ["title"; "arguments"])]
    ["viewpointA"; "viewpointB"].

(** Generic function to generate prompts from multiple sources. *)
Definition generatePrompt (sources : list Source.t) (task : string) : string :=
  let sourceMaterial :=
    join (newline +:+ newline)
      (map_indexed (λ source index,
         newline +:+ "--- SOURCE " +:+ pretty (index + 1)%nat +:+ ": "
           +:+ Source.title source
           +:+ " (" +:+ SourceType.toUpperCase (Source.type source) +:+ ") ---"
           +:+ newline +:+ Source.content source
           +:+ newline +:+ "-----------------------------------" +:+ newline)
         sources) in
  "Based on the following source materials, " +:+ task +:+ "." +:+ newline
    +:+ newline +:+ sourceMaterial +:+ newline.

(** JSON parsing with error handling: an empty text and a text that does
    not parse are both rethrown as one error. *)
Definition generateJsonContent (prompt : string) (schema : Schema) : Call JSON :=
  {| request := Build_GenerateContentParameters model prompt (Some schema) false;
     receive := λ res,
       match res with
       | Rejected e => Rejected e
       | Fulfilled text =>
           let jsonText := trim text in
           if decide (jsonText = EmptyString)
           then Rejected {| message := "Could not generate valid structured content." |}
           else match JSON_parse jsonText with
                | Some v => Fulfilled v
                | None => Rejected {| message := "Could not generate valid structured content." |}
                end
       end |}.

Definition generateTextContent (prompt : string) : Call string :=
  {| request := Build_GenerateContentParameters model prompt None false;
     receive := λ res, res |}.

Definition askAboutSource (sources : list Source.t) (question : string) : Call string :=
  generateTextContent (generatePrompt sources
    ("answer the following question: " +:+ String dquote question +:+ String dquote "")).

Definition generateFlashcards (sources : list Source.t) : Call JSON :=
  generateJsonContent (generatePrompt sources
    "generate a list of flashcards with terms and definitions covering the main topics.")
    flashcardSchema.

Definition generateQuiz (sources : list Source.t) : Call JSON :=
  generateJsonContent (generatePrompt sources
    "generate a multiple-choice quiz with 4 options per question to test understanding of the key concepts.")
    quizSchema.

Definition generatePodcastScript (sources : list Source.t) : Call string :=
  generateTextContent (generatePrompt sources
    "write a short, engaging podcast script that summarizes and discusses the main ideas. The script should be conversational and easy to follow.").

Definition generateSummary (sources : list Source.t) : Call string :=
  generateTextContent (generatePrompt sources "provide a concise summary.").

Definition generateFAQ (sources : list Source.t) : Call JSON :=
  generateJsonContent (generatePrompt sources
    "generate a list of frequently asked questions (FAQs) with answers.") faqSchema.

Definition generateTimeline (sources : list Source.t) : Call JSON :=
  generateJsonContent (generatePrompt sources
    "generate a timeline of key events. Only include events explicitly mentioned in the text.")
    timelineSchema.

Definition generateIdeas (sources : list Source.t) : Call string :=
  generateTextContent (generatePrompt sources
    "generate a list of brainstorm ideas, new concepts, or interesting questions based on the material.").

Definition generateCritique (sources : list Source.t) : Call string :=
  generateTextContent (generatePrompt sources
    "provide a constructive critique of the source material. Discuss its strengths, weaknesses, and potential biases.").

Definition generateMindMap (sources : list Source.t) : Call JSON :=
  generateJsonContent (generatePrompt sources
    "generate a deeply hierarchical mind map of the key concepts. The mind map should have a central topic and multiple levels of nested children topics to represent the information hierarchy.")
    mindMapSchema.

Definition generateDebate (sources : list Source.t) : Call JSON :=
  generateJsonContent (generatePrompt sources
    "generate two opposing viewpoints based on the source material. For each viewpoint, provide a title and a list of supporting arguments.")
    debateSchema.

Definition service : GeminiService :=
  Build_GeminiService askAboutSource generateSummary generateQuiz
    generateFlashcards generateFAQ generateTimeline generatePodcastScript
    generateIdeas generateCritique generateMindMap generateDebate.

End geminiService.

(** *** The second copy of the service
    (the copy with [getSourceContext] and the schemas written in line) *)

Module geminiService2.

Definition model : string := "gemini-2.5-flash".

(** Helper function to combine sources into a single context string. *)
Definition getSourceContext (sources : list Source.t) : string :=
  match sources with
  | [] => "No sources provided."
  | _ =>
      join (newline +:+ newline +:+ "---" +:+ newline +:+ newline)
        (map (λ s, "Source Title: " +:+ Source.title s +:+ newline
                     +:+ "Source Content:" +:+ newline +:+ Source.content s)
           sources)
  end.

(** Generic handler for generating content with JSON output. *)
Definition generateJsonContent (prompt : string) (schema : Schema) : Call JSON :=
  {| request := Build_GenerateContentParameters model prompt (Some schema) false;
     receive := λ res,
       match res with
       | Rejected e => Rejected e
       | Fulfilled text =>
           match JSON_parse (trim text) with
           | Some v => Fulfilled v
           | None =>
               Rejected {| message := "The model returned an invalid format. Please try again." |}
           end
       end |}.

(** Generic handler for generating text content. *)
Definition generateTextContent (prompt : string) : Call string :=
  {| request := Build_GenerateContentParameters model prompt None false;
     receive := λ res, res |}.

Definition askAboutSource (sources : list Source.t) (question : string) : Call string :=
  let sourceContext := getSourceContext sources in
  generateTextContent
    ("Based on the following sources, please answer the question." +:+ newline
       +:+ newline +:+ "Sources:" +:+ newline +:+ sourceContext +:+ newline
       +:+ newline +:+ "Question: " +:+ question).

Definition generateSummary (sources : list Source.t) : Call string :=
  let sourceContext := getSourceContext sources in
  generateTextContent
    ("Please provide a concise summary of the key points from the following sources:"
       +:+ newline +:+ newline +:+ sourceContext).

(** The tail the remaining prompts share: the instruction, a blank line and
    the sources. *)
Definition with_sources (instruction : string) (sources : list Source.t) : string :=
  instruction +:+ newline +:+ newline +:+ "Sources:" +:+ newline
    +:+ getSourceContext sources.

Definition generateQuiz (sources : list Source.t) : Call JSON :=
  let schema :=
    ARRAY (OBJECT
      [("question", STRING (Some "The quiz question."));
       ("options", ARRAY (STRING None) (Some "An array of 4 possible answers."));
       ("correctAnswer", STRING (Some "The correct answer from the options."))]
      ["question"; "options"; "correctAnswer"]) None in
  generateJsonContent
    (with_sources "Based on the provided sources, create a multiple-choice quiz with 5 questions. For each question, provide 4 options and indicate the correct answer." sources)
    schema.

Definition generateFlashcards (sources : list Source.t) : Call JSON :=
  let schema :=
    ARRAY (OBJECT
      [("term", STRING (Some "The key term for the flashcard."));
       ("definition", STRING (Some "The definition of the term."))]
      ["term"; "definition"]) None in
  generateJsonContent
    (with_sources "Generate a set of 10 flashcards from the provided sources. Each flashcard should have a 'term' and a 'definition'." sources)
    schema.

Definition generateFAQ (sources : list Source.t) : Call JSON :=
  let schema :=
    ARRAY (OBJECT [("question", STRING None); ("answer", STRING None)]
             ["question"; "answer"]) None in
  generateJsonContent
    (with_sources "Generate a list of 5 frequently asked questions (FAQs) with their answers based on the provided sources." sources)
    schema.

Definition generateTimeline (sources : list Source.t) : Call JSON :=
  let schema :=
    ARRAY (OBJECT
      [("date", STRING None); ("event", STRING None); ("description", STRING None)]
      ["date"; "event"; "description"]) None in
  generateJsonContent
    (with_sources "Create a timeline of key events based on the provided sources. Each event should have a date, a short event title, and a brief description. If exact dates are not available, use relative terms (e.g., 'Early 20th Century')." sources)
    schema.

Definition generatePodcastScript (sources : list Source.t) : Call string :=
  generateTextContent
    (with_sources "Write a short podcast script (around 300 words) discussing the main themes of the following sources. The script should be engaging and conversational. Include intro and outro music cues." sources).

Definition generateIdeas (sources : list Source.t) : Call string :=
  generateTextContent
    (with_sources "Brainstorm a list of 5-7 interesting ideas, concepts, or project proposals based on the provided sources. Format them as a bulleted list." sources).

Definition generateCritique (sources : list Source.t) : Call string :=
  generateTextContent
    (with_sources "Provide a balanced critique of the provided sources. Discuss their strengths, weaknesses, potential biases, and any gaps in the information presented." sources).

(** The schema up to 3 levels deep, as requested by the prompt. *)
Definition mindMapNodeSchema : Schema :=
  OBJECT
    [("topic", STRING None);
     ("children", ARRAY (OBJECT
        [("topic", STRING None);
         ("children", ARRAY (OBJECT [("topic", STRING None)] []) None)]
        []) None)]
    ["topic"].

Definition generateMindMap (sources : list Source.t) : Call JSON :=
  generateJsonContent
    (with_sources "Generate a mind map structure from the provided sources. The mind map should have a central topic and several child nodes, which can also have their own children. Keep it to a maximum of 3 levels deep." sources)
    mindMapNodeSchema.

Definition viewpointSchema : Schema :=
  OBJECT [("title", STRING None); ("arguments", ARRAY (STRING None) None)]
    ["title"; "arguments"].

Definition generateDebate (sources : list Source.t) : Call JSON :=
  let schema :=
    OBJECT [("viewpointA", viewpointSchema); ("viewpointB", viewpointSchema)]
      ["viewpointA"; "viewpointB"] in
  generateJsonContent
    (with_sources "Based on the provided sources, construct a debate with two opposing viewpoints. For each viewpoint, provide a title and a list of 3-4 supporting arguments." sources)
    schema.

Definition service : GeminiService :=
  Build_GeminiService askAboutSource generateSummary generateQuiz
    generateFlashcards generateFAQ generateTimeline generatePodcastScript
    generateIdeas generateCritique generateMindMap generateDebate.

End geminiService2.

(** ** The application state ([App.tsx]) *)

(** The state variables of [App]: three persisted through [useLocalStorage]
    and the rest held by [useState]. *)
Record Store := {
  notebooks : list Notebook.t;
  activeNotebookId : option string;
  chatHistory : gmap string (list ChatMessage.t);
  isLoading : bool;
  isCreatingNotebook : bool;
  isDarkMode : bool;
}.

(** The defaults of the state variables. *)
Definition initialStore : Store :=
  {| notebooks := []; activeNotebookId := None; chatHistory := ∅;
     isLoading := false; isCreatingNotebook := false; isDarkMode := false |}.

(** The argument of a state setter: a value, or a function of the previous
    state. *)
Inductive SetStateAction (A : Type) :=
| Value (v : A)
| Updater (f : A → A).
Global Arguments Value {A} v.
Global Arguments Updater {A} f.

Definition apply_action {A} (a : SetStateAction A) (prev : A) : A :=
  match a with
  | Value v => v
  | Updater f => f prev
  end.

(** The calls a handler makes on the state setters, the backend and the
    console. *)
Inductive Cmd :=
| setNotebooks (a : SetStateAction (list Notebook.t))
| setActiveNotebookId (a : SetStateAction (option string))
| setChatHistory (a : SetStateAction (gmap string (list ChatMessage.t)))
| setIsLoading (b : bool)
| setIsCreatingNotebook (b : bool)
| setIsDarkMode (b : bool)
| generateContent (params : GenerateContentParameters)
| consoleError (label : string) (error : Error).

(** Modelled from the spec: the hook [useLocalStorage] (hooks/useLocalStorage
    is not among the sources).  The spec's Durable Store reflects every
    mutation in the next read, so a setter acts on the latest value of its
    key and on nothing else. *)
Definition exec (c : Cmd) (s : Store) : Store :=
  match c with
  | setNotebooks a =>
      {| notebooks := apply_action a (notebooks s);
         activeNotebookId := activeNotebookId s; chatHistory := chatHistory s;
         isLoading := isLoading s; isCreatingNotebook := isCreatingNotebook s;
         isDarkMode := isDarkMode s |}
  | setActiveNotebookId a =>
      {| notebooks := notebooks s;
         activeNotebookId := apply_action a (activeNotebookId s);
         chatHistory := chatHistory s;
         isLoading := isLoading s; isCreatingNotebook := isCreatingNotebook s;
         isDarkMode := isDarkMode s |}
  | setChatHistory a =>
      {| notebooks := notebooks s; activeNotebookId := activeNotebookId s;
         chatHistory := apply_action a (chatHistory s);
         isLoading := isLoading s; isCreatingNotebook := isCreatingNotebook s;
         isDarkMode := isDarkMode s |}
  | setIsLoading b =>
      {| notebooks := notebooks s; activeNotebookId := activeNotebookId s;
         chatHistory := chatHistory s;
         isLoading := b; isCreatingNotebook := isCreatingNotebook s;
         isDarkMode := isDarkMode s |}
  | setIsCreatingNotebook b =>
      {| notebooks := notebooks s; activeNotebookId := activeNotebookId s;
         chatHistory := chatHistory s;
         isLoading := isLoading s; isCreatingNotebook := b;
         isDarkMode := isDarkMode s |}
  | setIsDarkMode b =>
      {| notebooks := notebooks s; activeNotebookId := activeNotebookId s;
         chatHistory := chatHistory s;
         isLoading := isLoading s; isCreatingNotebook := isCreatingNotebook s;
         isDarkMode := b |}
  | generateContent _ => s
  | consoleError _ _ => s
  end.

(** The calls of a handler, in program order. *)
Definition run (cmds : list Cmd) (s : Store) : Store :=
  foldl (λ s c, exec c s) s cmds.

(** [notebooks.find(n => n.id === activeNotebookId) || null] *)
Definition activeNotebook (r : Store) : option Notebook.t :=
  match activeNotebookId r with
  | Some i => find (λ n, bool_decide (Notebook.id n = i)) (notebooks r)
  | None => None
  end.

(** [activeNotebookId ? chatHistory[activeNotebookId] || [] : []] *)
Definition activeChatHistory (r : Store) : list ChatMessage.t :=
  match activeNotebookId r with
  | Some i =>
      if decide (i = EmptyString) then [] else default [] (chatHistory r !! i)
  | None => []
  end.

(** The effect that selects the first notebook when none is selected. *)
Definition selectFirstNotebook (r : Store) : list Cmd :=
  let unset :=
    match activeNotebookId r with
    | None => true
    | Some i => bool_decide (i = EmptyString)
    end in
  match notebooks r with
  | n :: _ => if unset then [setActiveNotebookId (Value (Some (Notebook.id n)))] else []
  | [] => []
  end.

Definition handleCreateNotebook (r : Store) (now : Z) (createdAt : string)
    (title : string) : list Cmd :=
  let newNotebook :=
    Notebook.mk (notebook_id now) title [] createdAt (Some []) in
  let newNotebooks := notebooks r ++ [newNotebook] in
  [ setNotebooks (Value newNotebooks);
    setChatHistory (Value (<[Notebook.id newNotebook := []]> (chatHistory r)));
    setActiveNotebookId (Value (Some (Notebook.id newNotebook)));
    setIsCreatingNotebook false ].

Definition handleDeleteNotebook (r : Store) (id : string) : list Cmd :=
  let newNotebooks := filter (λ n, Notebook.id n ≠ id) (notebooks r) in
  [ setNotebooks (Value newNotebooks);
    setChatHistory (Value (delete id (chatHistory r))) ]
  ++ (if decide (activeNotebookId r = Some id)
      then [ setActiveNotebookId
               (Value (match newNotebooks with
                       | n :: _ => Some (Notebook.id n)
                       | [] => None
                       end)) ]
      else []).

Definition handleAddSourceToNotebook (r : Store) (now : Z)
    (notebookId title content : string) (type : SourceType.t) : list Cmd :=
  let newSource := Source.mk (source_id now) type title content in
  let updatedNotebooks :=
    map (λ n, if decide (Notebook.id n = notebookId)
              then Notebook.with_sources n (Notebook.sources n ++ [newSource])
              else n)
        (notebooks r) in
  [ setNotebooks (Value updatedNotebooks) ].

Definition updateChat (notebookId : string) (message : ChatMessage.t) : Cmd :=
  setChatHistory (Updater (λ prev,
    <[notebookId := default [] (prev !! notebookId) ++ [message]]> prev)).

(** The argument [itemData] of [handleSaveItemToNotebook]. *)
Record ItemData := {
  itemData_type : ContentType;
  itemData_contentData : JSON;
  itemData_title : string;
}.

Definition handleSaveItemToNotebook (now : Z) (createdAt : string)
    (notebookId : string) (itemData : ItemData) : list Cmd :=
  let newItem :=
    SavedItem.mk (saved_id now) notebookId (itemData_title itemData)
      (itemData_type itemData) (itemData_contentData itemData) createdAt in
  [ setNotebooks (Updater (λ prev,
      map (λ n, if decide (Notebook.id n = notebookId)
                then Notebook.with_savedItems n
                       (Notebook.savedItems_or_empty n ++ [newItem])
                else n)
          prev)) ].

Definition handleDeleteSavedItem (notebookId itemId : string) : list Cmd :=
  [ setNotebooks (Updater (λ prev,
      map (λ n, if decide (Notebook.id n = notebookId)
                then Notebook.with_savedItems n
                       (filter (λ item, SavedItem.id item ≠ itemId)
                          (Notebook.savedItems_or_empty n))
                else n)
          prev)) ].

(** The own enumerable properties an object spread [{ ...v }] copies. *)
Definition own_properties (v : JSON) : list (string * JSON) :=
  match v with
  | JObject fields => fields
  | JArray items => imap (λ i x, (pretty i, x)) items
  | JString s =>
      imap (λ i c, (pretty i, JString (String c EmptyString))) (String.list_ascii_of_string s)
  | _ => []
  end.

(** [rawFlashcards.map((card, index) => ({ ...card, id: ... }))], where the
    clock is read once for each card; [map] exists on arrays only. *)
Definition flashcardsWithIds (clock : nat → Z) (rawFlashcards : JSON) : Settled JSON :=
  match rawFlashcards with
  | JArray cards =>
      Fulfilled (JArray (map_indexed (λ card index,
        JObject (set_prop "id" (JString (flashcard_id (clock index) index))
                   (own_properties card))) cards))
  | _ => Rejected {| message := "rawFlashcards.map is not a function" |}
  end.

Definition errorMessage (now : Z) : ChatMessage.t :=
  ChatMessage.mk (msg_id (now + 1)) Role.model
    "Sorry, I encountered an error. Please check the console for details."
    ERROR None.

(** The end of the [try] block, its [catch] and its [finally]: the response
    is appended, or the error is logged and the error message appended; the
    busy flag is cleared in both cases. *)
Definition settle (notebookId : string) (response : Settled ChatMessage.t)
    (clock : nat → Z) : list Cmd :=
  match response with
  | Fulfilled response => [updateChat notebookId response]
  | Rejected error =>
      [ consoleError "Error generating content:" error;
        updateChat notebookId (errorMessage (clock 0%nat)) ]
  end ++ [setIsLoading false].

(** The outcome of the [switch] on the intent: the request of the service
    function it calls, and the message built from the way that call
    settles.  [msgId] is fixed before the call; the clock is read again
    afterwards. *)
Record Generation := {
  generation_request : GenerateContentParameters;
  generation_response : Settled string → (nat → Z) → Settled ChatMessage.t;
}.

Definition respond {A} (call : Call A)
    (build : A → (nat → Z) → Settled ChatMessage.t) : Generation :=
  {| generation_request := request call;
     generation_response := λ res clock,
       match receive call res with
       | Fulfilled v => build v clock
       | Rejected e => Rejected e
       end |}.

(** What an async handler is suspended on at its [await]: the variables its
    continuation closes over. *)
Record Pending := {
  pending_notebookId : string;
  pending_generation : Generation;
}.

Section App.
Context {svc : GeminiService}.

Definition generate (type : Intent) (sources : list Source.t)
    (message msgId : string) : Generation :=
  let ok (text : string) (contentType : ContentType)
      (contentData : option JSON) : Settled ChatMessage.t :=
    Fulfilled (ChatMessage.mk msgId Role.model text contentType contentData) in
  match type with
  | chat =>
      respond (askAboutSource sources message) (λ text _, ok text TEXT None)
  | action summary =>
      respond (generateSummary sources)
        (λ s _, ok "Here is a summary of the sources:" SUMMARY (Some (JString s)))
  | action quiz =>
      respond (generateQuiz sources) (λ v _, ok "Here is your quiz:" QUIZ (Some v))
  | action flashcards =>
      respond (generateFlashcards sources)
        (λ rawFlashcards clock,
           match flashcardsWithIds clock rawFlashcards with
           | Fulfilled cards => ok "Here are your flashcards:" FLASHCARDS (Some cards)
           | Rejected e => Rejected e
           end)
  | action faq =>
      respond (generateFAQ sources)
        (λ v _, ok "Here are some frequently asked questions:" FAQ (Some v))
  | action timeline =>
      respond (generateTimeline sources)
        (λ v _, ok "Here is a timeline of key events:" TIMELINE (Some v))
  | action podcast =>
      respond (generatePodcastScript sources)
        (λ s _, ok "Podcast Script:" PODCAST (Some (JObject [("script", JString s)])))
  | action ideas =>
      respond (generateIdeas sources)
        (λ s _, ok "Here are some ideas based on the sources:" IDEAS (Some (JString s)))
  | action critique =>
      respond (generateCritique sources)
        (λ s _, ok "Here is a critique of the sources:" CRITIQUE (Some (JString s)))
  | action mindmap =>
      respond (generateMindMap sources)
        (λ v _, ok "Here is a mind map of the key concepts:" MIND_MAP (Some v))
  | action debate =>
      respond (generateDebate sources)
        (λ v _, ok "Here is a debate on the source material:" DEBATE (Some v))
  end.

Definition userMessage (now : Z) (message : string) : ChatMessage.t :=
  ChatMessage.mk (msg_id now) Role.user message TEXT None.

(** [handleSendMessage] up to its [await]: the guard, the busy flag, the
    user message, and the request the service function of the intent
    issues when it is called.  [clock 0] and [clock 1] are the two
    readings of the clock made on the way.  The handler is then suspended
    on that request. *)
Definition handleSendMessage (r : Store) (clock : nat → Z)
    (message : string) (type : Intent) : list Cmd * option Pending :=
  match activeNotebook r with
  | None => ([], None)
  | Some activeNotebook =>
      if isLoading r then ([], None)
      else
        let msgId := msg_id (clock 1%nat + 1) in
        let sources := Notebook.sources activeNotebook in
        let generation := generate type sources message msgId in
        ( [ setIsLoading true;
            updateChat (Notebook.id activeNotebook) (userMessage (clock 0%nat) message);
            generateContent (generation_request generation) ],
          Some {| pending_notebookId := Notebook.id activeNotebook;
                  pending_generation := generation |} )
  end.

(** [handleSendMessage] from its [await] on, once the request has
    settled. *)
Definition resume (p : Pending) (res : Settled string) (clock : nat → Z) : list Cmd :=
  settle (pending_notebookId p)
    (generation_response (pending_generation p) res clock) clock.
End App.

(** ** The chat view ([components/ChatView.tsx]) *)

Module ChatView.

(** The props the controls depend on. *)
Record Props := {
  notebook : Notebook.t;
  isLoading : bool;
}.

Record State := {
  input : string;
  showActions : bool;
}.

(** The state of a freshly mounted view ([App] mounts one for each
    notebook, through its [key]). *)
Definition mount : State := {| input := EmptyString; showActions := false |}.

Definition hasSources (p : Props) : bool :=
  bool_decide (0 < length (Notebook.sources (notebook p)))%nat.

(** A call of [onSendMessage]. *)
Definition Sent : Type := string * Intent.

Definition handleSubmit (p : Props) (s : State) : State * option Sent :=
  if negb (bool_decide (trim (input s) = EmptyString)) && negb (isLoading p)
  then ({| input := EmptyString; showActions := showActions s |},
        Some (input s, chat))
  else (s, None).

Definition handleSpecialAction (p : Props) (s : State) (type : ActionType)
  : State * option Sent :=
  if negb (isLoading p)
  then ({| input := input s; showActions := false |},
        Some ("Generate " +:+ ActionType_toString type +:+ " for this notebook.",
              action type))
  else (s, None).

(** The five icon buttons next to the text area, and the entries of the
    [actions] menu. *)
Definition buttons : list ActionType := [flashcards; podcast; quiz; mindmap; debate].
Definition actions : list ActionType := [summary; faq; timeline; ideas; critique].

(** What the user can do to the controls. *)
Inductive UIEvent :=
| Change (value : string)          (* edit the text area *)
| KeyDownEnter (shiftKey : bool)   (* press Enter in the text area *)
| ClickSend                        (* the submit button of the form *)
| ClickButton (type : ActionType)  (* one of the icon buttons *)
| ClickGenerate                    (* the button that opens the menu *)
| ClickMenu (type : ActionType)    (* an entry of the open menu *)
| MouseDownOutside.                (* a click outside the menu *)

(** The [disabled] attributes. *)
Definition textarea_disabled (p : Props) : bool :=
  negb (hasSources p) || isLoading p.
Definition button_disabled (p : Props) : bool :=
  negb (hasSources p) || isLoading p.
Definition send_disabled (p : Props) (s : State) : bool :=
  bool_decide (trim (input s) = EmptyString) || negb (hasSources p) || isLoading p.

(** One event on the rendered view.  A disabled control receives no
    event, and a menu entry exists only while the menu is shown.  An entry
    of the menu is a button of the form that declares no [type]: when its
    click sends, the menu is closed and the entry is gone by the end of the
    click, so the form is not submitted; and while a request is in flight
    a submission of the form sends nothing ([handleSubmit]). *)
Definition step (p : Props) (e : UIEvent) (s : State) : State * option Sent :=
  match e with
  | Change value =>
      if textarea_disabled p then (s, None)
      else ({| input := value; showActions := showActions s |}, None)
  | KeyDownEnter shiftKey =>
      if textarea_disabled p then (s, None)
      else if shiftKey then (s, None)
      else handleSubmit p s
  | ClickSend =>
      if send_disabled p s then (s, None) else handleSubmit p s
  | ClickButton type =>
      if button_disabled p then (s, None)
      else if decide (type ∈ buttons) then handleSpecialAction p s type
      else (s, None)
  | ClickGenerate =>
      if button_disabled p then (s, None)
      else ({| input := input s; showActions := negb (showActions s) |}, None)
  | ClickMenu type =>
      if showActions s then
        if decide (type ∈ actions) then handleSpecialAction p s type
        else (s, None)
      else (s, None)
  | MouseDownOutside =>
      ({| input := input s; showActions := false |}, None)
  end.

(** A session of the view: the props of each render and the event that
    follows it.  The calls of [onSendMessage] are collected in order. *)
Fixpoint session (es : list (Props * UIEvent)) (s : State) : State * list Sent :=
  match es with
  | [] => (s, [])
  | (p, e) :: es' =>
      let '(s1, sent) := step p e s in
      let '(s2, sents) := session es' s1 in
      (s2, option_list sent ++ sents)
  end.

End ChatView.

(** ** The application as a transition system *)

(** A call of the backend, in the order of issue, with the message that
    answered it once it has settled. *)
Record CallRecord := {
  call_notebookId : string;
  call_userMessage : ChatMessage.t;
  call_reply : option ChatMessage.t;
}.

Record System := {
  store : Store;
  inFlight : list Pending;        (* the requests that have not settled *)
  calls : list CallRecord;        (* history: every request issued so far *)
}.

Inductive Event :=
| CreateNotebook (now : Z) (createdAt title : string)
| DeleteNotebook (id : string)
| SelectNotebook (id : string)
| AddNotebook
| CancelCreate
| ToggleDarkMode
  (* [render] is the render whose handler the form calls: the current one,
     or an earlier one when the form awaited a file or a URL *)
| AddSource (render : option Store) (now : Z) (notebookId title content : string)
            (type : SourceType.t)
| SaveItem (now : Z) (createdAt notebookId : string) (itemData : ItemData)
| DeleteSavedItem (notebookId itemId : string)
| SendMessage (clock : nat → Z) (message : string) (type : Intent)
| Settle (res : Settled string) (clock : nat → Z).

(** The handler's setter calls, then the effect of the render that
    follows. *)
Definition commit (cmds : list Cmd) (s : Store) : Store :=
  let s' := run cmds s in run (selectFirstNotebook s') s'.

(** The message a settled request leaves in the log. *)
Definition reply_of (p : Pending) (res : Settled string) (clock : nat → Z) : ChatMessage.t :=
  match generation_response (pending_generation p) res clock with
  | Fulfilled response => response
  | Rejected _ => errorMessage (clock 0%nat)
  end.

(** The oldest open call is closed with [m]. *)
Fixpoint close_call (m : ChatMessage.t) (cs : list CallRecord) : list CallRecord :=
  match cs with
  | [] => []
  | c :: cs' =>
      match call_reply c with
      | None => {| call_notebookId := call_notebookId c;
                   call_userMessage := call_userMessage c;
                   call_reply := Some m |} :: cs'
      | Some _ => c :: close_call m cs'
      end
  end.

Section System.
Context {svc : GeminiService}.

Definition step (e : Event) (sys : System) : System :=
  let s := store sys in
  let sync (cmds : list Cmd) : System :=
    {| store := commit cmds s; inFlight := inFlight sys; calls := calls sys |} in
  match e with
  | CreateNotebook now createdAt title => sync (handleCreateNotebook s now createdAt title)
  | DeleteNotebook id => sync (handleDeleteNotebook s id)
  | SelectNotebook id => sync [setActiveNotebookId (Value (Some id))]
  | AddNotebook => sync [setIsCreatingNotebook true]
  | CancelCreate => sync [setIsCreatingNotebook false]
  | ToggleDarkMode => sync [setIsDarkMode (negb (isDarkMode s))]
  | AddSource render now notebookId title content type =>
      sync (handleAddSourceToNotebook (default s render) now notebookId title content type)
  | SaveItem now createdAt notebookId itemData =>
      sync (handleSaveItemToNotebook now createdAt notebookId itemData)
  | DeleteSavedItem notebookId itemId =>
      sync (handleDeleteSavedItem notebookId itemId)
  | SendMessage clock message type =>
      match handleSendMessage s clock message type with
      | (cmds, Some p) =>
          {| store := commit cmds s;
             inFlight := inFlight sys ++ [p];
             calls := calls sys ++
               [ {| call_notebookId := pending_notebookId p;
                    call_userMessage := userMessage (clock 0%nat) message;
                    call_reply := None |} ] |}
      | (cmds, None) =>
          {| store := commit cmds s; inFlight := inFlight sys; calls := calls sys |}
      end
  | Settle res clock =>
      match inFlight sys with
      | p :: rest =>
          {| store := commit (resume p res clock) s;
             inFlight := rest;
             calls := close_call (reply_of p res clock) (calls sys) |}
      | [] => sys
      end
  end.

Definition steps (es : list Event) (sys : System) : System :=
  foldl (λ sys e, step e sys) sys es.
End System.

(** The messages of the calls made for notebook [id], in the order of
    issue. *)
Definition messages_of (id : string) (cs : list CallRecord) : list ChatMessage.t :=
  flat_map (λ c, if decide (call_notebookId c = id)
                 then call_userMessage c :: option_list (call_reply c)
                 else []) cs.

(** ** Sequences of registry and library calls *)

(** An [addSource] call: the clock reading and the arguments. *)
Record AddSourceCall := {
  add_now : Z;
  add_title : string;
  add_content : string;
  add_type : SourceType.t;
}.

Definition new_source (c : AddSourceCall) : Source.t :=
  Source.mk (source_id (add_now c)) (add_type c) (add_title c) (add_content c).

(** Calls of [handleAddSourceToNotebook] on one notebook, each from the
    render that follows the previous call. *)
Definition addSources (notebookId : string) (cs : list AddSourceCall) (s : Store) : Store :=
  foldl (λ s c,
    run (handleAddSourceToNotebook s (add_now c) notebookId
           (add_title c) (add_content c) (add_type c)) s) s cs.

(** A call on the saved-items library of a notebook. *)
Inductive LibraryCall :=
| Save (now : Z) (createdAt : string) (itemData : ItemData)
| Delete (itemId : string).

Definition library_cmds (notebookId : string) (c : LibraryCall) : list Cmd :=
  match c with
  | Save now createdAt itemData =>
      handleSaveItemToNotebook now createdAt notebookId itemData
  | Delete itemId => handleDeleteSavedItem notebookId itemId
  end.

Definition libraryCalls (notebookId : string) (cs : list LibraryCall) (s : Store) : Store :=
  foldl (λ s c, run (library_cmds notebookId c) s) s cs.

(** The clock readings of the [Save] calls. *)
Definition save_times (cs : list LibraryCall) : list Z :=
  omap (λ c, match c with Save now _ _ => Some now | Delete _ => None end) cs.

(** The number of [Save] calls. *)
Definition saves (cs : list LibraryCall) : nat := length (save_times cs).

(** What one call does to the collection [n.savedItems || []]. *)
Definition library_step (notebookId : string) (items : list SavedItem.t)
    (c : LibraryCall) : list SavedItem.t :=
  match c with
  | Save now createdAt itemData =>
      items ++ [SavedItem.mk (saved_id now) notebookId (itemData_title itemData)
                  (itemData_type itemData) (itemData_contentData itemData) createdAt]
  | Delete itemId => filter (λ item, SavedItem.id item ≠ itemId) items
  end.

(** The number of [Delete] calls that find their item in the collection,
    which starts as [items]. *)
Fixpoint matching_deletes (notebookId : string) (items : list SavedItem.t)
    (cs : list LibraryCall) : nat :=
  match cs with
  | [] => 0
  | c :: cs' =>
      (match c with
       | Delete itemId =>
           if decide (itemId ∈ map SavedItem.id items) then 1 else 0
       | Save _ _ _ => 0
       end + matching_deletes notebookId (library_step notebookId items c) cs')%nat
  end.

(** ** Mind-map schemas and trees *)

(** The number of nested levels of [children] a schema describes below the
    node it is the schema of. *)
Fixpoint levels (s : Schema) : nat :=
  match s with
  | OBJECT properties _ =>
      (fix children (ps : list (string * Schema)) : nat :=
         match ps with
         | [] => 0%nat
         | (k, sub) :: rest =>
             if decide (k = "children") then
               match sub with
               | ARRAY items _ => S (levels items)
               | _ => 0%nat
               end
             else children rest
         end) properties
  | _ => 0%nat
  end.

(** A value is an instance of a schema: a string; an array of instances of
    the item schema; an object that has the required properties and whose
    properties are all declared, each an instance of its own schema. *)
Fixpoint conforms (s : Schema) (v : JSON) : bool :=
  match s, v with
  | STRING _, JString _ => true
  | ARRAY items _, JArray l => forallb (conforms items) l
  | OBJECT properties required, JObject fields =>
      forallb (λ k, bool_decide (is_Some (get_prop k fields))) required
      && forallb (λ kv : string * JSON,
           (fix declared (ps : list (string * Schema)) : bool :=
              match ps with
              | [] => false
              | (k, sub) :: rest =>
                  if decide (k = kv.1) then conforms sub kv.2 else declared rest
              end) properties) fields
  | _, _ => false
  end.

(** The number of nested levels of children below a mind-map node. *)
Fixpoint depth (v : JSON) : nat :=
  match v with
  | JObject fields =>
      (fix children (fs : list (string * JSON)) : nat :=
         match fs with
         | [] => 0%nat
         | (k, c) :: rest =>
             if decide (k = "children") then
               match c with
               | JArray kids =>
                   (fix deepest (ks : list JSON) : nat :=
                      match ks with
                      | [] => 0%nat
                      | kid :: ks' => S (depth kid) `max` deepest ks'
                      end) kids
               | _ => 0%nat
               end
             else children rest
         end) fields
  | _ => 0%nat
  end.

(** The deepest of a list of children, counted from their parent. *)
Definition deepest (kids : list JSON) : nat :=
  foldr (λ kid d, S (depth kid) `max` d) 0%nat kids.

(** A chain of [n] nested single children below a root. *)
Fixpoint chain (n : nat) : JSON :=
  match n with
  | O => JObject [("topic", JString "t")]
  | S n' => JObject [("topic", JString "t"); ("children", JArray [chain n'])]
  end.

(** ** Quiz questions *)

(** [correctAnswer ∈ options] on a stored question. *)
Definition answer_in_options (question : JSON) : Prop :=
  match question with
  | JObject fields =>
      match get_prop "correctAnswer" fields, get_prop "options" fields with
      | Some answer, Some (JArray options) => answer ∈ options
      | _, _ => False
      end
  | _ => False
  end.

(** The questions of a [QUIZ] payload. *)
Definition questions (contentData : JSON) : list JSON :=
  match contentData with
  | JArray qs => qs
  | _ => []
  end.

(** ** Auxiliary notions for the properties *)

(** Two stores that differ in their notebooks at most. *)
Definition same_but_notebooks (s s' : Store) : Prop :=
  activeNotebookId s' = activeNotebookId s
  ∧ chatHistory s' = chatHistory s
  ∧ isLoading s' = isLoading s
  ∧ isCreatingNotebook s' = isCreatingNotebook s
  ∧ isDarkMode s' = isDarkMode s.

(** [l.map(n => n.id === id ? f(n) : n)] *)
Definition update_notebook (id : string) (f : Notebook.t → Notebook.t)
    (l : list Notebook.t) : list Notebook.t :=
  map (λ n, if decide (Notebook.id n = id) then f n else n) l.

(** ** A small application state to evaluate the handlers on *)

Definition example_createdAt : string := "2025-01-01T00:00:00.000Z".

(** The store after the first notebook has been created, at clock
    reading 1. *)
Definition example_store : Store :=
  run (handleCreateNotebook initialStore 1 example_createdAt "Notes") initialStore.

Definition example_itemData : ItemData :=
  {| itemData_type := SUMMARY; itemData_contentData := JString "A summary.";
     itemData_title := "Saved summary" |}.

(** The example store once a summary has been saved in its notebook. *)
Definition example_saved_item : SavedItem.t :=
  SavedItem.mk (saved_id 1700000000000) (notebook_id 1) "Saved summary" SUMMARY
    (JString "A summary.") example_createdAt.

Definition example_store_with_item : Store :=
  run (handleSaveItemToNotebook 1700000000000 example_createdAt (notebook_id 1)
         example_itemData) example_store.

Definition example_notebook : Notebook.t :=
  Notebook.mk (notebook_id 1) "Notes" [] example_createdAt (Some []).

(** Two [addSource] calls at different clock readings, and two at the same
    reading. *)
Definition example_adds : list AddSourceCall :=
  [ {| add_now := 1700000000000; add_title := "Doc";
       add_content := "Paris is the capital of France."; add_type := SourceType.text |};
    {| add_now := 1700000000001; add_title := "Site";
       add_content := "https://example.com"; add_type := SourceType.text |} ].

Definition example_adds_same_reading : list AddSourceCall :=
  [ {| add_now := 1700000000000; add_title := "Doc";
       add_content := "Paris is the capital of France."; add_type := SourceType.text |};
    {| add_now := 1700000000000; add_title := "Site";
       add_content := "https://example.com"; add_type := SourceType.text |} ].

(** Library calls: two saves at different readings and a delete of the
    first; two saves at the same reading and a delete of their id. *)
Definition example_library_calls : list LibraryCall :=
  [ Save 1700000000000 example_createdAt example_itemData;
    Save 1700000000001 example_createdAt example_itemData;
    Delete (saved_id 1700000000000) ].

Definition example_library_calls_same_reading : list LibraryCall :=
  [ Save 1700000000000 example_createdAt example_itemData;
    Save 1700000000000 example_createdAt example_itemData;
    Delete (saved_id 1700000000000) ].

(** The example store once the source "Doc" has been added. *)
Definition example_store_with_source : Store :=
  addSources (notebook_id 1) (take 1 example_adds) example_store.

Definition example_clock (k : nat) : Z := 1700000000100 + Z.of_nat k.
Definition example_clock' (k : nat) : Z := 1700000000900 + Z.of_nat k.

(** [s] between double quotes. *)
Definition quoted (s : string) : string := String dquote s +:+ String dquote "".

(** A response of the backend to the quiz request: one question, built as
    the schema asks. *)
Definition quiz_text (answer : string) : string :=
  "[{" +:+ quoted "question" +:+ ": " +:+ quoted "What is the capital of France?"
    +:+ ", " +:+ quoted "options" +:+ ": [" +:+ quoted "Paris" +:+ ", "
    +:+ quoted "London" +:+ ", " +:+ quoted "Berlin" +:+ ", " +:+ quoted "Madrid"
    +:+ "], " +:+ quoted "correctAnswer" +:+ ": " +:+ quoted answer +:+ "}]".

Definition quiz_question (answer : string) : JSON :=
  JObject [("question", JString "What is the capital of France?");
           ("options", JArray [JString "Paris"; JString "London";
                               JString "Berlin"; JString "Madrid"]);
           ("correctAnswer", JString answer)].


(** Either copy of the service. *)
Definition service_of (second : bool) : GeminiService :=
  if second then geminiService2.service else geminiService.service.

Section Awaited.
Context {svc : GeminiService}.


End Awaited.


(** A view of a notebook without sources, and events on each of its
    controls. *)
Definition example_props : ChatView.Props :=
  {| ChatView.notebook := example_notebook; ChatView.isLoading := false |}.

Definition example_events : list (ChatView.Props * ChatView.UIEvent) :=
  map (λ e, (example_props, e))
    [ ChatView.Change "What is this about?"; ChatView.KeyDownEnter false;
      ChatView.ClickSend; ChatView.ClickButton quiz; ChatView.ClickGenerate;
      ChatView.ClickMenu summary; ChatView.MouseDownOutside ].

(** Three notebooks, the second one active. *)
Definition example_three : Store :=
  {| notebooks :=
       [ Notebook.mk (notebook_id 1) "Notes" [] example_createdAt (Some []);
         Notebook.mk (notebook_id 2) "Drafts" [] example_createdAt (Some []);
         Notebook.mk (notebook_id 3) "Archive" [] example_createdAt None ];
     activeNotebookId := Some (notebook_id 2);
     chatHistory := {[ notebook_id 1 := []; notebook_id 2 := []; notebook_id 3 := [] ]};
     isLoading := false; isCreatingNotebook := false; isDarkMode := false |}.

(** ** Start-up and the single-flight invariant *)

(** The system when the application starts on the persisted state: the
    flags held by [useState] take their defaults, nothing is in flight, and
    the first render has run its effect. *)
Definition boot (persisted : Store) : System :=
  {| store :=
       commit []
         {| notebooks := notebooks persisted;
            activeNotebookId := activeNotebookId persisted;
            chatHistory := chatHistory persisted;
            isLoading := false; isCreatingNotebook := false;
            isDarkMode := isDarkMode persisted |};
     inFlight := [];
     calls := [] |}.

Definition closed (c : CallRecord) : Prop := is_Some (call_reply c).

(** What holds of every state the system reaches from the logs [logs0]:
    at most one request is in flight, the busy flag is set exactly then,
    the effect of the last render has run, the calls are all closed but
    the one in flight, which is the last, and every log lists messages of
    the calls for its notebook in the order of issue. *)
Record single_flight_inv (logs0 : gmap string (list ChatMessage.t)) (sys : System)
  : Prop := {
  inv_one : (length (inFlight sys) ≤ 1)%nat;
  inv_busy : isLoading (store sys) = true ↔ inFlight sys ≠ [];
  inv_stable : run (selectFirstNotebook (store sys)) (store sys) = store sys;
  inv_calls :
    match inFlight sys with
    | [] => Forall closed (calls sys)
    | p :: _ =>
        ∃ cs c, calls sys = cs ++ [c] ∧ Forall closed cs
          ∧ call_reply c = None ∧ call_notebookId c = pending_notebookId p
    end;
  inv_order : ∀ id,
    default [] (chatHistory (store sys) !! id)
      `suffix_of` (default [] (logs0 !! id) ++ messages_of id (calls sys));
}.

(** A run from an empty persisted state: a notebook is created, a source is
    added, a question is sent and its request is left in flight. *)
Definition example_run : list Event :=
  [ CreateNotebook 1 example_createdAt "Notes";
    AddSource None 1700000000000 (notebook_id 1) "Doc"
      "Paris is the capital of France." SourceType.text;
    SendMessage example_clock "What is the capital of France?" chat ].

(** ** Further parts of [App.tsx] *)

(** The content type of the reply to an intent, one for each [case] of the
    [switch]. *)
Definition contentType_of (type : Intent) : ContentType :=
  match type with
  | chat => TEXT
  | action summary => SUMMARY
  | action quiz => QUIZ
  | action flashcards => FLASHCARDS
  | action faq => FAQ
  | action timeline => TIMELINE
  | action podcast => PODCAST
  | action ideas => IDEAS
  | action critique => CRITIQUE
  | action mindmap => MIND_MAP
  | action debate => DEBATE
  end.

(** What [App] renders: the editor while there is no notebook or one is
    being created, else the sidebar with the chat view of the active
    notebook, or with the placeholder when the active id names none. *)
Inductive Screen :=
| Editor (isInitial : bool)
| Chat (notebook : Notebook.t)
| Placeholder.

Definition render (s : Store) : Screen :=
  match notebooks s with
  | [] => Editor true
  | _ =>
      if isCreatingNotebook s then Editor false
      else match activeNotebook s with
           | Some n => Chat n
           | None => Placeholder
           end
  end.

(** The events the rendered controls can produce in a state: the sidebar
    lists the notebooks there are, a new notebook reads a clock value that
    names no notebook yet, and a source is added from the current render. *)
Definition ui_event (s : Store) (e : Event) : Prop :=
  match e with
  | CreateNotebook now _ _ => notebook_id now ∉ map Notebook.id (notebooks s)
  | DeleteNotebook id | SelectNotebook id => id ∈ map Notebook.id (notebooks s)
  | AddSource render _ _ _ _ _ => render = None
  | _ => True
  end.

Section Runs.
Context {svc : GeminiService}.

(** A run in which every event is one the controls can produce. *)
Fixpoint ui_run (es : list Event) (sys : System) : Prop :=
  match es with
  | [] => True
  | e :: es' => ui_event (store sys) e ∧ ui_run es' (step e sys)
  end.
End Runs.

(** No character of [s] is [c]. *)
Fixpoint lacks (c : ascii) (s : string) : Prop :=
  match s with
  | EmptyString => True
  | String c' s' => c' ≠ c ∧ lacks c s'
  end.

(** The notebooks have distinct, non-empty ids, and the active id names one
    of them, or is [null] while there is none. *)
Definition registry_inv (s : Store) : Prop :=
  let ids := map Notebook.id (notebooks s) in
  NoDup ids
  ∧ (EmptyString ∉ ids)
  ∧ (match activeNotebookId s with
     | Some i => i ∈ ids
     | None => notebooks s = []
     end).

(** ** Sessions of the chat view in which the notebook keeps its sources *)

(** The renders of a session never lose the sources: once a render has
    some, so have the later ones ([App] has no handler that removes a
    source).  [seen] tells whether an earlier render had sources. *)
Fixpoint sources_kept (seen : bool) (es : list (ChatView.Props * ChatView.UIEvent)) : Prop :=
  match es with
  | [] => True
  | (p, _) :: es' =>
      (seen = true → ChatView.hasSources p = true)
      ∧ sources_kept (seen || ChatView.hasSources p) es'
  end.

(** A view of the notebook after a source has been added. *)
Definition example_props_with_source : ChatView.Props :=
  {| ChatView.notebook :=
       Notebook.with_sources example_notebook
         [Source.mk (source_id 1700000000000) SourceType.text "Doc"
            "Paris is the capital of France."];
     ChatView.isLoading := false |}.

(** ** Strings as the file and URL services use them (ASCII range) *)

Definition toLowerCase_char (c : ascii) : ascii :=
  let n := nat_of_ascii c in
  if (65 <=? n)%nat && (n <=? 90)%nat then ascii_of_nat (n + 32) else c.

(** [s.toLowerCase()] *)
Fixpoint toLowerCase (s : string) : string :=
  match s with
  | EmptyString => EmptyString
  | String c s' => String (toLowerCase_char c) (toLowerCase s')
  end.

(** [s.split(sep)] for a separator of one character: the pieces between
    the separators, of which there is always at least one. *)
Fixpoint split (sep : ascii) (s : string) : list string :=
  match s with
  | EmptyString => [EmptyString]
  | String c s' =>
      if decide (c = sep) then EmptyString :: split sep s'
      else match split sep s' with
           | piece :: pieces => String c piece :: pieces
           | [] => [String c EmptyString]
           end
  end.

(** [s.startsWith(word)] *)
Fixpoint startsWith (word s : string) : bool :=
  match word, s with
  | EmptyString, _ => true
  | String a word', String b s' => bool_decide (a = b) && startsWith word' s'
  | String _ _, EmptyString => false
  end.

(** [s.includes(word)] *)
Fixpoint includes (word s : string) : bool :=
  startsWith word s
  || match s with
     | EmptyString => false
     | String _ s' => includes word s'
     end.

(** The characters the class [[^/.]] matches. *)
Definition extension_char (c : ascii) : bool :=
  negb (bool_decide (c = "/"%char)) && negb (bool_decide (c = "."%char)).

(** The strings [[^/.]+$] matches as a whole. *)
Fixpoint extension_chars (s : string) : bool :=
  match s with
  | EmptyString => true
  | String c s' => extension_char c && extension_chars s'
  end.

Definition is_extension (s : string) : bool :=
  match s with
  | EmptyString => false
  | String _ _ => extension_chars s
  end.

(** [name.replace(/\.[^/.]+$/, "")]: the match is looked for from the left,
    at each dot in turn, and what it covers, which reaches to the end of
    the name, is removed. *)
Fixpoint stripExtension (name : string) : string :=
  match name with
  | EmptyString => EmptyString
  | String c rest =>
      if bool_decide (c = "."%char) && is_extension rest then EmptyString
      else String c (stripExtension rest)
  end.

(** ** Reading files ([services/fileParserService.ts]) *)

Module fileParserService.

(** What the libraries make of the bytes of a file: the raw text mammoth
    extracts, the strings of the text items of each page pdf.js finds, the
    text of the [a:t] nodes of each slide of the archive, and the name and
    the CSV rendering of each sheet of the workbook. *)
Record ArrayBuffer := {
  mammoth_extractRawText : Settled string;
  pdfjs_pages : Settled (list (list string));
  pptx_slides : Settled (list (list string));
  xlsx_sheets : Settled (list (string * string));
}.

(** A [File]: its name, its MIME type, and the outcome of reading it with
    a [FileReader], which fails with [reader.error]. *)
Record File := {
  name : string;
  type : string;
  readAsText : Settled string;
  readAsArrayBuffer : Settled ArrayBuffer;
}.

(** A parser on the array buffer: a failure of the read is passed on, a
    failure of the library is replaced by [failure]. *)
Definition parseBuffer (file : File) (failure : string)
    (extract : ArrayBuffer → Settled string) : Settled string :=
  match readAsArrayBuffer file with
  | Rejected error => Rejected error
  | Fulfilled arrayBuffer =>
      match extract arrayBuffer with
      | Fulfilled text => Fulfilled text
      | Rejected _ => Rejected {| message := failure |}
      end
  end.

Definition parseTxt (file : File) : Settled string := readAsText file.

Definition parseDocx (file : File) : Settled string :=
  parseBuffer file "Failed to read the content of the .docx file."
    mammoth_extractRawText.

(** [textContent += text.items.map(s => s.str).join(' ') + '\n\n'] for each
    page. *)
Definition pagesText (pages : list (list string)) : string :=
  foldl (λ textContent items, textContent +:+ join " " items +:+ newline +:+ newline)
    EmptyString pages.

Definition parsePdf (file : File) : Settled string :=
  parseBuffer file "Failed to read the content of the .pdf file."
    (λ arrayBuffer,
       match pdfjs_pages arrayBuffer with
       | Fulfilled pages => Fulfilled (pagesText pages)
       | Rejected e => Rejected e
       end).

(** The text nodes of the slides, those with empty text left out, each
    followed by a line break. *)
Definition slidesText (slides : list (list string)) : string :=
  foldl (λ fullText nodes,
           foldl (λ fullText textContent,
                    if decide (textContent = EmptyString) then fullText
                    else fullText +:+ textContent +:+ newline)
             fullText nodes)
    EmptyString slides.

Definition parsePptx (file : File) : Settled string :=
  parseBuffer file "Failed to read the content of the .pptx file."
    (λ arrayBuffer,
       match pptx_slides arrayBuffer with
       | Fulfilled slides => Fulfilled (trim (slidesText slides))
       | Rejected e => Rejected e
       end).

Definition sheetsText (sheets : list (string * string)) : string :=
  foldl (λ fullText sheet,
           fullText +:+ "--- Sheet: " +:+ sheet.1 +:+ " ---" +:+ newline
             +:+ sheet.2 +:+ newline +:+ newline)
    EmptyString sheets.

Definition parseXlsx (file : File) : Settled string :=
  parseBuffer file "Failed to read the content of the .xlsx file."
    (λ arrayBuffer,
       match xlsx_sheets arrayBuffer with
       | Fulfilled sheets => Fulfilled (trim (sheetsText sheets))
       | Rejected e => Rejected e
       end).

(** [file.name.toLowerCase().split('.').pop()] *)
Definition fileExtension (file : File) : option string :=
  last (split "." (toLowerCase (name file))).

(** The branch [parseFile] takes. *)
Inductive Format := pdf | docx | pptx | xlsx | txt | fallback.

Definition format (file : File) : Format :=
  let fileExtension := fileExtension file in
  if bool_decide (type file = "application/pdf")
     || bool_decide (fileExtension = Some "pdf") then pdf
  else if bool_decide (type file =
            "application/vnd.openxmlformats-officedocument.wordprocessingml.document")
          || bool_decide (fileExtension = Some "docx") then docx
  else if bool_decide (type file =
            "application/vnd.openxmlformats-officedocument.presentationml.presentation")
          || bool_decide (fileExtension = Some "pptx") then pptx
  else if bool_decide (type file =
            "application/vnd.openxmlformats-officedocument.spreadsheetml.sheet")
          || bool_decide (fileExtension = Some "xlsx") then xlsx
  else if startsWith "text/" (type file)
          || bool_decide (fileExtension = Some "txt") then txt
  else fallback.

(** The value of the promise [parseFile] returns. *)
Record Parsed := {
  content : string;
  title : string;
}.

Definition parseFile (file : File) : Settled Parsed :=
  let content :=
    match format file with
    | pdf => parsePdf file
    | docx => parseDocx file
    | pptx => parsePptx file
    | xlsx => parseXlsx file
    | txt => parseTxt file
    | fallback =>
        match parseTxt file with
        | Fulfilled content => Fulfilled content
        | Rejected _ =>
            Rejected {| message :=
              "Unsupported file type. Please upload a .txt, .pdf, .docx, .pptx, or .xlsx file." |}
        end
    end in
  match content with
  | Fulfilled content =>
      Fulfilled {| content := content; title := stripExtension (name file) |}
  | Rejected e => Rejected e
  end.

(** The messages of the errors the service makes itself. *)
Definition failures : list string :=
  [ "Failed to read the content of the .docx file.";
    "Failed to read the content of the .pdf file.";
    "Failed to read the content of the .pptx file.";
    "Failed to read the content of the .xlsx file.";
    "Unsupported file type. Please upload a .txt, .pdf, .docx, .pptx, or .xlsx file." ].

End fileParserService.

(** ** The form that adds a source ([AddSourceForm] in
    [components/ChatView.tsx]) *)

Module AddSourceForm.

(** The three tabs of the form. *)
Module Tab.
Inductive t := text | url | file.
End Tab.

Record State := {
  sourceType : Tab.t;
  title : string;
  content : string;
  file : option fileParserService.File;
  isParsing : bool;
  error : option string;
}.

Definition mount : State :=
  {| sourceType := Tab.text; title := EmptyString; content := EmptyString;
     file := None; isParsing := false; error := None |}.

Definition resetForm (s : State) : State :=
  {| sourceType := sourceType s; title := EmptyString; content := EmptyString;
     file := None; isParsing := false; error := None |}.

Definition handleFileChange (selectedFile : option fileParserService.File)
    (s : State) : State :=
  match selectedFile with
  | Some selectedFile =>
      {| sourceType := sourceType s;
         title := stripExtension (fileParserService.name selectedFile);
         content := content s; file := Some selectedFile;
         isParsing := isParsing s; error := None |}
  | None => s
  end.

(** A call of [onAddSource]. *)
Record Added := {
  added_notebookId : string;
  added_title : string;
  added_content : string;
  added_type : SourceType.t;
}.

(** What [handleSubmit] is suspended on at its [await], with the title it
    closes over. *)
Inductive Suspended :=
| AwaitParseFile (title : string) (file : fileParserService.File)
| AwaitFetchUrlContent (title : string) (url : string).

Definition with_error (s : State) (error : option string) : State :=
  {| sourceType := sourceType s; title := title s; content := content s;
     file := file s; isParsing := isParsing s; error := error |}.

Definition with_isParsing (s : State) (isParsing : bool) : State :=
  {| sourceType := sourceType s; title := title s; content := content s;
     file := file s; isParsing := isParsing; error := error s |}.

Section Form.
Variable notebookId : string.

(** [handleSubmit] up to its [await], or to its end when it awaits
    nothing: the state, the call of [onAddSource] made, and what the
    handler waits for. *)
Definition handleSubmit (s : State) : State * option Added * option Suspended :=
  let s := with_error s None in
  match sourceType s with
  | Tab.file =>
      match file s with
      | None => (with_error s (Some "Please select a file to upload."), None, None)
      | Some f => (with_isParsing s true, None, Some (AwaitParseFile (title s) f))
      end
  | tab =>
      if negb (bool_decide (trim (title s) = EmptyString))
         && negb (bool_decide (trim (content s) = EmptyString))
      then
        match tab with
        | Tab.url =>
            (with_isParsing s true, None,
             Some (AwaitFetchUrlContent (title s) (content s)))
        | _ =>
            (resetForm s,
             Some {| added_notebookId := notebookId; added_title := title s;
                     added_content := content s; added_type := SourceType.text |},
             None)
        end
      else (s, None, None)
  end.

(** [err.message || fallback] *)
Definition message_or (err : Error) (fallback : string) : string :=
  if decide (message err = EmptyString) then fallback else message err.

(** [handleSubmit] from its [await] on, in the state [s] the form is in
    when the promise settles. *)
Definition resumeParseFile (title : string)
    (res : Settled fileParserService.Parsed) (s : State) : State * option Added :=
  match res with
  | Fulfilled parsed =>
      (resetForm s,
       Some {| added_notebookId := notebookId;
               added_title :=
                 if decide (title = EmptyString)
                 then fileParserService.title parsed else title;
               added_content := fileParserService.content parsed;
               added_type := SourceType.text |})
  | Rejected err =>
      (with_isParsing
         (with_error s
            (Some (message_or err
               "Failed to parse file. Please ensure it is a supported format.")))
         false,
       None)
  end.

Definition resumeFetchUrlContent (title : string)
    (res : Settled string) (s : State) : State * option Added :=
  match res with
  | Fulfilled fetchedContent =>
      (resetForm s,
       Some {| added_notebookId := notebookId; added_title := title;
               added_content := fetchedContent; added_type := SourceType.text |})
  | Rejected err =>
      (with_isParsing
         (with_error s
            (Some (message_or err
               "Failed to fetch from URL. It may be blocked due to security policies (CORS).")))
         false,
       None)
  end.

(** A submission carried through: the file is parsed by [parseFile], the
    URL is fetched with the outcome [fetched], and the form is not touched
    in between. *)
Definition submit (fetched : string → Settled string) (s : State)
  : State * option Added :=
  match handleSubmit s with
  | (s', added, None) => (s', added)
  | (s', _, Some (AwaitParseFile title f)) =>
      resumeParseFile title (fileParserService.parseFile f) s'
  | (s', _, Some (AwaitFetchUrlContent title url)) =>
      resumeFetchUrlContent title (fetched url) s'
  end.
End Form.

(** The [disabled] attribute of the submit button. *)
Definition submit_disabled (s : State) : bool :=
  isParsing s
  || bool_decide (trim (title s) = EmptyString)
  || match sourceType s with
     | Tab.file => match file s with None => true | Some _ => false end
     | _ => bool_decide (trim (content s) = EmptyString)
     end.

End AddSourceForm.

(** ** The editor that creates a notebook ([components/SourceEditor.tsx]) *)

Module SourceEditor.

(** [handleSave]: the title left in the field, and the call of [onSave]. *)
Definition handleSave (title : string) : string * option string :=
  if negb (bool_decide (trim title = EmptyString))
  then (EmptyString, Some title)
  else (title, None).

End SourceEditor.

(** ** Fetching a URL through the proxy ([fetchUrlContent] in the copy of
    [services/geminiService.ts] that has [generatePrompt]) *)

Module proxy.

(** [text.replace(/(\r\n|\n|\r)/gm, " ")] *)
Fixpoint replaceLineBreaks (s : string) : string :=
  match s with
  | EmptyString => EmptyString
  | String c s' =>
      if bool_decide (c = ascii_of_nat 13) then
        match s' with
        | String c' s'' =>
            if bool_decide (c' = ascii_of_nat 10)
            then String " " (replaceLineBreaks s'')
            else String " " (replaceLineBreaks s')
        | EmptyString => String " " EmptyString
        end
      else if bool_decide (c = ascii_of_nat 10) then String " " (replaceLineBreaks s')
      else String c (replaceLineBreaks s')
  end.

(** The white space read since the last other character: none, one
    character, or a run of two or more. *)
Inductive Run := NoRun | One (c : ascii) | Many.

Definition flush (r : Run) : string :=
  match r with
  | NoRun => EmptyString
  | One c => String c EmptyString
  | Many => " "
  end.

(** [text.replace(/\s\s+/g, ' ')]: every run of two or more white-space
    characters becomes one space; a single one is kept as it is. *)
Fixpoint collapse (r : Run) (s : string) : string :=
  match s with
  | EmptyString => flush r
  | String c s' =>
      if is_space c then
        collapse (match r with NoRun => One c | _ => Many end) s'
      else flush r +:+ String c (collapse NoRun s')
  end.

(** The clean-up [parseHtml] applies to the text of the document. *)
Definition cleanText (text : string) : string :=
  trim (collapse NoRun (replaceLineBreaks text)).

(** A [Response]: the status, the [content-type] header if there is one,
    and the outcome of reading the body as text and, through pdf.js, as
    the text items of the pages of a PDF. *)
Record Response := {
  ok : bool;
  status : Z;
  content_type : option string;
  text : Settled string;
  pdf_pages : Settled (list (list string));
}.

Section fetchUrlContent.
(** The text of the body of the parsed document once the elements that
    hold no content are removed ([doc.body?.textContent || ""]). *)
Variable textContent : string → string.

Definition parseHtml (html : string) : string := cleanText (textContent html).

(** The body of the [try] block, given the way [fetch] settled. *)
Definition attempt (fetched : Settled Response) : Settled string :=
  match fetched with
  | Rejected error => Rejected error
  | Fulfilled response =>
      if negb (ok response) then
        Rejected {| message :=
          "Failed to fetch from proxy with status: " +:+ pretty (status response)
            +:+ ". The requested URL might be down or blocking the proxy." |}
      else
        let contentType := default EmptyString (content_type response) in
        if includes "application/pdf" contentType then
          match pdf_pages response with
          | Fulfilled pages => Fulfilled (trim (fileParserService.pagesText pages))
          | Rejected error => Rejected error
          end
        else if includes "text/html" contentType then
          match text response with
          | Fulfilled html => Fulfilled (parseHtml html)
          | Rejected error => Rejected error
          end
        else if startsWith "text/" contentType then text response
        else
          match text response with
          | Rejected error => Rejected error
          | Fulfilled bodyText =>
              if startsWith "<!doctype html" (toLowerCase (trim bodyText))
                 || startsWith "<html" (toLowerCase (trim bodyText))
              then Fulfilled (parseHtml bodyText)
              else if negb (bool_decide (bodyText = EmptyString))
              then Fulfilled bodyText
              else
                Rejected {| message :=
                  "Unsupported or empty content from URL. Content-Type: "
                    +:+ (if decide (contentType = EmptyString)
                         then "Not specified" else contentType) |}
          end
  end.

Definition details : string :=
  "Could not fetch content from the URL. This might be due to a network issue, an invalid URL, or the content being blocked. Details: ".

(** The [catch] wraps whatever was thrown. *)
Definition fetchUrlContent (fetched : Settled Response) : Settled string :=
  match attempt fetched with
  | Fulfilled content => Fulfilled content
  | Rejected error => Rejected {| message := details +:+ message error |}
  end.
End fetchUrlContent.

End proxy.

(** White space in the sense of [\s], and strings without two white-space
    characters in a row. *)
Fixpoint single_spaced (s : string) : Prop :=
  match s with
  | String c ((String c' _) as s') =>
      ¬ (is_space c = true ∧ is_space c' = true) ∧ single_spaced s'
  | _ => True
  end.

(** ** The flashcard viewer ([FlashcardViewerModal] in
    [components/GeneratedContent.tsx]) *)

Module FlashcardViewerModal.

Record State := {
  currentIndex : nat;
  isFlipped : bool;
}.

Definition mount : State := {| currentIndex := 0; isFlipped := false |}.

Section Viewer.
Context {Flashcard : Type}.
Variable flashcards : list Flashcard.

Definition handleNext (s : State) : State :=
  if (Z.of_nat (currentIndex s) <? Z.of_nat (length flashcards) - 1)%Z
  then {| currentIndex := currentIndex s + 1; isFlipped := false |}
  else s.

Definition handlePrev (s : State) : State :=
  if (0 <? Z.of_nat (currentIndex s))%Z
  then {| currentIndex := currentIndex s - 1; isFlipped := false |}
  else s.

Definition flip (s : State) : State :=
  {| currentIndex := currentIndex s; isFlipped := negb (isFlipped s) |}.

(** [flashcards[currentIndex]] *)
Definition currentCard (s : State) : option Flashcard :=
  flashcards !! currentIndex s.

(** What the user can do in the viewer. *)
Inductive Event :=
| KeyDown (key : string)
| ClickCard
| ClickPrev
| ClickNext
| ClickClose.

(** The [disabled] attributes of the two arrows. *)
Definition prev_disabled (s : State) : bool :=
  bool_decide (currentIndex s = 0%nat).
Definition next_disabled (s : State) : bool :=
  bool_decide (Z.of_nat (currentIndex s) = Z.of_nat (length flashcards) - 1)%Z.

Definition is_flip_key (key : string) : bool :=
  bool_decide (key = " ") || bool_decide (key = "ArrowUp")
  || bool_decide (key = "ArrowDown").

(** What the modal has on the screen: the viewer in a state; nothing, once
    [onClose] has been called and it is unmounted; or nothing more, once a
    render has thrown. *)
Inductive View :=
| Showing (s : State)
| Closed
| Thrown.

(** A render in state [s].  It reads [currentCard.term] and
    [currentCard.definition], which throws a [TypeError] when
    [flashcards[currentIndex]] is [undefined]; the fields of a card are
    strings ([types.ts]) and are shown as text. *)
Definition render (s : State) : View :=
  match currentCard s with
  | Some _ => Showing s
  | None => Thrown
  end.

(** The first render, when the modal is shown. *)
Definition opened : View := render mount.

(** One event on the viewer shown in state [s], and the render that
    follows. *)
Definition step (e : Event) (s : State) : View :=
  match e with
  | KeyDown key =>
      let s := if bool_decide (key = "ArrowRight") then handleNext s else s in
      let s := if bool_decide (key = "ArrowLeft") then handlePrev s else s in
      let s := if is_flip_key key then flip s else s in
      if bool_decide (key = "Escape") then Closed else render s
  | ClickCard => render (flip s)
  | ClickPrev => render (if prev_disabled s then s else handlePrev s)
  | ClickNext => render (if next_disabled s then s else handleNext s)
  | ClickClose => Closed
  end.

(** Events reach the viewer only while it is shown. *)
Fixpoint run (es : list Event) (v : View) : View :=
  match es, v with
  | e :: es', Showing s => run es' (step e s)
  | _, _ => v
  end.
End Viewer.

End FlashcardViewerModal.

(** ** The quiz ([QuizComponent] in [components/GeneratedContent.tsx]) *)

Module QuizQuestion.
Record t := mk {
  question : string;
  options : list string;
  correctAnswer : string;
}.
End QuizQuestion.

Module QuizComponent.

Record State := {
  answers : gmap nat string;
  submitted : bool;
}.

Definition mount : State := {| answers := ∅; submitted := false |}.

Definition handleAnswer (qIndex : nat) (option : string) (s : State) : State :=
  if submitted s then s
  else {| answers := <[qIndex := option]> (answers s); submitted := submitted s |}.

Section Quiz.
Variable questions : list QuizQuestion.t.

(** The answer recorded under [qIndex] is the correct one. *)
Definition correct (qIndex : nat) (answer : string) : Prop :=
  QuizQuestion.correctAnswer <$> questions !! qIndex = Some answer.

#[global] Instance correct_dec qIndex answer : Decision (correct qIndex answer).
Proof. unfold correct. apply _. Defined.

(** [Object.keys(answers).reduce(...)]: the number of recorded answers
    that are correct.  Reading [questions[qIndex].correctAnswer] throws
    when [qIndex] is no index of [questions]. *)
Definition score (s : State) : option nat :=
  if decide (map_Forall (λ qIndex _, is_Some (questions !! qIndex)) (answers s))
  then Some (size (filter (λ kv, correct kv.1 kv.2) (answers s)))
  else None.

(** What the user can do: press the button of option [oIndex] of question
    [qIndex], which exists for the questions and options there are and is
    disabled once the quiz is submitted, or submit the quiz. *)
Inductive Event :=
| ClickOption (qIndex oIndex : nat)
| ClickSubmit.

Definition step (e : Event) (s : State) : State :=
  match e with
  | ClickOption qIndex oIndex =>
      match questions !! qIndex with
      | Some q =>
          match QuizQuestion.options q !! oIndex with
          | Some option => if submitted s then s else handleAnswer qIndex option s
          | None => s
          end
      | None => s
      end
  | ClickSubmit =>
      if submitted s then s else {| answers := answers s; submitted := true |}
  end.

Definition run (es : list Event) (s : State) : State :=
  foldl (λ s e, step e s) s es.
End Quiz.

End QuizComponent.

(** ** Saving a generated item and viewing it again *)

(** [GeneratedContent]: the content types whose rendering has a [Save]
    button. *)
Definition has_save_button (contentType : ContentType) : bool :=
  match contentType with
  | FLASHCARDS | QUIZ | PODCAST | MIND_MAP | DEBATE => true
  | _ => false
  end.

(** [SavedItemsList]: the types whose entry has a [View] button, and the
    types for which [renderViewingModal] has a viewer. *)
Definition has_view_button (type : ContentType) : bool :=
  bool_decide (type ∈ [FLASHCARDS; MIND_MAP]).

Definition has_viewer (type : ContentType) : bool :=
  match type with
  | FLASHCARDS | MIND_MAP => true
  | _ => false
  end.

(** The name of the member of the enumeration, which is its value. *)
Definition ContentType_toString (t : ContentType) : string :=
  match t with
  | TEXT => "TEXT" | QUIZ => "QUIZ" | FLASHCARDS => "FLASHCARDS"
  | PODCAST => "PODCAST" | ERROR => "ERROR" | SUMMARY => "SUMMARY"
  | FAQ => "FAQ" | TIMELINE => "TIMELINE" | IDEAS => "IDEAS"
  | CRITIQUE => "CRITIQUE" | MIND_MAP => "MIND_MAP" | DEBATE => "DEBATE"
  end.

(** The [onSaveItem] that [ChatView] passes to [GeneratedContent]: the
    title suggested to [window.prompt], and the call of [onSaveItem] of
    [App] made when the prompt is answered ([None] when it is
    dismissed). *)
Definition suggestedTitle (type : ContentType) : string :=
  "Saved " +:+ toLowerCase (ContentType_toString type).

Definition onSaveItem (notebookId : string) (type : ContentType)
    (contentData : JSON) (answer : option string) : option (string * ItemData) :=
  match answer with
  | Some title =>
      if decide (title = EmptyString) then None
      else Some (notebookId,
                 {| itemData_type := type; itemData_contentData := contentData;
                    itemData_title := title |})
  | None => None
  end.

(** What the viewer shows, if anything, is a card of the deck. *)
Definition viewer_inv {Flashcard} (flashcards : list Flashcard)
    (v : FlashcardViewerModal.View) : Prop :=
  match v with
  | FlashcardViewerModal.Showing s =>
      (FlashcardViewerModal.currentIndex s < length flashcards)%nat
  | FlashcardViewerModal.Closed => True
  | FlashcardViewerModal.Thrown => False
  end.

(** Every recorded answer of the quiz is an option of its question. *)
Definition quiz_inv (questions : list QuizQuestion.t)
    (s : QuizComponent.State) : Prop :=
  ∀ qIndex answer,
    QuizComponent.answers s !! qIndex = Some answer →
    ∃ q, questions !! qIndex = Some q ∧ answer ∈ QuizQuestion.options q.

(** A question that can be answered correctly: its correct answer is one
    of its options. *)
Definition answerable (q : QuizQuestion.t) : Prop :=
  QuizQuestion.correctAnswer q ∈ QuizQuestion.options q.

(** The props [App] passes to the chat view of the active notebook. *)
Definition chatViewProps (s : Store) (activeNotebook : Notebook.t) : ChatView.Props :=
  {| ChatView.notebook := activeNotebook; ChatView.isLoading := isLoading s |}.

(** A run in which the open menu of a view outlives the sources of its
    notebook.  With two notebooks and the first one open, the form starts
    to read a file: its handler is the one of that render.  The second
    notebook is opened and given a source, and the menu of its view is
    opened.  Then the file has been read, and the handler of the earlier
    render writes back the notebooks of that render, in which the second
    notebook has no source. *)
Definition example_two_notebooks : System :=
  steps (svc := geminiService.service)
    [ CreateNotebook 1 example_createdAt "Notes";
      CreateNotebook 2 example_createdAt "Other";
      SelectNotebook (notebook_id 1) ]
    (boot initialStore).

Definition example_second_opened : System :=
  steps (svc := geminiService.service)
    [ SelectNotebook (notebook_id 2);
      AddSource None 1700000000000 (notebook_id 2) "Doc"
        "Paris is the capital of France." SourceType.text ]
    example_two_notebooks.

Definition example_file_read : System :=
  step (svc := geminiService.service)
    (AddSource (Some (store example_two_notebooks)) 1700000000050 (notebook_id 1)
       "notes" "Rome is the capital of Italy." SourceType.text)
    example_second_opened.

Definition example_second_notebook : Notebook.t :=
  Notebook.mk (notebook_id 2) "Other" [] example_createdAt (Some []).

(** ** The text of a mind map ([mindMapToText] in
    [components/GeneratedContent.tsx]) *)

(** A [MindMapNode]: a topic and, optionally, children. *)
#[warnings="-register-all"]
Inductive MindMapNode :=
| Node (topic : string) (children : option (list MindMapNode)).

Definition topic (node : MindMapNode) : string :=
  match node with Node topic _ => topic end.

(** ['  '.repeat(indent)] *)
Fixpoint spaces (indent : nat) : string :=
  match indent with
  | O => EmptyString
  | S n => "  " +:+ spaces n
  end.

Fixpoint mindMapToText (node : MindMapNode) (indent : nat) : string :=
  match node with
  | Node topic children =>
      let text := spaces indent +:+ "- " +:+ topic +:+ newline in
      match children with
      | Some children =>
          foldl (λ text child, text +:+ mindMapToText child (indent + 1)) text children
      | None => text
      end
  end.

(** The nodes of a mind map, each with its depth, parents before
    children and children in their order. *)
Fixpoint outline (node : MindMapNode) (depth : nat) : list (nat * string) :=
  match node with
  | Node topic children =>
      (depth, topic)
        :: match children with
           | Some children => flat_map (λ child, outline child (depth + 1)) children
           | None => []
           end
  end.

(** The line of the text for a node. *)
Definition outline_line (entry : nat * string) : string :=
  spaces entry.1 +:+ "- " +:+ entry.2 +:+ newline.

(** The number of occurrences of a character. *)
Fixpoint count_char (c : ascii) (s : string) : nat :=
  match s with
  | EmptyString => 0
  | String c' s' => (if decide (c' = c) then 1 else 0) + count_char c s'
  end.

(** ** The CSV of the flashcards ([flashcardsToCsv] in
    [components/GeneratedContent.tsx]) *)

Module Flashcard.
Record t := mk {
  id : string;
  term : string;
  definition : string;
}.
End Flashcard.

(** The [replace] that doubles every double quote of a field. *)
Fixpoint doubleQuotes (s : string) : string :=
  match s with
  | EmptyString => EmptyString
  | String c s' =>
      if decide (c = dquote) then String dquote (String dquote (doubleQuotes s'))
      else String c (doubleQuotes s')
  end.

Definition csvRow (term definition : string) : string :=
  String dquote (doubleQuotes term) +:+ String dquote (String "," (String dquote
    (doubleQuotes definition))) +:+ String dquote EmptyString.

Definition flashcardsToCsv (flashcards : list Flashcard.t) : string :=
  let header := csvRow "term" "definition" +:+ newline in
  let rows :=
    join newline
      (map (λ fc, csvRow (Flashcard.term fc) (Flashcard.definition fc)) flashcards) in
  header +:+ rows.

(** A reader of such files, to state what the file holds: a quoted field
    runs to the first quote that is not doubled, and a doubled quote in it
    stands for one quote. *)
Fixpoint readField (s : string) : option (string * string) :=
  match s with
  | EmptyString => None
  | String c s' =>
      if decide (c = dquote) then
        match s' with
        | String c' s'' =>
            if decide (c' = dquote) then
              match readField s'' with
              | Some (field, rest) => Some (String dquote field, rest)
              | None => None
              end
            else Some (EmptyString, s')
        | EmptyString => Some (EmptyString, EmptyString)
        end
      else
        match readField s' with
        | Some (field, rest) => Some (String c field, rest)
        | None => None
        end
  end.

(** A row of two quoted fields, and what follows it. *)
Definition readRow (s : string) : option (string * string * string) :=
  match s with
  | String c s1 =>
      if decide (c = dquote) then
        match readField s1 with
        | Some (first, String c1 (String c2 s2)) =>
            if decide (c1 = ","%char) then
              if decide (c2 = dquote) then
                match readField s2 with
                | Some (second, rest) => Some (first, second, rest)
                | None => None
                end
              else None
            else None
        | _ => None
        end
      else None
  | EmptyString => None
  end.

(** The rows of a file, one on each line; [fuel] bounds their number. *)
Fixpoint readRows (fuel : nat) (s : string) : option (list (string * string)) :=
  match fuel with
  | O => None
  | S fuel =>
      match s with
      | EmptyString => Some []
      | _ =>
          match readRow s with
          | Some (first, second, EmptyString) => Some [(first, second)]
          | Some (first, second, String c rest) =>
              if decide (c = ascii_of_nat 10) then
                match readRows fuel rest with
                | Some rows => Some ((first, second) :: rows)
                | None => None
                end
              else None
          | None => None
          end
      end
  end.

(** * Properties *)

(** ** Identifiers *)

Lemma map_fmap {A B} (f : A → B) (l : list A) : map f l = f <$> l.
Proof. reflexivity. Qed.

(** Read every [map] as the [<$>] the list lemmas are stated with. *)
Ltac to_fmap :=
  repeat match goal with
         | |- context [map ?f ?l] => change (map f l) with (f <$> l)
         | H : context [map ?f ?l] |- _ => change (map f l) with (f <$> l) in H
         end.

Lemma prefixed_id_inj (prefix : string) (a b : Z) :
  prefix +:+ pretty a = prefix +:+ pretty b → a = b.
Proof. intros H. apply String.app_inj in H. by apply (inj pretty). Qed.

Lemma source_id_inj : Inj (=) (=) source_id.
Proof. intros a b. apply prefixed_id_inj. Qed.

Lemma saved_id_inj : Inj (=) (=) saved_id.
Proof. intros a b. apply prefixed_id_inj. Qed.

(** ** The store *)

Lemma run_cons c cmds s : run (c :: cmds) s = run cmds (exec c s).
Proof. reflexivity. Qed.

Lemma run_app cmds1 cmds2 s : run (cmds1 ++ cmds2) s = run cmds2 (run cmds1 s).
Proof. apply foldl_app. Qed.

Lemma same_but_notebooks_refl s : same_but_notebooks s s.
Proof. by repeat split. Qed.

Lemma same_but_notebooks_trans s1 s2 s3 :
  same_but_notebooks s1 s2 → same_but_notebooks s2 s3 → same_but_notebooks s1 s3.
Proof.
  intros (?&?&?&?&?) (?&?&?&?&?). repeat split; congruence.
Qed.

Lemma exec_setNotebooks a s : same_but_notebooks s (exec (setNotebooks a) s).
Proof. by repeat split. Qed.

Lemma update_notebook_lookup id f l i n :
  l !! i = Some n →
  update_notebook id f l !! i =
    Some (if decide (Notebook.id n = id) then f n else n).
Proof.
  intros H. unfold update_notebook. rewrite map_fmap, list_lookup_fmap, H. done.
Qed.

Lemma update_notebook_compose id f g l :
  (∀ n, Notebook.id (f n) = Notebook.id n) →
  update_notebook id g (update_notebook id f l) = update_notebook id (g ∘ f) l.
Proof.
  intros Hid. unfold update_notebook. rewrite map_map. apply map_ext. intros n.
  destruct (decide (Notebook.id n = id)) as [E|E].
  - rewrite Hid, decide_True by done. done.
  - by rewrite decide_False.
Qed.

Lemma update_notebook_ext id f g l :
  (∀ n, n ∈ l → Notebook.id n = id → f n = g n) →
  update_notebook id f l = update_notebook id g l.
Proof.
  intros H. unfold update_notebook. apply map_ext_in. intros n Hn.
  case_decide; [|done]. apply H; [|done]. by apply list_elem_of_In.
Qed.

Lemma update_notebook_id id l : update_notebook id (λ n, n) l = l.
Proof.
  unfold update_notebook. rewrite <- (map_id l) at 2. apply map_ext.
  intros n. by case_decide.
Qed.

(** ** Deleting a notebook *)

(** C10.  Deleting the active notebook moves the active pointer to the
    first notebook that remains, or to null when none remains, and the
    effect of the render that follows leaves it there; deleting any other
    notebook leaves the pointer where it is.  The deleted notebook leaves
    the list, and its log leaves the chat history. *)
Theorem delete_notebook_active_pointer (r : Store) (id : string) :
  let remaining := filter (λ n, Notebook.id n ≠ id) (notebooks r) in
  let r' := run (handleDeleteNotebook r id) r in
  activeNotebookId r' =
    (if decide (activeNotebookId r = Some id)
     then Notebook.id <$> head remaining
     else activeNotebookId r)
  ∧ (activeNotebookId r = Some id →
     activeNotebookId (commit (handleDeleteNotebook r id) r) =
       Notebook.id <$> head remaining)
  ∧ notebooks r' = remaining
  ∧ chatHistory r' = delete id (chatHistory r).
Proof.
  intros remaining r'. subst r'. unfold commit, handleDeleteNotebook.
  fold remaining. rewrite run_app.
  destruct (decide (activeNotebookId r = Some id)) as [E|E]; simpl.
  - split; [by destruct remaining|]. split; [|done]. intros _.
    unfold selectFirstNotebook. simpl. destruct remaining as [|n rest]; [done|].
    simpl. by destruct (bool_decide (Notebook.id n = EmptyString)).
  - done.
Qed.

(** C10 on three notebooks, the second active and deleted: the first
    becomes active. *)
Lemma delete_notebook_active_pointer_witness :
  activeNotebookId (commit (handleDeleteNotebook example_three (notebook_id 2)) example_three)
    = Some (notebook_id 1).
Proof.
  exact (proj1 (proj2 (delete_notebook_active_pointer example_three (notebook_id 2)))
           eq_refl).
Defined.

(** ** The source registry *)

Lemma addSources_cons notebookId c cs s :
  addSources notebookId (c :: cs) s =
    addSources notebookId cs
      (run (handleAddSourceToNotebook s (add_now c) notebookId
              (add_title c) (add_content c) (add_type c)) s).
Proof. reflexivity. Qed.

Lemma with_sources_id n v : Notebook.id (Notebook.with_sources n v) = Notebook.id n.
Proof. reflexivity. Qed.

(** A sequence of [addSource] calls in closed form. *)
Lemma addSources_notebooks notebookId cs s :
  notebooks (addSources notebookId cs s) =
    update_notebook notebookId
      (λ n, Notebook.with_sources n (Notebook.sources n ++ map new_source cs))
      (notebooks s)
  ∧ same_but_notebooks s (addSources notebookId cs s).
Proof.
  revert s. induction cs as [|c cs IH]; intros s.
  - split; [|apply same_but_notebooks_refl]. simpl.
    etrans; [symmetry; apply (update_notebook_id notebookId)|].
    apply update_notebook_ext. intros [] _ _. simpl. by rewrite app_nil_r.
  - rewrite addSources_cons.
    destruct (IH (run (handleAddSourceToNotebook s (add_now c) notebookId
                        (add_title c) (add_content c) (add_type c)) s)) as [IH1 IH2].
    split.
    + rewrite IH1. simpl.
      change (map ?f (notebooks s)) with
        (update_notebook notebookId
           (λ n, Notebook.with_sources n (Notebook.sources n ++ [new_source c]))
           (notebooks s)).
      rewrite update_notebook_compose by done.
      apply update_notebook_ext. intros [] _ _. simpl.
      by rewrite <- app_assoc.
    + eapply same_but_notebooks_trans; [|exact IH2]. apply exec_setNotebooks.
Qed.

(** C5, as the code has it.  For every sequence of [addSource] calls on a
    notebook, each made from the render that follows the previous call: the
    notebook's sources are the ones it had, in their order, followed by one
    new source for each call, in call order, the source of a call carrying
    the id [source_<clock reading>]; no other notebook and nothing else in
    the store changes; and when the clock readings of the calls are
    pairwise distinct and differ from those behind the ids already there,
    every source id is unique within the notebook. *)
Theorem addSources_appends_in_call_order
    (s : Store) (notebookId : string) (cs : list AddSourceCall)
    (i : nat) (n : Notebook.t) :
  notebooks s !! i = Some n →
  Notebook.id n = notebookId →
  let s' := addSources notebookId cs s in
  notebooks s' !! i =
    Some (Notebook.with_sources n (Notebook.sources n ++ map new_source cs))
  ∧ length (Notebook.sources n ++ map new_source cs) =
      (length (Notebook.sources n) + length cs)%nat
  ∧ map Source.id (map new_source cs) = map (λ c, source_id (add_now c)) cs
  ∧ (∀ j m, notebooks s !! j = Some m → Notebook.id m ≠ notebookId →
            notebooks s' !! j = Some m)
  ∧ length (notebooks s') = length (notebooks s)
  ∧ same_but_notebooks s s'
  ∧ (NoDup (map add_now cs) →
     NoDup (map Source.id (Notebook.sources n)) →
     (∀ c, c ∈ cs → source_id (add_now c) ∉ map Source.id (Notebook.sources n)) →
     NoDup (map Source.id (Notebook.sources n ++ map new_source cs))).
Proof.
  intros Hi Hid s'. subst s'.
  destruct (addSources_notebooks notebookId cs s) as [Hn Hs].
  rewrite Hn. repeat split.
  - rewrite (update_notebook_lookup _ _ _ _ _ Hi). by rewrite decide_True.
  - by rewrite length_app, length_map.
  - by rewrite map_map.
  - intros j m Hj Hm. rewrite (update_notebook_lookup _ _ _ _ _ Hj).
    by rewrite decide_False.
  - unfold update_notebook. by rewrite length_map.
  - apply Hs.
  - apply Hs.
  - apply Hs.
  - apply Hs.
  - apply Hs.
  - intros Hnow Hold Hfresh.
    rewrite map_app, map_map. apply NoDup_app. split; [done|]. split.
    + intros x Hx Hx'. to_fmap.
      apply list_elem_of_fmap in Hx' as (c & -> & Hc). by apply (Hfresh c).
    + rewrite <- (map_map add_now source_id). to_fmap.
      by apply (NoDup_fmap_2 source_id).
Qed.

(** ** The saved-items library *)

Lemma filter_absent (itemId : string) (items : list SavedItem.t) :
  itemId ∉ map SavedItem.id items →
  filter (λ item, SavedItem.id item ≠ itemId) items = items.
Proof.
  induction items as [|x items IH]; [done|]. simpl. intros H.
  apply not_elem_of_cons in H as [H1 H2].
  rewrite filter_cons_True by done. by rewrite IH.
Qed.

Lemma filter_present_length (itemId : string) (items : list SavedItem.t) :
  NoDup (map SavedItem.id items) →
  itemId ∈ map SavedItem.id items →
  S (length (filter (λ item, SavedItem.id item ≠ itemId) items)) = length items.
Proof.
  induction items as [|x items IH]; simpl; intros Hnd Hin.
  - by apply elem_of_nil in Hin.
  - apply NoDup_cons in Hnd as [Hx Hnd].
    destruct (decide (SavedItem.id x = itemId)) as [E|E].
    + rewrite filter_cons_False by (intros ?; done).
      rewrite filter_absent; [done|]. by rewrite <- E.
    + rewrite filter_cons_True by done. simpl. f_equal.
      apply IH; [done|]. apply elem_of_cons in Hin as [?|?]; [congruence|done].
Qed.

Lemma filter_ids_subseteq (itemId : string) (items : list SavedItem.t) :
  map SavedItem.id (filter (λ item, SavedItem.id item ≠ itemId) items)
    ⊆ map SavedItem.id items.
Proof.
  intros x Hx. to_fmap. apply list_elem_of_fmap in Hx as (y & -> & Hy).
  apply list_elem_of_filter in Hy as [_ Hy]. by apply list_elem_of_fmap_2.
Qed.

Lemma filter_ids_NoDup (itemId : string) (items : list SavedItem.t) :
  NoDup (map SavedItem.id items) →
  NoDup (map SavedItem.id (filter (λ item, SavedItem.id item ≠ itemId) items)).
Proof.
  induction items as [|x items IH]; simpl; [done|]. intros Hnd.
  apply NoDup_cons in Hnd as [Hx Hnd].
  destruct (decide (SavedItem.id x ≠ itemId)).
  - rewrite filter_cons_True by done. simpl. apply NoDup_cons. split; [|by apply IH].
    intros Hin. by apply filter_ids_subseteq in Hin.
  - rewrite filter_cons_False by done. by apply IH.
Qed.

(** Every item of the collection carries the id of its notebook, whatever
    the calls. *)
Lemma library_owner (notebookId : string) (cs : list LibraryCall) (items : list SavedItem.t) :
  Forall (λ item, SavedItem.notebookId item = notebookId) items →
  Forall (λ item, SavedItem.notebookId item = notebookId)
    (foldl (library_step notebookId) items cs).
Proof.
  revert items. induction cs as [|c cs IH]; intros items H; [done|].
  simpl. apply IH. destruct c as [now createdAt itemData|itemId]; simpl.
  - apply Forall_app. split; [done|]. by apply Forall_singleton.
  - apply Forall_forall. intros x Hx. apply list_elem_of_filter in Hx as [_ Hx].
    revert x Hx. by apply Forall_forall.
Qed.

(** With ids that never repeat, a matching delete removes one item. *)
Lemma library_count (notebookId : string) (cs : list LibraryCall) (items : list SavedItem.t) :
  NoDup (map SavedItem.id items) →
  NoDup (save_times cs) →
  (∀ t, t ∈ save_times cs → saved_id t ∉ map SavedItem.id items) →
  (length (foldl (library_step notebookId) items cs)
     + matching_deletes notebookId items cs = length items + saves cs)%nat.
Proof.
  revert items. induction cs as [|c cs IH]; intros items Hids Hts Hfresh.
  - simpl. unfold saves. simpl. lia.
  - destruct c as [now createdAt itemData|itemId].
    + unfold saves in *. simpl in Hts, Hfresh |- *.
      apply NoDup_cons in Hts as [Hnow Hts].
      rewrite IH; [rewrite length_app; simpl; lia| | done |].
      * rewrite map_app. simpl. apply NoDup_app. split; [done|]. split.
        -- intros x Hx Hx'. apply list_elem_of_singleton in Hx'. subst x.
           apply (Hfresh now); [left|done].
        -- apply NoDup_singleton.
      * intros t Ht. rewrite map_app. simpl. intros Hin.
        apply elem_of_app in Hin as [Hin|Hin].
        -- apply (Hfresh t); [by right|done].
        -- apply list_elem_of_singleton in Hin. apply saved_id_inj in Hin.
           by subst t.
    + unfold saves in *. simpl in Hts, Hfresh |- *.
      assert (length (foldl (library_step notebookId)
                        (filter (λ item, SavedItem.id item ≠ itemId) items) cs)
                + matching_deletes notebookId
                    (filter (λ item, SavedItem.id item ≠ itemId) items) cs
              = length (filter (λ item, SavedItem.id item ≠ itemId) items)
                + length (save_times cs))%nat as IH'.
      { apply IH; [by apply filter_ids_NoDup|done|].
        intros t Ht Hin'. apply (Hfresh t Ht). by apply filter_ids_subseteq in Hin'. }
      destruct (decide (itemId ∈ map SavedItem.id items)) as [Hin|Hin].
      * pose proof (filter_present_length itemId items Hids Hin) as Hlen. lia.
      * rewrite filter_absent in IH' |- * by done. lia.
Qed.

Lemma with_savedItems_or_empty n v :
  Notebook.savedItems_or_empty (Notebook.with_savedItems n v) = v.
Proof. reflexivity. Qed.

Lemma library_cmds_notebooks notebookId c s :
  notebooks (run (library_cmds notebookId c) s) =
    update_notebook notebookId
      (λ n, Notebook.with_savedItems n
              (library_step notebookId (Notebook.savedItems_or_empty n) c))
      (notebooks s)
  ∧ same_but_notebooks s (run (library_cmds notebookId c) s).
Proof. destruct c; split; try done; apply exec_setNotebooks. Qed.

(** The notebook in place [i] after a sequence of library calls. *)
Lemma libraryCalls_lookup notebookId cs s i n :
  notebooks s !! i = Some n →
  Notebook.id n = notebookId →
  ∃ n', notebooks (libraryCalls notebookId cs s) !! i = Some n'
    ∧ Notebook.id n' = Notebook.id n
    ∧ Notebook.title n' = Notebook.title n
    ∧ Notebook.sources n' = Notebook.sources n
    ∧ Notebook.createdAt n' = Notebook.createdAt n
    ∧ Notebook.savedItems_or_empty n' =
        foldl (library_step notebookId) (Notebook.savedItems_or_empty n) cs.
Proof.
  revert s n. induction cs as [|c cs IH]; intros s n Hi Hid.
  - exists n. by repeat split.
  - unfold libraryCalls. simpl. fold (libraryCalls notebookId cs).
    destruct (library_cmds_notebooks notebookId c s) as [Hn _].
    edestruct (IH (run (library_cmds notebookId c) s)) as (n' & H1 & H2 & H3 & H4 & H5 & H6).
    + rewrite Hn. rewrite (update_notebook_lookup _ _ _ _ _ Hi).
      by rewrite decide_True.
    + done.
    + exists n'. by repeat split.
Qed.

Lemma filter_removes (itemId : string) (items : list SavedItem.t) :
  itemId ∉ map SavedItem.id (filter (λ item, SavedItem.id item ≠ itemId) items).
Proof.
  intros Hin. to_fmap. apply list_elem_of_fmap in Hin as (y & Hy & Hin).
  apply list_elem_of_filter in Hin as [Hne _]. by apply Hne.
Qed.

(** C6, as the code has it.  For every notebook and every interleaving of
    save and delete calls on its saved-items library, started empty: every
    item that remains carries the id of the notebook; and when the clock
    readings of the save calls are pairwise distinct, the number of items
    that remain is the number of save calls minus the number of delete
    calls that found their item. *)
Theorem saved_items_count_and_owner
    (s : Store) (notebookId : string) (cs : list LibraryCall)
    (i : nat) (n : Notebook.t) :
  notebooks s !! i = Some n →
  Notebook.id n = notebookId →
  Notebook.savedItems_or_empty n = [] →
  ∃ n', notebooks (libraryCalls notebookId cs s) !! i = Some n'
    ∧ Notebook.id n' = notebookId
    ∧ Forall (λ item, SavedItem.notebookId item = Notebook.id n')
        (Notebook.savedItems_or_empty n')
    ∧ (NoDup (save_times cs) →
       length (Notebook.savedItems_or_empty n') =
         (saves cs - matching_deletes notebookId [] cs)%nat
       ∧ (matching_deletes notebookId [] cs ≤ saves cs)%nat).
Proof.
  intros Hi Hid Hempty.
  destruct (libraryCalls_lookup notebookId cs s i n Hi Hid)
    as (n' & H1 & H2 & _ & _ & _ & H6).
  rewrite Hempty in H6. exists n'. split; [done|]. split; [congruence|]. split.
  - rewrite H6, H2, Hid. by apply library_owner.
  - intros Hts. rewrite H6.
    pose proof (library_count notebookId cs [] (NoDup_nil_2) Hts) as Hc.
    simpl in Hc. lapply Hc; [lia|]. intros t _ Hin. by apply elem_of_nil in Hin.
Qed.

(** C9.  Deleting a saved item by an id that is absent from the notebook's
    collection leaves every collection as it was, changes nothing else in
    the store and cannot fail (the notebook's collection [n.savedItems || []]
    is written back as it is); and deleting the same id twice is deleting
    it once. *)
Theorem delete_absent_saved_item (s : Store) (notebookId itemId : string) :
  let s' := run (handleDeleteSavedItem notebookId itemId) s in
  ((∀ n, n ∈ notebooks s → Notebook.id n = notebookId →
         itemId ∉ map SavedItem.id (Notebook.savedItems_or_empty n)) →
   map Notebook.savedItems_or_empty (notebooks s') =
     map Notebook.savedItems_or_empty (notebooks s)
   ∧ notebooks s' =
       update_notebook notebookId
         (λ n, Notebook.with_savedItems n (Notebook.savedItems_or_empty n))
         (notebooks s)
   ∧ same_but_notebooks s s')
  ∧ run (handleDeleteSavedItem notebookId itemId) s' = s'.
Proof.
  intros s'. subst s'. split.
  - intros Habsent.
    assert (notebooks (run (handleDeleteSavedItem notebookId itemId) s) =
              update_notebook notebookId
                (λ n, Notebook.with_savedItems n (Notebook.savedItems_or_empty n))
                (notebooks s)) as Hn.
    { simpl. apply update_notebook_ext. intros n Hn Hid.
      by rewrite filter_absent by by apply Habsent. }
    split; [|split; [done|apply exec_setNotebooks]].
    rewrite Hn. unfold update_notebook. rewrite map_map. apply map_ext.
    intros n. by case_decide.
  - destruct s as [nbs a h l c d]. unfold run. simpl. f_equal.
    change (map ?f (map ?g nbs)) with
      (update_notebook notebookId
         (λ n, Notebook.with_savedItems n
                 (filter (λ item, SavedItem.id item ≠ itemId)
                    (Notebook.savedItems_or_empty n)))
         (update_notebook notebookId
            (λ n, Notebook.with_savedItems n
                    (filter (λ item, SavedItem.id item ≠ itemId)
                       (Notebook.savedItems_or_empty n))) nbs)).
    rewrite update_notebook_compose by done.
    apply update_notebook_ext. intros n _ _. simpl.
    unfold Notebook.with_savedItems. simpl. f_equal. f_equal.
    apply filter_absent, filter_removes.
Qed.

(** *** The handlers on the example store *)

(** C5 at two calls with different clock readings. *)
Lemma addSources_appends_in_call_order_witness :
  notebooks (addSources (notebook_id 1) example_adds example_store) !! 0%nat =
    Some (Notebook.with_sources example_notebook (map new_source example_adds))
  ∧ NoDup (map Source.id (map new_source example_adds)).
Proof.
  destruct (addSources_appends_in_call_order example_store (notebook_id 1)
              example_adds 0 example_notebook eq_refl eq_refl)
    as (H1 & _ & _ & _ & _ & _ & H6).
  split; [exact H1|].
  apply H6; [by compute_done|constructor|].
  intros c _ Hin. by apply elem_of_nil in Hin.
Defined.

(** C5 fails when two calls read the same clock value: both sources get
    the id of that reading. *)
Lemma addSources_same_reading_duplicate_ids :
  ∃ n', notebooks (addSources (notebook_id 1) example_adds_same_reading example_store)
          !! 0%nat = Some n'
    ∧ map Source.id (Notebook.sources n') = ["source_1700000000000"; "source_1700000000000"]
    ∧ ¬ NoDup (map Source.id (Notebook.sources n')).
Proof.
  eexists. split; [reflexivity|]. split; [by vm_compute|].
  vm_compute. intros H. apply NoDup_cons in H as [H _]. apply H. by left.
Qed.

(** The hypothesis of C5 on the render is needed: a call made from an
    earlier render (the form had awaited a file or a URL) writes that
    render's notebooks back, and the source added meanwhile is gone. *)
Lemma addSource_from_earlier_render_overwrites :
  let current := addSources (notebook_id 1) (take 1 example_adds) example_store in
  let late :=
    run (handleAddSourceToNotebook example_store 1700000000001 (notebook_id 1)
           "Site" "https://example.com" SourceType.text) current in
  map Source.title (flat_map Notebook.sources (notebooks current)) = ["Doc"]
  ∧ map Source.title (flat_map Notebook.sources (notebooks late)) = ["Site"].
Proof. by vm_compute. Qed.

(** C6 at two saves with different clock readings and one matching
    delete: one item remains. *)
Lemma saved_items_count_and_owner_witness :
  ∃ n', notebooks (libraryCalls (notebook_id 1) example_library_calls example_store)
          !! 0%nat = Some n'
    ∧ length (Notebook.savedItems_or_empty n') = 1%nat
    ∧ Forall (λ item, SavedItem.notebookId item = notebook_id 1)
        (Notebook.savedItems_or_empty n').
Proof.
  destruct (saved_items_count_and_owner example_store (notebook_id 1)
              example_library_calls 0 example_notebook eq_refl eq_refl eq_refl)
    as (n' & H1 & H2 & H3 & H4).
  exists n'. split; [exact H1|]. split.
  - destruct H4 as [H4 _]; [by compute_done|]. rewrite H4. by vm_compute.
  - by rewrite <- H2.
Defined.

(** C6 fails when two saves read the same clock value: the two items share
    an id and one delete removes both, so two saves and one matching delete
    leave no item. *)
Lemma saved_items_same_reading_count :
  ∃ n', notebooks (libraryCalls (notebook_id 1) example_library_calls_same_reading
                     example_store) !! 0%nat = Some n'
    ∧ saves example_library_calls_same_reading = 2%nat
    ∧ matching_deletes (notebook_id 1) [] example_library_calls_same_reading = 1%nat
    ∧ length (Notebook.savedItems_or_empty n') = 0%nat.
Proof.
  eexists. split; [reflexivity|]. by vm_compute.
Qed.

(** C9 on the example store with its saved summary: the id of another
    clock reading is deleted, and the summary is still the one item of the
    collection. *)
Lemma delete_absent_saved_item_witness :
  map Notebook.savedItems_or_empty (notebooks example_store_with_item) =
    [[example_saved_item]]
  ∧ map Notebook.savedItems_or_empty
      (notebooks (run (handleDeleteSavedItem (notebook_id 1) (saved_id 5))
                    example_store_with_item)) =
      [[example_saved_item]]
  ∧ same_but_notebooks example_store_with_item
      (run (handleDeleteSavedItem (notebook_id 1) (saved_id 5)) example_store_with_item)
  ∧ run (handleDeleteSavedItem (notebook_id 1) (saved_id 5))
      (run (handleDeleteSavedItem (notebook_id 1) (saved_id 5)) example_store_with_item) =
    run (handleDeleteSavedItem (notebook_id 1) (saved_id 5)) example_store_with_item.
Proof.
  destruct (delete_absent_saved_item example_store_with_item (notebook_id 1) (saved_id 5))
    as [H1 H2].
  split; [reflexivity|].
  destruct H1 as (Hsame & _ & Hrest).
  { intros n Hn _. apply list_elem_of_singleton in Hn. subst n. compute_done. }
  split; [|split; [exact Hrest|exact H2]].
  rewrite Hsame. reflexivity.
Defined.

(** ** The orchestrator *)

Lemma chatHistory_updateChat id m s :
  chatHistory (exec (updateChat id m) s) =
    <[id := default [] (chatHistory s !! id) ++ [m]]> (chatHistory s).
Proof. reflexivity. Qed.

(** What the [try] block leaves in the store, whichever way it ends: one
    message more in the log of the notebook, and the busy flag cleared. *)
Lemma run_settle id response clock s :
  let m := match response with
           | Fulfilled response => response
           | Rejected _ => errorMessage (clock 0%nat)
           end in
  run (settle id response clock) s =
    {| notebooks := notebooks s; activeNotebookId := activeNotebookId s;
       chatHistory := <[id := default [] (chatHistory s !! id) ++ [m]]> (chatHistory s);
       isLoading := false; isCreatingNotebook := isCreatingNotebook s;
       isDarkMode := isDarkMode s |}.
Proof. by destruct response. Qed.

Section Orchestrator.
Context {svc : GeminiService}.

Lemma handleSendMessage_rejected r clock message type :
  activeNotebook r = None ∨ isLoading r = true ↔
  handleSendMessage r clock message type = ([], None).
Proof.
  unfold handleSendMessage. split.
  - intros [->| ->]; [done|]. by destruct (activeNotebook r).
  - destruct (activeNotebook r); [|by left].
    destruct (isLoading r); [by right|done].
Qed.

Lemma handleSendMessage_accepted r clock message type nb :
  activeNotebook r = Some nb →
  isLoading r = false →
  let generation :=
    generate type (Notebook.sources nb) message (msg_id (clock 1%nat + 1)) in
  handleSendMessage r clock message type =
    ( [ setIsLoading true;
        updateChat (Notebook.id nb) (userMessage (clock 0%nat) message);
        generateContent (generation_request generation) ],
      Some {| pending_notebookId := Notebook.id nb;
              pending_generation := generation |} ).
Proof. intros Hnb Hl. unfold handleSendMessage. by rewrite Hnb, Hl. Qed.

Lemma handleSendMessage_inv r clock message type cmds p :
  handleSendMessage r clock message type = (cmds, Some p) →
  ∃ nb, activeNotebook r = Some nb ∧ isLoading r = false
    ∧ pending_notebookId p = Notebook.id nb
    ∧ pending_generation p =
        generate type (Notebook.sources nb) message (msg_id (clock 1%nat + 1))
    ∧ cmds = [ setIsLoading true;
               updateChat (Notebook.id nb) (userMessage (clock 0%nat) message);
               generateContent (generation_request (pending_generation p)) ].
Proof.
  unfold handleSendMessage. destruct (activeNotebook r) as [nb|]; [|done].
  destruct (isLoading r); [done|]. intros [= <- <-]. by exists nb.
Qed.

(** C3.  For every accepted intent (a notebook is active and no request
    is in flight), the handler appends the message of role user to the
    log of the active notebook before it issues the request to the
    backend: the append precedes the request among the handler's calls,
    the log holds the message when the request is issued, and the message
    is still in its place when the request has settled, whether it was
    fulfilled or rejected, as long as no other handler removed the log
    meanwhile. *)
Theorem user_message_precedes_request
    (r : Store) (clock : nat → Z) (message : string) (type : Intent)
    (nb : Notebook.t) :
  activeNotebook r = Some nb →
  isLoading r = false →
  let id := Notebook.id nb in
  let before := default [] (chatHistory r !! id) in
  let user := userMessage (clock 0%nat) message in
  ∃ p request,
    handleSendMessage r clock message type =
      ([setIsLoading true; updateChat id user; generateContent request], Some p)
    ∧ pending_notebookId p = id
    ∧ ChatMessage.role user = Role.user
    ∧ ChatMessage.text user = message
    ∧ chatHistory (run [setIsLoading true; updateChat id user] r) !! id =
        Some (before ++ [user])
    ∧ ∀ s res clock',
        chatHistory s !! id = Some (before ++ [user]) →
        ∃ m, ChatMessage.role m = Role.model
          ∧ chatHistory (run (resume p res clock') s) !! id =
              Some (before ++ [user; m]).
Proof.
  intros Hnb Hl id before user. subst id before user.
  eexists _, _. split; [by apply handleSendMessage_accepted|].
  split; [done|]. split; [done|]. split; [done|]. split.
  - unfold run. simpl. by rewrite lookup_insert_eq.
  - intros s res clock' Hlog. unfold resume. rewrite run_settle. simpl.
    eexists. split; [|rewrite lookup_insert_eq, Hlog; simpl; by rewrite <- app_assoc].
    destruct (generation_response _ res clock') as [m|e] eqn:E; [|done].
    revert E. unfold generate.
    destruct type as [|[]]; unfold respond; simpl;
      destruct (receive _ res); try done; try (by intros [= <-]).
    destruct (flashcardsWithIds _ _); [by intros [= <-]|done].
Qed.


(** At a render of a notebook without sources, an event on a view whose
    menu is closed changes nothing and sends nothing. *)
Lemma step_without_sources p e s :
  ChatView.hasSources p = false → ChatView.showActions s = false →
  ChatView.step p e s = (s, None).
Proof.
  intros H Hs. destruct s as [input showActions]. simpl in Hs. subst showActions.
  destruct e; simpl;
    unfold ChatView.textarea_disabled, ChatView.button_disabled,
      ChatView.send_disabled; simpl; rewrite ?H, ?orb_true_r; done.
Qed.

(** At a render of a notebook without sources, the one event that makes
    the view call [onSendMessage] is a click on an entry of a menu that is
    open, while no request is in flight. *)
Lemma step_without_sources_sent p e s s' sent :
  ChatView.hasSources p = false →
  ChatView.step p e s = (s', Some sent) ↔
  ∃ a, e = ChatView.ClickMenu a ∧ a ∈ ChatView.actions
       ∧ ChatView.showActions s = true ∧ ChatView.isLoading p = false
       ∧ sent = ("Generate " +:+ ActionType_toString a +:+ " for this notebook.",
                 action a)
       ∧ s' = {| ChatView.input := ChatView.input s; ChatView.showActions := false |}.
Proof.
  intros H. split.
  - destruct e as [value|shiftKey| |type| |type|]; simpl;
      unfold ChatView.textarea_disabled, ChatView.button_disabled,
        ChatView.send_disabled; rewrite ?H, ?orb_true_r; simpl; try done.
    destruct (ChatView.showActions s) eqn:Hs; [|done].
    destruct (decide (type ∈ ChatView.actions)) as [Hin|]; [|done].
    unfold ChatView.handleSpecialAction.
    destruct (ChatView.isLoading p) eqn:Hl; simpl; [done|].
    intros [= <- <-]. by exists type.
  - intros (a & -> & Hin & Hs & Hl & -> & ->). simpl. rewrite Hs.
    rewrite decide_True by done. unfold ChatView.handleSpecialAction.
    by rewrite Hl.
Qed.

(** The menu is opened by the button next to the text area only, which is
    disabled at a render without sources. *)
Lemma menu_opened_with_sources p e s :
  ChatView.showActions s = false →
  ChatView.showActions (ChatView.step p e s).1 = true →
  e = ChatView.ClickGenerate ∧ ChatView.hasSources p = true
  ∧ ChatView.isLoading p = false.
Proof.
  intros Hs. destruct e as [value|shiftKey| |type| |type|]; simpl;
    unfold ChatView.handleSubmit, ChatView.handleSpecialAction;
    repeat case_match; simpl; try congruence.
  intros _. split; [done|].
  unfold ChatView.button_disabled in *.
  destruct (ChatView.hasSources p), (ChatView.isLoading p); done.
Qed.

(** C1, as the code has it.  [handleSendMessage] turns an intent away,
    with no call at all and so no request and no change of the log,
    exactly when no notebook is active or a request is in flight: the
    number of sources is not among its conditions.  What keeps intents
    from a notebook without sources is the [disabled] attribute of the
    controls of the chat view.  At every render of a notebook without
    sources the text area, the buttons next to it and the send button are
    disabled; the one event that makes the view call [onSendMessage] at
    such a render is a click on an entry of the menu when the menu is
    already open and no request is in flight, since the entries carry no
    [disabled] attribute, and then the intent of that entry is sent; with
    the menu closed no event sends anything or changes the state of the
    view.  The menu is opened at a render with sources only.  So a view
    whose menu is closed, a freshly mounted one among them, sends nothing
    as long as the notebook of its renders has no source. *)
Theorem no_source_gate_is_in_the_view :
  (∀ r clock message type,
     activeNotebook r = None ∨ isLoading r = true ↔
     handleSendMessage r clock message type = ([], None))
  ∧ (∀ p s, ChatView.hasSources p = false →
       ChatView.textarea_disabled p = true
       ∧ ChatView.button_disabled p = true
       ∧ ChatView.send_disabled p s = true)
  ∧ (∀ p e s s' sent, ChatView.hasSources p = false →
       ChatView.step p e s = (s', Some sent) ↔
       ∃ a, e = ChatView.ClickMenu a ∧ a ∈ ChatView.actions
            ∧ ChatView.showActions s = true ∧ ChatView.isLoading p = false
            ∧ sent = ("Generate " +:+ ActionType_toString a
                        +:+ " for this notebook.", action a)
            ∧ s' = {| ChatView.input := ChatView.input s;
                      ChatView.showActions := false |})
  ∧ (∀ p e s, ChatView.hasSources p = false → ChatView.showActions s = false →
       ChatView.step p e s = (s, None))
  ∧ (∀ p e s, ChatView.showActions s = false →
       ChatView.showActions (ChatView.step p e s).1 = true →
       e = ChatView.ClickGenerate ∧ ChatView.hasSources p = true
       ∧ ChatView.isLoading p = false)
  ∧ (∀ (es : list (ChatView.Props * ChatView.UIEvent)) s,
       ChatView.showActions s = false →
       Forall (λ pe, ChatView.hasSources pe.1 = false) es →
       ChatView.session es s = (s, []))
  ∧ (∀ es : list (ChatView.Props * ChatView.UIEvent),
       Forall (λ pe, ChatView.hasSources pe.1 = false) es →
       ChatView.session es ChatView.mount = (ChatView.mount, [])).
Proof.
  assert (∀ (es : list (ChatView.Props * ChatView.UIEvent)) s,
            ChatView.showActions s = false →
            Forall (λ pe, ChatView.hasSources pe.1 = false) es →
            ChatView.session es s = (s, [])) as Hsession.
  { induction es as [|[p e] es IH]; intros s Hs H; [done|].
    apply Forall_cons in H as [Hp H]. simpl.
    rewrite (step_without_sources p e s Hp Hs). by rewrite (IH s Hs H). }
  split; [apply handleSendMessage_rejected|].
  split.
  { intros p s H. unfold ChatView.textarea_disabled, ChatView.button_disabled,
      ChatView.send_disabled. rewrite H. simpl. by rewrite orb_true_r. }
  split; [apply step_without_sources_sent|].
  split; [apply step_without_sources|].
  split; [apply menu_opened_with_sources|].
  split; [exact Hsession|].
  intros es. by apply Hsession.
Qed.

(** C8, as the code has it.  A [QUIZ] message stores the payload of
    [generateQuiz] as it was returned, so every stored question is a
    question of the payload, and it has its correct answer among its
    options whenever the payload's question has. *)
Theorem quiz_payload_stored_as_returned
    (r : Store) (clock clock' : nat → Z) (message : string)
    (nb : Notebook.t) (res : Settled string) (payload : JSON) :
  activeNotebook r = Some nb →
  isLoading r = false →
  receive (generateQuiz (Notebook.sources nb)) res = Fulfilled payload →
  let stored :=
    ChatMessage.mk (msg_id (clock 1%nat + 1)) Role.model "Here is your quiz:"
      QUIZ (Some payload) in
  ∃ cmds p,
    handleSendMessage r clock message (action quiz) = (cmds, Some p)
    ∧ resume p res clock' = [updateChat (Notebook.id nb) stored; setIsLoading false]
    ∧ chatHistory (run (resume p res clock') (run cmds r)) !! Notebook.id nb =
        Some (default [] (chatHistory r !! Notebook.id nb)
                ++ [userMessage (clock 0%nat) message; stored])
    ∧ (Forall answer_in_options (questions payload) →
       ∀ data, ChatMessage.contentData stored = Some data →
               Forall answer_in_options (questions data)).
Proof.
  intros Hnb Hl Hres stored.
  eexists _, _. split; [by apply handleSendMessage_accepted|].
  assert (resume
            {| pending_notebookId := Notebook.id nb;
               pending_generation :=
                 generate (action quiz) (Notebook.sources nb) message
                   (msg_id (clock 1%nat + 1)) |} res clock'
          = [updateChat (Notebook.id nb) stored; setIsLoading false]) as Hresume.
  { unfold resume, generate, respond. simpl. by rewrite Hres. }
  split; [done|]. split.
  - rewrite Hresume. unfold run. simpl. rewrite !lookup_insert_eq. simpl.
    by rewrite <- app_assoc.
  - by intros H data [= <-].
Qed.
End Orchestrator.

(** *** The ways a generation fails *)







(** *** The orchestrator on the example stores *)

(** C1 fails on the handler: with a notebook that is active, idle and
    without sources, [handleSendMessage] appends the user message and
    issues the request, with either service. *)
Lemma send_without_sources_reaches_backend :
  Notebook.sources example_notebook = []
  ∧ activeNotebook example_store = Some example_notebook
  ∧ chatHistory example_store !! notebook_id 1 = Some []
  ∧ (∃ p request,
       handleSendMessage (svc := geminiService.service) example_store example_clock
         "What is this about?" chat =
         ( [ setIsLoading true;
             updateChat (notebook_id 1) (userMessage 1700000000100 "What is this about?");
             generateContent request ], Some p)
       ∧ chatHistory
           (run [ setIsLoading true;
                  updateChat (notebook_id 1)
                    (userMessage 1700000000100 "What is this about?");
                  generateContent request ] example_store) !! notebook_id 1 =
           Some [userMessage 1700000000100 "What is this about?"])
  ∧ (∃ p request,
       handleSendMessage (svc := geminiService2.service) example_store example_clock
         "What is this about?" chat =
         ( [ setIsLoading true;
             updateChat (notebook_id 1) (userMessage 1700000000100 "What is this about?");
             generateContent request ], Some p)
       ∧ contents request =
           "Based on the following sources, please answer the question."
             +:+ newline +:+ newline +:+ "Sources:" +:+ newline
             +:+ "No sources provided." +:+ newline +:+ newline
             +:+ "Question: What is this about?").
Proof.
  split; [done|]. split; [done|]. split; [by vm_compute|]. split.
  - eexists _, _. split; [reflexivity|]. by vm_compute.
  - eexists _, _. split; [reflexivity|]. by vm_compute.
Qed.

(** The menu of a view can be open at a render without sources: it is
    opened while the notebook has a source, a handler of an earlier render
    then writes the notebook back without it, and the view, which is not
    mounted again, keeps its menu open.  A click on an entry then sends its
    intent, and [handleSendMessage] issues the request. *)
Lemma open_menu_outlives_the_sources :
  let with_source :=
    Notebook.with_sources example_second_notebook
      [Source.mk (source_id 1700000000000) SourceType.text "Doc"
         "Paris is the capital of France."] in
  let opened := {| ChatView.input := EmptyString; ChatView.showActions := true |} in
  let before := store example_second_opened in
  let after := store example_file_read in
  render before = Chat with_source
  ∧ ChatView.step (chatViewProps before with_source) ChatView.ClickGenerate
      ChatView.mount = (opened, None)
  ∧ render after = Chat example_second_notebook
  ∧ ChatView.hasSources (chatViewProps after example_second_notebook) = false
  ∧ ChatView.step (chatViewProps after example_second_notebook)
      (ChatView.ClickMenu summary) opened =
      (ChatView.mount, Some ("Generate summary for this notebook.", action summary))
  ∧ ∃ p,
      handleSendMessage (svc := geminiService.service) after example_clock
        "Generate summary for this notebook." (action summary) =
        ( [ setIsLoading true;
            updateChat (notebook_id 2)
              (userMessage 1700000000100 "Generate summary for this notebook.");
            generateContent
              (request (geminiService.generateSummary [])) ], Some p).
Proof.
  repeat split; try reflexivity. eexists. reflexivity.
Qed.

(** C1 on a view of the example notebook, which has no source: an event on
    each control of the mounted view, and nothing is sent; a click on an
    entry of a menu left open, and the summary intent is sent. *)
Lemma no_source_gate_is_in_the_view_witness :
  ChatView.hasSources example_props = false
  ∧ ChatView.session example_events ChatView.mount = (ChatView.mount, [])
  ∧ ChatView.step example_props (ChatView.ClickMenu summary)
      {| ChatView.input := "Why?"; ChatView.showActions := true |} =
      ({| ChatView.input := "Why?"; ChatView.showActions := false |},
       Some ("Generate summary for this notebook.", action summary)).
Proof.
  pose proof (no_source_gate_is_in_the_view (svc := geminiService.service))
    as (_ & _ & Hsent & _ & _ & _ & Hmount).
  split; [reflexivity|]. split.
  - apply Hmount. by repeat constructor.
  - apply (Hsent example_props); [reflexivity|].
    exists summary. repeat split; try reflexivity. compute_done.
Defined.

(** C3 on the example store with its source. *)
Lemma user_message_precedes_request_witness :
  ∃ p request,
    handleSendMessage (svc := geminiService.service) example_store_with_source
      example_clock "What is the capital of France?" chat =
      ( [ setIsLoading true;
          updateChat (notebook_id 1)
            (userMessage 1700000000100 "What is the capital of France?");
          generateContent request ], Some p)
    ∧ chatHistory
        (run [ setIsLoading true;
               updateChat (notebook_id 1)
                 (userMessage 1700000000100 "What is the capital of France?") ]
           example_store_with_source) !! notebook_id 1 =
        Some [userMessage 1700000000100 "What is the capital of France?"].
Proof.
  destruct (user_message_precedes_request (svc := geminiService.service)
              example_store_with_source example_clock
              "What is the capital of France?" chat
              (Notebook.with_sources example_notebook (map new_source (take 1 example_adds)))
              eq_refl eq_refl)
    as (p & request & H1 & _ & _ & _ & H5 & _).
  exists p, request. split; [exact H1|exact H5].
Defined.



(** C8 fails: the backend answers the quiz request with a question whose
    correct answer is none of its options, and the question is stored as it
    came, with either service. *)
Lemma quiz_answer_outside_options_is_stored :
  let user := userMessage 1700000000100 "Generate quiz for this notebook." in
  let stored :=
    ChatMessage.mk "msg_1700000000102" Role.model "Here is your quiz:" QUIZ
      (Some (JArray [quiz_question "Rome"])) in
  let events :=
    [ SendMessage example_clock "Generate quiz for this notebook." (action quiz);
      Settle (Fulfilled (quiz_text "Rome")) example_clock' ] in
  let start := {| store := example_store_with_source; inFlight := []; calls := [] |} in
  chatHistory (store (steps (svc := geminiService.service) events start))
    !! notebook_id 1 = Some [user; stored]
  ∧ chatHistory (store (steps (svc := geminiService2.service) events start))
      !! notebook_id 1 = Some [user; stored]
  ∧ ¬ answer_in_options (quiz_question "Rome").
Proof.
  split; [by vm_compute|]. split; [by vm_compute|].
  unfold answer_in_options. simpl. intros H.
  repeat (apply elem_of_cons in H as [H|H]; [discriminate|]).
  by apply elem_of_nil in H.
Qed.

(** C8 on the scenario of the spec: one source, the backend returns one
    question built as asked; the log gains the user message and the quiz,
    and the stored question has its correct answer among its options. *)
Lemma quiz_payload_stored_as_returned_witness :
  let stored :=
    ChatMessage.mk "msg_1700000000102" Role.model "Here is your quiz:" QUIZ
      (Some (JArray [quiz_question "Paris"])) in
  ∃ cmds p,
    handleSendMessage (svc := geminiService.service) example_store_with_source
      example_clock "Generate quiz for this notebook." (action quiz) = (cmds, Some p)
    ∧ chatHistory
        (run (resume p (Fulfilled (quiz_text "Paris")) example_clock')
           (run cmds example_store_with_source)) !! notebook_id 1 =
        Some [userMessage 1700000000100 "Generate quiz for this notebook."; stored]
    ∧ Forall answer_in_options (questions (JArray [quiz_question "Paris"])).
Proof.
  destruct (quiz_payload_stored_as_returned (svc := geminiService.service)
              example_store_with_source example_clock example_clock'
              "Generate quiz for this notebook."
              (Notebook.with_sources example_notebook (map new_source (take 1 example_adds)))
              (Fulfilled (quiz_text "Paris")) (JArray [quiz_question "Paris"])
              eq_refl eq_refl)
    as (cmds & p & H1 & _ & H3 & H4); [by vm_compute|].
  assert (Forall answer_in_options (questions (JArray [quiz_question "Paris"]))) as HF.
  { apply Forall_singleton. unfold answer_in_options. simpl. by left. }
  exists cmds, p. split; [exact H1|]. split; [exact H3|].
  exact (H4 HF _ eq_refl).
Defined.

(** ** The mind-map schemas *)

(** Induction on a schema that reaches the schemas of the properties. *)
Lemma Schema_nested_ind (P : Schema → Prop) :
  (∀ d, P (STRING d)) →
  (∀ items d, P items → P (ARRAY items d)) →
  (∀ properties required, Forall (λ kp, P kp.2) properties → P (OBJECT properties required)) →
  ∀ s, P s.
Proof.
  intros HS HA HO. fix IH 1. intros [d|items d|properties required].
  - apply HS.
  - apply HA, IH.
  - apply HO. induction properties as [|[k sub] rest IHrest]; constructor.
    + apply IH.
    + apply IHrest.
Qed.

Lemma levels_OBJECT properties required :
  levels (OBJECT properties required) =
    match property "children" properties with
    | Some (ARRAY items _) => S (levels items)
    | _ => 0%nat
    end.
Proof.
  simpl. induction properties as [|[k sub] rest IH]; [done|]. simpl.
  by case_decide.
Qed.

Lemma depth_JObject fields :
  depth (JObject fields) =
    match get_prop "children" fields with
    | Some (JArray kids) => deepest kids
    | _ => 0%nat
    end.
Proof.
  simpl. induction fields as [|[k c] rest IH]; [done|]. simpl.
  case_decide; [|done]. by destruct c.
Qed.

Lemma forallb_pointwise {A} (f g : A → bool) (l : list A) :
  (∀ x, f x = g x) → forallb f l = forallb g l.
Proof. intros H. induction l as [|x l IH]; [done|]. simpl. by rewrite H, IH. Qed.

Lemma conforms_OBJECT properties required fields :
  conforms (OBJECT properties required) (JObject fields) =
    forallb (λ k, bool_decide (is_Some (get_prop k fields))) required
    && forallb (λ kv : string * JSON,
         match property kv.1 properties with
         | Some sub => conforms sub kv.2
         | None => false
         end) fields.
Proof.
  simpl. f_equal. apply forallb_pointwise. intros [k v]. simpl.
  induction properties as [|[k' sub] rest IH]; [done|]. simpl.
  by case_decide.
Qed.

Lemma get_prop_elem_of k fields v :
  get_prop k fields = Some v → (k, v) ∈ fields.
Proof.
  induction fields as [|[k' v'] rest IH]; [done|]. simpl.
  case_decide; [intros [= ->]; subst; by left|]. intros Hrest. right. by apply IH.
Qed.

Lemma property_elem_of k properties sub :
  property k properties = Some sub → (k, sub) ∈ properties.
Proof.
  induction properties as [|[k' s'] rest IH]; [done|]. simpl.
  case_decide; [intros [= ->]; subst; by left|]. intros Hrest. right. by apply IH.
Qed.

Lemma deepest_le kids n :
  (∀ kid, kid ∈ kids → (depth kid ≤ n)%nat) → (deepest kids ≤ S n)%nat.
Proof.
  induction kids as [|kid kids IH]; intros H; simpl; [lia|].
  assert (depth kid ≤ n)%nat by (apply H; by left).
  assert (deepest kids ≤ S n)%nat by (apply IH; intros ? ?; apply H; by right).
  lia.
Qed.

(** An instance of a schema is no deeper than the schema has levels. *)
Lemma conforms_depth (s : Schema) :
  (∀ v, conforms s v = true → (depth v ≤ levels s)%nat)
  ∧ match s with
    | ARRAY items _ => ∀ v, conforms items v = true → (depth v ≤ levels items)%nat
    | _ => True
    end.
Proof.
  induction s as [d|items d [IH _]|properties required IH] using Schema_nested_ind.
  - split; [|done]. by intros [].
  - split; [|done]. by intros [].
  - split; [|done]. intros [| | | | |fields]; try done.
    rewrite conforms_OBJECT, depth_JObject, levels_OBJECT.
    intros [_ Hfields]%andb_prop.
    destruct (get_prop "children" fields) as [c|] eqn:Hc; [|lia].
    destruct c as [| | | |kids|]; try lia.
    apply get_prop_elem_of in Hc.
    rewrite forallb_forall in Hfields.
    apply list_elem_of_In, Hfields in Hc. simpl in Hc.
    destruct (property "children" properties) as [sub|] eqn:Hsub; [|done].
    apply property_elem_of in Hsub.
    rewrite Forall_forall in IH. apply IH in Hsub as [_ Hitems]. simpl in Hitems.
    destruct sub as [|items d|]; try done. simpl in Hc.
    rewrite forallb_forall in Hc.
    apply deepest_le. intros kid Hkid. apply Hitems, Hc. by apply list_elem_of_In.
Qed.

(** C7, as the code has it.  Each of the two [generateMindMap] sends a
    schema of fixed depth, unrolled by hand and not recursive.  The schema
    [mindMapSchema] describes 5 nested levels of children below the root:
    every instance is at most 5 levels deep, an instance 5 levels deep
    exists, one of 6 levels is not an instance, and a node of the deepest
    level has a topic and nothing else.  The schema written in line in the
    other [generateMindMap] describes 2 nested levels below the root. *)
Theorem mind_map_schema_levels :
  (∀ sources,
     responseSchema (request (geminiService.generateMindMap sources)) =
       Some geminiService.mindMapSchema)
  ∧ levels geminiService.mindMapSchema = 5%nat
  ∧ (∀ v, conforms geminiService.mindMapSchema v = true → (depth v ≤ 5)%nat)
  ∧ conforms geminiService.mindMapSchema (chain 5) = true
  ∧ depth (chain 5) = 5%nat
  ∧ conforms geminiService.mindMapSchema (chain 6) = false
  ∧ (∀ fields k,
       conforms geminiService.mindMapNodeSchemaL5 (JObject fields) = true →
       is_Some (get_prop k fields) → k = "topic")
  ∧ (∀ sources,
       responseSchema (request (geminiService2.generateMindMap sources)) =
         Some geminiService2.mindMapNodeSchema)
  ∧ levels geminiService2.mindMapNodeSchema = 2%nat
  ∧ (∀ v, conforms geminiService2.mindMapNodeSchema v = true → (depth v ≤ 2)%nat)
  ∧ conforms geminiService2.mindMapNodeSchema (chain 2) = true
  ∧ conforms geminiService2.mindMapNodeSchema (chain 3) = false.
Proof.
  split; [done|]. split; [done|].
  split; [apply (conforms_depth geminiService.mindMapSchema)|].
  split; [done|]. split; [done|]. split; [done|]. split.
  - intros fields k. unfold geminiService.mindMapNodeSchemaL5.
    rewrite conforms_OBJECT. intros [_ Hfields]%andb_prop [v Hv].
    apply get_prop_elem_of in Hv. rewrite forallb_forall in Hfields.
    apply list_elem_of_In, Hfields in Hv. simpl in Hv.
    by case_decide.
  - split; [done|]. split; [done|].
    split; [apply (conforms_depth geminiService2.mindMapNodeSchema)|]. done.
Qed.

(** C7 on a chain of five nested children. *)
Lemma mind_map_schema_levels_witness : (depth (chain 5) ≤ 5)%nat.
Proof.
  exact (proj1 (proj2 (proj2 mind_map_schema_levels)) (chain 5) eq_refl).
Defined.

(** C7 fails for the second [generateMindMap]: the schema it sends has 2
    levels of children, and a mind map 3 levels deep is not an instance of
    it. *)
Lemma second_mind_map_schema_has_two_levels :
  ∃ s, responseSchema (request (geminiService2.generateMindMap [])) = Some s
    ∧ levels s = 2%nat
    ∧ depth (chain 3) = 3%nat
    ∧ conforms s (chain 3) = false.
Proof. by eexists. Qed.

(** ** Single flight *)

Lemma selectFirstNotebook_frame s :
  let s' := run (selectFirstNotebook s) s in
  notebooks s' = notebooks s ∧ chatHistory s' = chatHistory s
  ∧ isLoading s' = isLoading s.
Proof.
  unfold selectFirstNotebook. destruct (notebooks s) as [|n nbs] eqn:E; [done|].
  destruct (match activeNotebookId s with
            | Some i => bool_decide (i = EmptyString) | None => true end); simpl;
    by rewrite ?E.
Qed.

Lemma commit_isLoading cmds s : isLoading (commit cmds s) = isLoading (run cmds s).
Proof. apply selectFirstNotebook_frame. Qed.

Lemma commit_chatHistory cmds s : chatHistory (commit cmds s) = chatHistory (run cmds s).
Proof. apply selectFirstNotebook_frame. Qed.

(** The effect has nothing left to do after it has run. *)
Lemma commit_stable cmds s :
  run (selectFirstNotebook (commit cmds s)) (commit cmds s) = commit cmds s.
Proof.
  unfold commit. destruct (run cmds s) as [nbs a h l c d].
  unfold selectFirstNotebook. simpl. destruct nbs as [|n nbs]; [done|].
  destruct a as [i|]; simpl.
  - destruct (bool_decide (i = EmptyString)) eqn:E; simpl.
    + by destruct (bool_decide (Notebook.id n = EmptyString)).
    + by rewrite E.
  - by destruct (bool_decide (Notebook.id n = EmptyString)).
Qed.

Lemma messages_of_snoc id cs c :
  messages_of id (cs ++ [c]) =
    messages_of id cs ++
      (if decide (call_notebookId c = id)
       then call_userMessage c :: option_list (call_reply c) else []).
Proof. unfold messages_of. rewrite flat_map_app. simpl. by rewrite app_nil_r. Qed.

Lemma close_call_last m cs c :
  Forall closed cs →
  call_reply c = None →
  close_call m (cs ++ [c]) =
    cs ++ [ {| call_notebookId := call_notebookId c;
               call_userMessage := call_userMessage c;
               call_reply := Some m |} ].
Proof.
  intros Hcs Hc. induction Hcs as [|c' cs [m' Hm'] _ IH]; simpl.
  - by rewrite Hc.
  - by rewrite Hm', IH.
Qed.

Lemma open_calls_closed cs :
  Forall closed cs → filter (λ c, call_reply c = None) cs = [].
Proof.
  induction 1 as [|c cs [m Hm] _ IH]; [done|].
  rewrite filter_cons_False; [done|]. by rewrite Hm.
Qed.

(** A handler that leaves the busy flag alone and, for each notebook,
    leaves its log alone or empties it, keeps the invariant. *)
Lemma inv_sync logs0 sys cmds :
  single_flight_inv logs0 sys →
  isLoading (run cmds (store sys)) = isLoading (store sys) →
  (∀ id, default [] (chatHistory (run cmds (store sys)) !! id) =
           default [] (chatHistory (store sys) !! id)
         ∨ default [] (chatHistory (run cmds (store sys)) !! id) = []) →
  single_flight_inv logs0
    {| store := commit cmds (store sys); inFlight := inFlight sys; calls := calls sys |}.
Proof.
  intros [H1 H2 H3 H4 H5] Hl Hh. split; simpl.
  - done.
  - by rewrite commit_isLoading, Hl.
  - apply commit_stable.
  - done.
  - intros id. rewrite commit_chatHistory.
    destruct (Hh id) as [-> | ->]; [apply H5|apply suffix_nil].
Qed.

Lemma lookup_insert_default {A} (h : gmap string (list A)) id id' v :
  default [] (<[id := v]> h !! id') =
    if decide (id = id') then v else default [] (h !! id').
Proof.
  case_decide; [subst; by rewrite lookup_insert_eq|by rewrite lookup_insert_ne].
Qed.

(** While the busy flag is set, no event on the chat view sends
    anything. *)
Lemma view_step_while_loading p e s :
  ChatView.isLoading p = true → (ChatView.step p e s).2 = None.
Proof.
  intros H. destruct e; simpl;
    unfold ChatView.textarea_disabled, ChatView.button_disabled,
      ChatView.send_disabled, ChatView.handleSubmit, ChatView.handleSpecialAction;
    rewrite ?H, ?orb_true_r; simpl; try done.
  all: by repeat (case_match; simpl; try done).
Qed.

Section SingleFlight.
Context {svc : GeminiService}.

Lemma step_inv logs0 e sys :
  single_flight_inv logs0 sys → single_flight_inv logs0 (step e sys).
Proof.
  intros Hinv.
  destruct e as [now createdAt title|id0|id0| | | |render now nb title content ty
                |now createdAt nb itemData|nb itemId|clock message type|res clock];
    simpl.
  - (* CreateNotebook *)
    apply inv_sync; [done|done|]. intros id. simpl.
    rewrite lookup_insert_default. case_decide; auto.
  - (* DeleteNotebook *)
    apply inv_sync; [done| |].
    + unfold handleDeleteNotebook. rewrite run_app. by case_decide.
    + intros id. unfold handleDeleteNotebook. rewrite run_app.
      destruct (decide (activeNotebookId (store sys) = Some id0)); simpl;
        (destruct (decide (id0 = id)) as [->|Hne];
         [right; by rewrite lookup_delete_eq|left; by rewrite lookup_delete_ne]).
  - (* SelectNotebook *) apply inv_sync; auto.
  - (* AddNotebook *) apply inv_sync; auto.
  - (* CancelCreate *) apply inv_sync; auto.
  - (* ToggleDarkMode *) apply inv_sync; auto.
  - (* AddSource *) apply inv_sync; auto.
  - (* SaveItem *) apply inv_sync; auto.
  - (* DeleteSavedItem *) apply inv_sync; auto.
  - (* SendMessage *)
    destruct (handleSendMessage (store sys) clock message type) as [cmds [p|]] eqn:E.
    + apply handleSendMessage_inv in E as (n & Hn & Hl & Hid & Hg & ->).
      destruct Hinv as [H1 H2 H3 H4 H5].
      assert (inFlight sys = []) as Hnone.
      { destruct (inFlight sys) eqn:Ef; [done|].
        assert (isLoading (store sys) = true) by (apply H2; done). congruence. }
      rewrite Hnone in *. split; simpl.
      * done.
      * rewrite commit_isLoading. simpl. by split.
      * apply commit_stable.
      * eexists _, _. by repeat split.
      * intros id. rewrite commit_chatHistory. simpl.
        rewrite messages_of_snoc. simpl. rewrite Hid.
        rewrite lookup_insert_default. case_decide.
        -- subst id. rewrite app_assoc. apply suffix_snoc, H5.
        -- rewrite app_nil_r. apply H5.
    + assert (cmds = []) as ->.
      { unfold handleSendMessage in E. destruct (activeNotebook (store sys));
          [destruct (isLoading (store sys))|]; by inversion E. }
      apply inv_sync; auto.
  - (* Settle *)
    destruct Hinv as [H1 H2 H3 H4 H5].
    destruct (inFlight sys) as [|p rest] eqn:Ef; [by split; rewrite ?Ef|].
    assert (rest = []) as -> by (destruct rest; [done|simpl in H1; lia]).
    destruct H4 as (cs & c & Hcalls & Hcs & Hopen & Hid).
    assert (run (resume p res clock) (store sys) =
            {| notebooks := notebooks (store sys);
               activeNotebookId := activeNotebookId (store sys);
               chatHistory :=
                 <[pending_notebookId p :=
                     default [] (chatHistory (store sys) !! pending_notebookId p)
                       ++ [reply_of p res clock]]> (chatHistory (store sys));
               isLoading := false;
               isCreatingNotebook := isCreatingNotebook (store sys);
               isDarkMode := isDarkMode (store sys) |}) as Hrun.
    { unfold resume, reply_of. by rewrite run_settle. }
    split; simpl.
    + lia.
    + rewrite commit_isLoading, Hrun. simpl. by split.
    + apply commit_stable.
    + rewrite Hcalls, close_call_last by done.
      apply Forall_app. split; [done|]. apply Forall_singleton. by eexists.
    + intros id. rewrite commit_chatHistory, Hrun. simpl.
      rewrite Hcalls, close_call_last by done.
      specialize (H5 id). rewrite Hcalls in H5.
      rewrite messages_of_snoc in H5 |- *. simpl. rewrite Hopen in H5. simpl in H5.
      rewrite Hid in *. rewrite lookup_insert_default. case_decide.
      * subst id.
        replace [call_userMessage c; reply_of p res clock]
          with ([call_userMessage c] ++ [reply_of p res clock]) by done.
        rewrite !app_assoc. apply suffix_snoc. by rewrite <- app_assoc.
      * done.
Qed.

Lemma steps_inv logs0 es sys :
  single_flight_inv logs0 sys → single_flight_inv logs0 (steps es sys).
Proof.
  revert sys. induction es as [|e es IH]; intros sys H; [done|].
  simpl. apply IH. by apply step_inv.
Qed.

Lemma boot_inv persisted : single_flight_inv (chatHistory persisted) (boot persisted).
Proof.
  split; simpl.
  - lia.
  - rewrite commit_isLoading. simpl. by split.
  - apply commit_stable.
  - constructor.
  - intros id. rewrite commit_chatHistory. simpl. by rewrite app_nil_r.
Qed.

(** C4.  In every state the application reaches from its start on any
    persisted state, through any sequence of user events and settling
    requests: at most one request of [handleSendMessage] is in flight; the
    single busy flag is set exactly while one is; while it is set,
    [handleSendMessage] turns every intent away, whatever notebook is
    active, with no call and no change of state, and the chat view sends
    none in the first place; every call issued has been answered but the
    one in flight; and the log of every notebook lists messages of the
    calls made for it in the order in which the calls were issued, after
    what the persisted log held. *)
Theorem single_flight (persisted : Store) (es : list Event) :
  let sys := steps es (boot persisted) in
  (length (inFlight sys) ≤ 1)%nat
  ∧ (isLoading (store sys) = true ↔ inFlight sys ≠ [])
  ∧ (isLoading (store sys) = true →
     ∀ clock message type,
       handleSendMessage (store sys) clock message type = ([], None)
       ∧ step (SendMessage clock message type) sys = sys)
  ∧ (∀ p e s, ChatView.isLoading p = true → (ChatView.step p e s).2 = None)
  ∧ length (filter (λ c, call_reply c = None) (calls sys)) = length (inFlight sys)
  ∧ ∀ id,
      default [] (chatHistory (store sys) !! id)
        `suffix_of` (default [] (chatHistory persisted !! id)
                       ++ messages_of id (calls sys)).
Proof.
  intros sys.
  destruct (steps_inv _ es _ (boot_inv persisted)) as [H1 H2 H3 H4 H5].
  fold sys in H1, H2, H3, H4, H5.
  split; [done|]. split; [done|].
  split; [|split; [apply view_step_while_loading|split; [|done]]].
  - intros Hl clock message type.
    assert (handleSendMessage (store sys) clock message type = ([], None)) as E
      by (apply handleSendMessage_rejected; by right).
    split; [done|]. simpl. rewrite E. unfold commit. simpl. rewrite H3.
    by destruct sys.
  - destruct (inFlight sys) as [|p rest].
    + by rewrite open_calls_closed.
    + assert (rest = []) as -> by (destruct rest; [done|simpl in H1; lia]).
      destruct H4 as (cs & c & -> & Hcs & Hopen & _).
      rewrite filter_app, open_calls_closed by done.
      by rewrite filter_cons_True.
Qed.
End SingleFlight.

(** C4 on the example run: the question is in flight, and a second intent
    sent meanwhile changes nothing. *)
Lemma single_flight_witness :
  let sys := steps (svc := geminiService.service) example_run (boot initialStore) in
  isLoading (store sys) = true
  ∧ length (inFlight sys) = 1%nat
  ∧ step (svc := geminiService.service)
      (SendMessage example_clock' "Generate quiz for this notebook." (action quiz)) sys
    = sys.
Proof.
  destruct (single_flight (svc := geminiService.service) initialStore example_run)
    as (_ & _ & H3 & _).
  split; [by vm_compute|]. split; [by vm_compute|].
  apply H3. by vm_compute.
Defined.

(** * Further properties of the application state *)

(** ** The chat logs *)

(** X1. [updateChat] appends the message to the log of its notebook, which
    it creates when the key is missing, and touches no other log and no
    other state variable; two appends to one log keep their order, and
    appends to different logs commute. *)
Theorem updateChat_appends (s : Store) (id : string) (m : ChatMessage.t) :
  let s' := exec (updateChat id m) s in
  chatHistory s' !! id = Some (default [] (chatHistory s !! id) ++ [m])
  ∧ (chatHistory s !! id = None → chatHistory s' !! id = Some [m])
  ∧ (∀ id', id' ≠ id → chatHistory s' !! id' = chatHistory s !! id')
  ∧ notebooks s' = notebooks s
  ∧ activeNotebookId s' = activeNotebookId s
  ∧ isLoading s' = isLoading s
  ∧ isCreatingNotebook s' = isCreatingNotebook s
  ∧ isDarkMode s' = isDarkMode s
  ∧ (∀ m', chatHistory (run [updateChat id m; updateChat id m'] s) !! id =
             Some (default [] (chatHistory s !! id) ++ [m; m']))
  ∧ (∀ id' m', id' ≠ id →
       run [updateChat id m; updateChat id' m'] s =
       run [updateChat id' m'; updateChat id m] s).
Proof.
  simpl. split; [by rewrite lookup_insert_eq|].
  split; [intros E; by rewrite lookup_insert_eq, E|].
  split; [intros id' Hne; by rewrite lookup_insert_ne|].
  do 5 (split; [done|]). split.
  - intros m'. unfold run. simpl.
    rewrite !lookup_insert_eq. simpl. by rewrite <- app_assoc.
  - intros id' m' Hne. unfold run. simpl. f_equal.
    rewrite !lookup_insert_ne by done.
    by rewrite insert_insert_ne.
Qed.

(** ** Handlers called with an id that names no notebook *)

Lemma update_notebook_absent id f l :
  id ∉ map Notebook.id l → update_notebook id f l = l.
Proof.
  intros H. rewrite <- (update_notebook_id id l) at 2.
  apply update_notebook_ext. intros n Hn E. exfalso. apply H.
  rewrite <- E. to_fmap. apply list_elem_of_fmap. by exists n.
Qed.

Lemma store_eta s :
  {| notebooks := notebooks s; activeNotebookId := activeNotebookId s;
     chatHistory := chatHistory s; isLoading := isLoading s;
     isCreatingNotebook := isCreatingNotebook s; isDarkMode := isDarkMode s |} = s.
Proof. by destruct s. Qed.

(** X2. Adding a source, saving an item or deleting an item under an id
    that no notebook of the list has leaves the whole state as it is: the
    call is ignored without any report. *)
Theorem absent_notebook_is_ignored (s : Store) (notebookId : string) :
  notebookId ∉ map Notebook.id (notebooks s) →
  (∀ now title content type,
     run (handleAddSourceToNotebook s now notebookId title content type) s = s)
  ∧ (∀ now createdAt itemData,
       run (handleSaveItemToNotebook now createdAt notebookId itemData) s = s)
  ∧ (∀ itemId, run (handleDeleteSavedItem notebookId itemId) s = s).
Proof.
  intros H. repeat split; intros; unfold run; simpl;
    match goal with
    | |- context [map ?g (notebooks s)] =>
        change (map g (notebooks s)) with
          (update_notebook notebookId
             ltac:(match g with (λ n, if _ then @?f n else _) => exact f end)
             (notebooks s))
    end; rewrite update_notebook_absent by done; apply store_eta.
Qed.

Lemma absent_notebook_is_ignored_witness :
  run (handleSaveItemToNotebook 1700000000500 example_createdAt (notebook_id 2)
         example_itemData) example_store = example_store.
Proof.
  apply (absent_notebook_is_ignored example_store (notebook_id 2)).
  compute_done.
Defined.

(** ** Deleting a notebook *)

Lemma filter_ne_ids (id : string) (l : list Notebook.t) :
  map Notebook.id (filter (λ n, Notebook.id n ≠ id) l) =
    filter (λ i, i ≠ id) (map Notebook.id l).
Proof.
  induction l as [|n l IH]; [done|]. simpl. rewrite !filter_cons.
  destruct (decide (Notebook.id n ≠ id)); simpl; by rewrite IH.
Qed.

Lemma filter_ne_idemp (id : string) (l : list Notebook.t) :
  filter (λ n, Notebook.id n ≠ id) (filter (λ n, Notebook.id n ≠ id) l) =
    filter (λ n, Notebook.id n ≠ id) l.
Proof.
  induction l as [|n l IH]; [done|]. rewrite filter_cons.
  destruct (decide (Notebook.id n ≠ id)); [|done].
  by rewrite filter_cons_True, IH.
Qed.

Lemma filter_ne_absent (id : string) (l : list Notebook.t) :
  id ∉ map Notebook.id l → filter (λ n, Notebook.id n ≠ id) l = l.
Proof.
  induction l as [|n l IH]; [done|]. simpl.
  intros [? ?]%not_elem_of_cons.
  rewrite filter_cons_True by done. f_equal. by apply IH.
Qed.

Lemma handleDeleteNotebook_fields (r : Store) (id : string) :
  let r' := run (handleDeleteNotebook r id) r in
  notebooks r' = filter (λ n, Notebook.id n ≠ id) (notebooks r)
  ∧ chatHistory r' = delete id (chatHistory r)
  ∧ activeNotebookId r' =
      (if decide (activeNotebookId r = Some id)
       then Notebook.id <$> head (filter (λ n, Notebook.id n ≠ id) (notebooks r))
       else activeNotebookId r)
  ∧ isLoading r' = isLoading r
  ∧ isCreatingNotebook r' = isCreatingNotebook r
  ∧ isDarkMode r' = isDarkMode r.
Proof.
  unfold handleDeleteNotebook, run.
  destruct (decide (activeNotebookId r = Some id)); simpl; [|done].
  by destruct (filter _ (notebooks r)).
Qed.

Lemma filter_ne_not_elem (id : string) (l : list Notebook.t) :
  id ∉ map Notebook.id (filter (λ n, Notebook.id n ≠ id) l).
Proof. rewrite filter_ne_ids. by intros [? _]%list_elem_of_filter. Qed.

(** X3. [handleDeleteNotebook] removes every notebook of the given id and
    its log, keeps the other notebooks and logs, and leaves the active id
    on something else than the deleted notebook; deleting the same id again
    from the resulting render, or an id that names no notebook and has no
    log, changes nothing. *)
Theorem delete_notebook_twice (r : Store) (id : string) :
  let r' := run (handleDeleteNotebook r id) r in
  run (handleDeleteNotebook r' id) r' = r'
  ∧ (id ∉ map Notebook.id (notebooks r'))
  ∧ chatHistory r' !! id = None
  ∧ activeNotebookId r' ≠ Some id
  ∧ (∀ n, n ∈ notebooks r → Notebook.id n ≠ id → n ∈ notebooks r')
  ∧ (∀ id', id' ≠ id → chatHistory r' !! id' = chatHistory r !! id')
  ∧ (id ∉ map Notebook.id (notebooks r) → chatHistory r !! id = None →
     activeNotebookId r ≠ Some id → r' = r).
Proof.
  intros r'.
  destruct (handleDeleteNotebook_fields r id) as (Hn & Hh & Ha & Hl & Hc & Hd).
  fold r' in Hn, Hh, Ha, Hl, Hc, Hd.
  assert (id ∉ map Notebook.id (notebooks r')) as Hid
    by (rewrite Hn; apply filter_ne_not_elem).
  assert (activeNotebookId r' ≠ Some id) as Hact.
  { rewrite Ha. case_decide; [|done].
    destruct (filter _ (notebooks r)) as [|n l] eqn:E; [done|]. simpl.
    intros [= Hx]. assert (n ∈ filter (λ n, Notebook.id n ≠ id) (notebooks r)) as Hin
      by (rewrite E; left).
    apply list_elem_of_filter in Hin. by destruct Hin. }
  split.
  - unfold handleDeleteNotebook, run. rewrite decide_False by done. simpl.
    rewrite Hn, filter_ne_idemp, <- Hn, Hh, delete_delete_eq, <- Hh.
    apply store_eta.
  - split; [done|]. split; [by rewrite Hh, lookup_delete_eq|]. split; [done|].
    split; [|split].
    + intros n Hin Hne. rewrite Hn. by apply list_elem_of_filter.
    + intros id' Hne. by rewrite Hh, lookup_delete_ne.
    + intros Habs Hlog Hptr. rewrite <- (store_eta r'), <- (store_eta r).
      rewrite Hn, Hh, Ha, Hl, Hc, Hd, decide_False by done.
      f_equal.
      * by apply filter_ne_absent.
      * by apply delete_id.
Qed.

Lemma delete_notebook_twice_witness :
  let r' := run (handleDeleteNotebook example_three (notebook_id 2)) example_three in
  run (handleDeleteNotebook r' (notebook_id 2)) r' = r'
  ∧ map Notebook.id (notebooks r') = [notebook_id 1; notebook_id 3].
Proof.
  split; [apply (delete_notebook_twice example_three (notebook_id 2))|done].
Defined.

(** ** The reply to an intent *)

Section Replies.
Context {svc : GeminiService}.

Lemma generate_fulfilled type sources message msgId res clock m :
  generation_response (generate type sources message msgId) res clock = Fulfilled m →
  ChatMessage.id m = msgId
  ∧ ChatMessage.role m = Role.model
  ∧ ChatMessage.contentType m = contentType_of type
  ∧ (ChatMessage.contentData m = None ↔ type = chat).
Proof.
  destruct type as [|[]]; unfold generate, respond; simpl;
    match goal with
    | |- context [receive ?c res] => destruct (receive c res) as [v|e]
    end; try done;
    try (destruct (flashcardsWithIds clock v); [|done]);
    intros [= <-]; simpl; repeat split; done.
Qed.

(** X4. A request that is fulfilled gives a reply under the id fixed
    before the call, in the role of the model, with the content type of
    the intent, which is never [ERROR]; the reply carries content data for
    every intent but [chat]. *)
Theorem reply_matches_intent
    (type : Intent) (sources : list Source.t) (message msgId : string)
    (res : Settled string) (clock : nat → Z) (m : ChatMessage.t) :
  generation_response (generate type sources message msgId) res clock = Fulfilled m →
  ChatMessage.id m = msgId
  ∧ ChatMessage.role m = Role.model
  ∧ ChatMessage.contentType m = contentType_of type
  ∧ ChatMessage.contentType m ≠ ERROR
  ∧ (ChatMessage.contentData m = None ↔ type = chat).
Proof.
  intros (H1 & H2 & H3 & H4)%generate_fulfilled.
  repeat split; try done; try apply H4.
  rewrite H3. by destruct type as [|[]].
Qed.

(** X5. With a clock that does not run backwards, the message that
    answers a request, be it the reply or the error message, has another
    id than the user message of that request: it is named after a later
    reading plus one. *)
Theorem reply_id_differs_from_user_id
    (r : Store) (clock clock' : nat → Z) (message : string) (type : Intent)
    (cmds : list Cmd) (p : Pending) (res : Settled string) :
  handleSendMessage r clock message type = (cmds, Some p) →
  (clock 0%nat ≤ clock 1%nat)%Z →
  (clock 0%nat ≤ clock' 0%nat)%Z →
  ChatMessage.id (reply_of p res clock') ≠
    ChatMessage.id (userMessage (clock 0%nat) message).
Proof.
  intros (nb & _ & _ & _ & Hg & _)%handleSendMessage_inv H1 H2.
  unfold reply_of. rewrite Hg.
  destruct (generation_response _ res clock') as [m|e] eqn:E.
  - apply generate_fulfilled in E as [E _]. rewrite E. simpl.
    intros H%prefixed_id_inj. lia.
  - simpl. intros H%prefixed_id_inj. lia.
Qed.

(** X6. When the notebook is deleted while its request is in flight, the
    message that settles the request is still appended: the deleted log
    comes back, holding that one message, for an id that no notebook
    has. *)
Theorem reply_after_delete_leaves_a_log
    (sys : System) (clock clock' : nat → Z) (message : string) (type : Intent)
    (cmds : list Cmd) (p : Pending) (res : Settled string) :
  inFlight sys = [] →
  handleSendMessage (store sys) clock message type = (cmds, Some p) →
  let id := pending_notebookId p in
  let sys' :=
    steps [SendMessage clock message type; DeleteNotebook id; Settle res clock'] sys in
  chatHistory (store sys') !! id = Some [reply_of p res clock']
  ∧ (id ∉ map Notebook.id (notebooks (store sys')))
  ∧ inFlight sys' = []
  ∧ isLoading (store sys') = false.
Proof.
  intros Hfl E id sys'. subst sys'. unfold steps. simpl. rewrite E. simpl.
  rewrite Hfl. simpl.
  set (s1 := commit cmds (store sys)).
  set (s2 := commit (handleDeleteNotebook s1 id) s1).
  assert (notebooks s2 = filter (λ n, Notebook.id n ≠ id) (notebooks s1)
          ∧ chatHistory s2 = delete id (chatHistory s1)) as [Hn Hh].
  { destruct (handleDeleteNotebook_fields s1 id) as (<- & <- & _).
    split; apply selectFirstNotebook_frame. }
  rewrite commit_chatHistory, commit_isLoading.
  assert (notebooks (commit (resume p res clock') s2) = notebooks s2) as Hn'.
  { unfold commit. etrans; [apply selectFirstNotebook_frame|].
    unfold resume. by rewrite run_settle. }
  rewrite Hn', Hn. unfold resume. rewrite run_settle. simpl.
  rewrite lookup_insert_eq, Hh, lookup_delete_eq. simpl.
  split; [done|]. split; [apply filter_ne_not_elem|done].
Qed.
End Replies.

Lemma reply_matches_intent_witness :
  let m := ChatMessage.mk (msg_id 5) Role.model "Here is a summary of the sources:"
             SUMMARY (Some (JString "Short.")) in
  ChatMessage.id m = msg_id 5
  ∧ ChatMessage.role m = Role.model
  ∧ ChatMessage.contentType m = SUMMARY
  ∧ ChatMessage.contentType m ≠ ERROR
  ∧ (ChatMessage.contentData m = None ↔ action summary = chat).
Proof.
  apply (reply_matches_intent (svc := geminiService.service) (action summary) []
           "Generate summary for this notebook." (msg_id 5) (Fulfilled "Short.")
           example_clock).
  reflexivity.
Defined.

Lemma reply_id_differs_from_user_id_witness :
  ∃ cmds p,
    handleSendMessage (svc := geminiService.service) example_store_with_source
      example_clock "What is the capital of France?" chat = (cmds, Some p)
    ∧ ChatMessage.id (reply_of p (Fulfilled "Paris.") example_clock') ≠
        ChatMessage.id (userMessage 1700000000100 "What is the capital of France?").
Proof.
  eexists _, _. split; [reflexivity|].
  eapply (reply_id_differs_from_user_id (svc := geminiService.service)
            example_store_with_source example_clock);
    [reflexivity|by vm_compute|by vm_compute].
Defined.

Lemma reply_after_delete_leaves_a_log_witness :
  let sys' :=
    steps (svc := geminiService.service)
      [ SendMessage example_clock "What is the capital of France?" chat;
        DeleteNotebook (notebook_id 1);
        Settle (Fulfilled "Paris.") example_clock' ]
      (boot example_store_with_source) in
  chatHistory (store sys') !! notebook_id 1 =
    Some [ChatMessage.mk (msg_id 1700000000102) Role.model "Paris." TEXT None]
  ∧ (notebook_id 1 ∉ map Notebook.id (notebooks (store sys')))
  ∧ inFlight sys' = []
  ∧ isLoading (store sys') = false.
Proof.
  exact (reply_after_delete_leaves_a_log (svc := geminiService.service)
           (boot example_store_with_source) example_clock example_clock'
           "What is the capital of France?" chat _ _ (Fulfilled "Paris.")
           eq_refl eq_refl).
Defined.

(** ** The ids of the flashcards *)

Lemma get_set_prop_eq k v fields : get_prop k (set_prop k v fields) = Some v.
Proof.
  induction fields as [|[k' v'] fields IH]; simpl.
  - by rewrite decide_True.
  - destruct (decide (k' = k)) as [->|Hne]; simpl.
    + by rewrite decide_True.
    + by rewrite decide_False.
Qed.

Lemma get_set_prop_ne k k' v fields :
  k' ≠ k → get_prop k' (set_prop k v fields) = get_prop k' fields.
Proof.
  intros Hne. induction fields as [|[k0 v0] fields IH]; simpl.
  - by rewrite decide_False.
  - destruct (decide (k0 = k)) as [->|Hk]; simpl.
    + by rewrite !decide_False.
    + destruct (decide (k0 = k')); [done|apply IH].
Qed.

Lemma lacks_pretty_N_go (x : N) (s : string) :
  lacks "_" s → lacks "_" (pretty_N_go x s).
Proof.
  revert s. induction (N.lt_wf_0 x) as [x _ IH]. intros s Hs.
  destruct (decide (x = 0)%N) as [->|Hx]; [done|].
  rewrite pretty_N_go_step by lia. apply IH; [apply N.div_lt; lia|].
  split; [|done]. unfold pretty_N_char. by repeat case_match.
Qed.

Lemma lacks_pretty_N (x : N) : lacks "_" (pretty x).
Proof.
  unfold pretty, pretty_N. case_decide; [by split|].
  by apply lacks_pretty_N_go.
Qed.

Lemma lacks_pretty_Z (x : Z) : lacks "_" (pretty x).
Proof.
  destruct x as [|p|p]; unfold pretty, pretty_Z; simpl.
  - by split.
  - apply lacks_pretty_N.
  - split; [done|apply lacks_pretty_N].
Qed.

(** A string is cut at its first [c] in one way only. *)
Lemma cut_at_first c a a' b b' :
  lacks c a → lacks c a' →
  a +:+ String c b = a' +:+ String c b' → a = a' ∧ b = b'.
Proof.
  revert a'. induction a as [|x a IH]; intros [|x' a']; simpl.
  - by intros _ _ [= ->].
  - intros _ [Hx _] [= -> _]. done.
  - intros [Hx _] _ [= -> _]. done.
  - intros [_ Ha] [_ Ha'] [= -> E]. destruct (IH a' Ha Ha' E) as [-> ->]. done.
Qed.

Lemma flashcard_id_inj now now' index index' :
  flashcard_id now index = flashcard_id now' index' → now = now' ∧ index = index'.
Proof.
  unfold flashcard_id. intros E. simplify_eq/=.
  apply (cut_at_first "_") in E as [E1 E2]; [|apply lacks_pretty_Z..].
  split; by apply (inj pretty).
Qed.

(** X7. On an array, [flashcardsWithIds] gives as many cards as it got:
    card [index] keeps its other properties and gets, in place of any [id]
    it had, the id named after the clock reading and [index]; whatever the
    clock reads, no two cards have the same id.  What is no array is
    rejected. *)
Theorem flashcards_get_distinct_ids (clock : nat → Z) (rawFlashcards : JSON) :
  match rawFlashcards with
  | JArray cards =>
      ∃ withIds,
        flashcardsWithIds clock rawFlashcards = Fulfilled (JArray withIds)
        ∧ length withIds = length cards
        ∧ (∀ index card, cards !! index = Some card →
             ∃ fields, withIds !! index = Some (JObject fields)
               ∧ get_prop "id" fields =
                   Some (JString (flashcard_id (clock index) index))
               ∧ ∀ k, k ≠ "id" →
                   get_prop k fields = get_prop k (own_properties card))
        ∧ (∀ i j fi fj,
             withIds !! i = Some (JObject fi) →
             withIds !! j = Some (JObject fj) →
             get_prop "id" fi = get_prop "id" fj → i = j)
  | _ => ∃ e, flashcardsWithIds clock rawFlashcards = Rejected e
  end.
Proof.
  destruct rawFlashcards as [| | | |cards|]; try by eexists.
  eexists. split; [reflexivity|]. unfold map_indexed.
  split; [by rewrite length_imap|]. split.
  - intros index card Hc. eexists. rewrite list_lookup_imap, Hc. simpl.
    split; [done|]. split; [apply get_set_prop_eq|].
    intros k Hk. by apply get_set_prop_ne.
  - intros i j fi fj. rewrite !list_lookup_imap.
    destruct (cards !! i) as [ci|]; [|done].
    destruct (cards !! j) as [cj|]; [|done]. simpl.
    intros [= <-] [= <-]. rewrite !get_set_prop_eq.
    intros E.
    assert (flashcard_id (clock i) i = flashcard_id (clock j) j) as E'
      by congruence.
    by apply flashcard_id_inj in E' as [_ ?].
Qed.

(** ** The notebooks and the active id *)

Lemma update_notebook_ids id f l :
  (∀ n, Notebook.id (f n) = Notebook.id n) →
  map Notebook.id (update_notebook id f l) = map Notebook.id l.
Proof.
  intros Hf. unfold update_notebook. rewrite map_map. apply map_ext.
  intros n. by case_decide.
Qed.

Lemma registry_inv_frame s s' :
  map Notebook.id (notebooks s') = map Notebook.id (notebooks s) →
  activeNotebookId s' = activeNotebookId s →
  registry_inv s → registry_inv s'.
Proof.
  unfold registry_inv. intros Hn Ha. rewrite Hn, Ha.
  intros (? & ? & H). do 2 (split; [done|]).
  destruct (activeNotebookId s); [done|].
  rewrite H in Hn. by destruct (notebooks s').
Qed.

(** The effect finds nothing to do in a state that satisfies the
    invariant. *)
Lemma registry_inv_commit cmds s :
  registry_inv (run cmds s) → commit cmds s = run cmds s.
Proof.
  unfold commit, registry_inv, selectFirstNotebook.
  destruct (run cmds s) as [nbs a h l c d]. simpl. intros (_ & Hne & Ha).
  destruct nbs as [|n nbs]; [done|]. destruct a as [i|]; [|done].
  rewrite bool_decide_eq_false_2; [done|]. by intros ->.
Qed.

Lemma registry_inv_find s :
  registry_inv s → notebooks s ≠ [] →
  ∃ n, activeNotebook s = Some n ∧ Some (Notebook.id n) = activeNotebookId s.
Proof.
  unfold registry_inv, activeNotebook. intros (_ & _ & Ha) Hne.
  destruct (activeNotebookId s) as [i|]; [|done].
  destruct (find _ (notebooks s)) as [n|] eqn:E.
  - exists n. split; [done|]. apply find_some in E as [_ E].
    by apply bool_decide_eq_true in E as ->.
  - to_fmap. apply list_elem_of_fmap in Ha as (n & -> & Hin).
    apply list_elem_of_In in Hin.
    pose proof (find_none _ _ E n Hin) as Hf. simpl in Hf.
    by rewrite bool_decide_eq_true_2 in Hf.
Qed.

Lemma notebook_id_nonempty now : notebook_id now ≠ EmptyString.
Proof. done. Qed.

Section Registry.
Context {svc : GeminiService}.

Lemma registry_inv_step (e : Event) (sys : System) :
  registry_inv (store sys) → ui_event (store sys) e →
  registry_inv (store (step e sys)).
Proof.
  intros Hinv He.
  assert (∀ cmds, registry_inv (run cmds (store sys)) →
                  registry_inv (commit cmds (store sys))) as Hc
    by (intros cmds H; by rewrite registry_inv_commit).
  assert (∀ cmds,
            map Notebook.id (notebooks (run cmds (store sys))) =
              map Notebook.id (notebooks (store sys)) →
            activeNotebookId (run cmds (store sys)) = activeNotebookId (store sys) →
            registry_inv (commit cmds (store sys))) as Hframe.
  { intros cmds H1 H2. apply Hc. by apply (registry_inv_frame (store sys)). }
  destruct Hinv as (Hnd & Hne & Ha).
  destruct e as [now createdAt title|id|id| | | |rd now nbId title content ty
                 |now createdAt nbId itemData|nbId itemId|clock message ty|res clock];
    simpl in *.
  - (* CreateNotebook *)
    apply Hc. unfold registry_inv, run. simpl. rewrite map_app. simpl.
    split; [|split].
    + apply NoDup_app. split; [done|]. split; [|apply NoDup_singleton].
      intros i Hi ->%list_elem_of_singleton. done.
    + intros [?|?%list_elem_of_singleton]%elem_of_app; [done|].
      by apply (notebook_id_nonempty now).
    + apply elem_of_app. right. by apply list_elem_of_singleton.
  - (* DeleteNotebook *)
    apply Hc. destruct (handleDeleteNotebook_fields (store sys) id) as (Hn & _ & Hp & _).
    unfold registry_inv. rewrite Hn, Hp, filter_ne_ids.
    split; [by apply NoDup_filter|].
    split; [by intros [_ ?]%list_elem_of_filter|].
    case_decide as Hact.
    + destruct (filter _ (notebooks (store sys))) as [|n l] eqn:E; [done|].
      simpl. rewrite <- filter_ne_ids, E. left.
    + destruct (activeNotebookId (store sys)) as [i|].
      * apply list_elem_of_filter. split; [congruence|done].
      * by rewrite Ha.
  - (* SelectNotebook *)
    apply Hc. unfold registry_inv, run. simpl. done.
  - by apply Hframe.
  - by apply Hframe.
  - by apply Hframe.
  - (* AddSource *)
    subst rd. simpl. apply Hframe; [|done]. unfold run. simpl.
    by apply update_notebook_ids.
  - apply Hframe; [|done]. unfold run. simpl. by apply update_notebook_ids.
  - apply Hframe; [|done]. unfold run. simpl. by apply update_notebook_ids.
  - (* SendMessage *)
    unfold handleSendMessage.
    destruct (activeNotebook (store sys)); [destruct (isLoading (store sys))|];
      simpl; by apply Hframe.
  - (* Settle *)
    destruct (inFlight sys) as [|p rest]; [done|]. simpl.
    apply Hframe; unfold resume; by rewrite run_settle.
Qed.

(** X8. From a state in which the notebooks have distinct ids and the
    active id names one of them, every run of events that the controls
    offer (a listed notebook is selected or deleted, a new notebook reads a
    clock value that names none yet, sources are added from the current
    render) ends in such a state: the ids stay distinct, the active id
    names a listed notebook whenever there is one, and [App] shows the
    editor or the chat of that notebook, never the placeholder. *)
Theorem active_id_names_a_notebook (es : list Event) (sys : System) :
  registry_inv (store sys) →
  ui_run es sys →
  let s := store (steps es sys) in
  registry_inv s
  ∧ NoDup (map Notebook.id (notebooks s))
  ∧ (notebooks s ≠ [] →
     ∃ n, activeNotebook s = Some n ∧ n ∈ notebooks s
       ∧ render s = (if isCreatingNotebook s then Editor false else Chat n))
  ∧ (notebooks s = [] → activeNotebookId s = None ∧ render s = Editor true).
Proof.
  revert sys. induction es as [|e es IH]; intros sys Hinv Hrun.
  - simpl. split; [done|]. split; [apply Hinv|]. split.
    + intros Hne. destruct (registry_inv_find _ Hinv Hne) as (n & Hn & _).
      exists n. split; [done|]. split.
      * unfold activeNotebook in Hn. destruct (activeNotebookId (store sys)); [|done].
        apply find_some in Hn as [Hn _]. by apply list_elem_of_In.
      * unfold render. rewrite Hn. by destruct (notebooks (store sys)).
    + intros E. unfold render. rewrite E. split; [|done].
      destruct Hinv as (_ & _ & Ha). rewrite E in Ha.
      destruct (activeNotebookId (store sys)); [|done]. by apply elem_of_nil in Ha.
  - destruct Hrun as [He Hrun]. apply (IH (step e sys)); [|done].
    by apply registry_inv_step.
Qed.
End Registry.

Lemma active_id_names_a_notebook_witness :
  let s := store (steps (svc := geminiService.service) example_run (boot initialStore)) in
  registry_inv s
  ∧ NoDup (map Notebook.id (notebooks s))
  ∧ (notebooks s ≠ [] →
     ∃ n, activeNotebook s = Some n ∧ n ∈ notebooks s
       ∧ render s = (if isCreatingNotebook s then Editor false else Chat n))
  ∧ (notebooks s = [] → activeNotebookId s = None ∧ render s = Editor true).
Proof.
  apply (active_id_names_a_notebook (svc := geminiService.service) example_run
           (boot initialStore)).
  - split; [apply NoDup_nil_2|]. split; [apply not_elem_of_nil|done].
  - simpl. split; [apply not_elem_of_nil|]. done.
Defined.

(** ** What the chat view sends *)

(** X9. Whatever the state of the view, an event sends something only
    while the busy flag is clear, and what it sends is one of two things:
    the text of the input, which is then not blank and is cleared, sent as
    [chat] from the text area or the send button of a notebook with
    sources; or the fixed sentence of an action, sent from its icon button
    (with sources) or from its entry of the open menu, which is closed. *)
Theorem view_send_characterised
    (p : ChatView.Props) (e : ChatView.UIEvent) (s s' : ChatView.State)
    (message : string) (type : Intent) :
  ChatView.step p e s = (s', Some (message, type)) →
  ChatView.isLoading p = false
  ∧ match type with
    | chat =>
        message = ChatView.input s
        ∧ trim message ≠ EmptyString
        ∧ ChatView.hasSources p = true
        ∧ s' = {| ChatView.input := EmptyString;
                  ChatView.showActions := ChatView.showActions s |}
        ∧ (e = ChatView.KeyDownEnter false ∨ e = ChatView.ClickSend)
    | action a =>
        message = "Generate " +:+ ActionType_toString a +:+ " for this notebook."
        ∧ s' = {| ChatView.input := ChatView.input s; ChatView.showActions := false |}
        ∧ ((e = ChatView.ClickButton a ∧ a ∈ ChatView.buttons
            ∧ ChatView.hasSources p = true)
           ∨ (e = ChatView.ClickMenu a ∧ a ∈ ChatView.actions
              ∧ ChatView.showActions s = true))
    end.
Proof.
  intros H.
  assert (ChatView.isLoading p = false) as Hl.
  { destruct (ChatView.isLoading p) eqn:E; [|done].
    pose proof (view_step_while_loading p e s E) as Hn. by rewrite H in Hn. }
  split; [done|].
  destruct e as [value|shiftKey| |a| |a|]; simpl in H;
    unfold ChatView.textarea_disabled, ChatView.button_disabled,
      ChatView.send_disabled, ChatView.handleSubmit, ChatView.handleSpecialAction in H;
    rewrite ?Hl in H; simpl in H; rewrite ?orb_false_r in H.
  - by destruct (negb (ChatView.hasSources p)).
  - destruct (ChatView.hasSources p) eqn:Hs; simpl in H; [|done].
    destruct shiftKey; [done|]. rewrite andb_true_r in H.
    destruct (bool_decide (trim (ChatView.input s) = EmptyString)) eqn:Ht;
      simpl in H; [done|]. injection H as <- <- <-.
    apply bool_decide_eq_false in Ht. by repeat split; [..|left].
  - destruct (bool_decide (trim (ChatView.input s) = EmptyString)) eqn:Ht;
      simpl in H; [done|].
    destruct (ChatView.hasSources p) eqn:Hs; simpl in H; [|done].
    injection H as <- <- <-.
    apply bool_decide_eq_false in Ht. by repeat split; [..|right].
  - destruct (ChatView.hasSources p) eqn:Hs; simpl in H; [|done].
    destruct (decide (a ∈ ChatView.buttons)); [|done].
    injection H as <- <- <-. split; [done|]. split; [done|]. by left.
  - by destruct (negb (ChatView.hasSources p)).
  - destruct (ChatView.showActions s) eqn:Hm; [|done].
    destruct (decide (a ∈ ChatView.actions)); [|done].
    injection H as <- <- <-. split; [done|]. split; [done|]. by right.
  - done.
Qed.

Lemma view_send_characterised_witness :
  ChatView.isLoading example_props_with_source = false
  ∧ "Why?" = "Why?"
  ∧ trim "Why?" ≠ EmptyString
  ∧ ChatView.hasSources example_props_with_source = true
  ∧ {| ChatView.input := EmptyString; ChatView.showActions := true |} =
      {| ChatView.input := EmptyString; ChatView.showActions := true |}
  ∧ (ChatView.ClickSend = ChatView.KeyDownEnter false
     ∨ ChatView.ClickSend = ChatView.ClickSend).
Proof.
  apply (view_send_characterised example_props_with_source ChatView.ClickSend
           {| ChatView.input := "Why?"; ChatView.showActions := true |} _ "Why?" chat).
  reflexivity.
Defined.

Lemma sources_kept_app seen es1 es2 :
  sources_kept seen (es1 ++ es2) →
  sources_kept (seen || existsb (λ pe, ChatView.hasSources pe.1) es1) es2.
Proof.
  revert seen. induction es1 as [|[p e] es1 IH]; intros seen; simpl.
  - by rewrite orb_false_r.
  - intros [_ H]. apply IH in H. by rewrite orb_assoc.
Qed.

(** Until a render has sources, the view stays as it was mounted. *)
Lemma session_before_sources es :
  existsb (λ pe, ChatView.hasSources pe.1) es = false →
  (ChatView.session es ChatView.mount).1 = ChatView.mount.
Proof.
  induction es as [|[p e] es IH]; [done|]. simpl.
  intros [Hp Hes]%orb_false_elim. rewrite step_without_sources by done.
  specialize (IH Hes). by destruct (ChatView.session es ChatView.mount).
Qed.

(** X10. In a session that starts at the mount of the view and whose
    renders never lose the sources, every message is sent from a render
    whose notebook has at least one source and whose busy flag is
    clear. *)
Theorem view_sends_need_sources
    (es1 es2 : list (ChatView.Props * ChatView.UIEvent))
    (p : ChatView.Props) (e : ChatView.UIEvent) (sent : ChatView.Sent) :
  sources_kept false (es1 ++ (p, e) :: es2) →
  (ChatView.step p e (ChatView.session es1 ChatView.mount).1).2 = Some sent →
  ChatView.hasSources p = true ∧ ChatView.isLoading p = false.
Proof.
  intros Hk Hs. split.
  - apply sources_kept_app in Hk. simpl in Hk. destruct Hk as [Hk _].
    destruct (existsb _ es1) eqn:Ex; [by apply Hk|].
    rewrite session_before_sources in Hs by done.
    destruct (ChatView.hasSources p) eqn:Hp; [done|].
    by rewrite step_without_sources in Hs.
  - destruct (ChatView.isLoading p) eqn:E; [|done].
    by rewrite view_step_while_loading in Hs.
Qed.

Lemma view_sends_need_sources_witness :
  ChatView.hasSources example_props_with_source = true
  ∧ ChatView.isLoading example_props_with_source = false.
Proof.
  apply (view_sends_need_sources
           [(example_props, ChatView.ClickGenerate);
            (example_props_with_source, ChatView.ClickGenerate)]
           [] example_props_with_source (ChatView.ClickMenu summary)
           ("Generate summary for this notebook.", action summary)).
  - by vm_compute.
  - reflexivity.
Defined.

(** * Files, URLs and the form that adds a source *)

(** ** File names *)

Lemma extension_chars_dot a b : extension_chars (a +:+ String "." b) = false.
Proof.
  induction a as [|c a IH]; simpl; [done|].
  rewrite IH. apply andb_false_r.
Qed.

Lemma is_extension_dot a b : is_extension (a +:+ String "." b) = false.
Proof. destruct a; [done|]. apply (extension_chars_dot (String _ _)). Qed.

Lemma stripExtension_append base ext :
  is_extension ext = true → stripExtension (base +:+ String "." ext) = base.
Proof.
  intros He. induction base as [|c base IH]; simpl.
  - by rewrite He.
  - by rewrite is_extension_dot, andb_false_r, IH.
Qed.

Lemma stripExtension_no_dot name : lacks "." name → stripExtension name = name.
Proof.
  induction name as [|c name IH]; [done|]. simpl. intros [Hc Hn].
  rewrite bool_decide_eq_false_2 by done. simpl. by rewrite IH.
Qed.

Lemma stripExtension_cut name :
  stripExtension name = name
  ∨ ∃ ext, is_extension ext = true
      ∧ name = stripExtension name +:+ String "." ext.
Proof.
  induction name as [|c name IH]; [by left|]. simpl.
  destruct (bool_decide (c = "."%char)) eqn:Hc; simpl.
  - apply bool_decide_eq_true in Hc as ->.
    destruct (is_extension name) eqn:He.
    + right. by exists name.
    + destruct IH as [->|(ext & ? & E)]; [by left|].
      right. exists ext. split; [done|]. by rewrite E at 1.
  - destruct IH as [->|(ext & ? & E)]; [by left|].
    right. exists ext. split; [done|]. by rewrite E at 1.
Qed.

(** X11. Removing the extension undoes appending one: after any base name,
    a dot and a non-empty extension without dot or slash, the base name
    comes back, whatever dots and slashes it holds itself.  A name is cut
    at most at one such extension, and a name without a dot is left as it
    is. *)
Theorem stripExtension_undoes_append (name : string) :
  (∀ ext, is_extension ext = true →
          stripExtension (name +:+ "." +:+ ext) = name)
  ∧ (stripExtension name = name
     ∨ ∃ ext, is_extension ext = true
         ∧ name = stripExtension name +:+ "." +:+ ext)
  ∧ (lacks "." name → stripExtension name = name).
Proof.
  split; [intros ext; apply stripExtension_append|].
  split; [apply stripExtension_cut|apply stripExtension_no_dot].
Qed.

Lemma toLowerCase_app a b : toLowerCase (a +:+ b) = toLowerCase a +:+ toLowerCase b.
Proof. induction a as [|c a IH]; simpl; [done|by rewrite IH]. Qed.

Lemma toLowerCase_char_dot c : toLowerCase_char c = "."%char ↔ c = "."%char.
Proof.
  destruct c as [[] [] [] [] [] [] [] []]; split; intros H; try done;
    vm_compute in H; done.
Qed.

Lemma split_lacks s : lacks "." s → split "." s = [s].
Proof.
  induction s as [|c s IH]; [done|]. simpl. intros [Hc Hs].
  rewrite decide_False by done. by rewrite IH.
Qed.

Lemma split_app a b :
  lacks "." b → ∃ piece pieces, split "." (a +:+ String "." b) = piece :: pieces ++ [b].
Proof.
  intros Hb. induction a as [|c a (piece & pieces & IH)]; simpl.
  - exists EmptyString, []. by rewrite split_lacks.
  - rewrite IH. destruct (decide (c = "."%char)).
    + by exists EmptyString, (piece :: pieces).
    + by exists (String c piece), pieces.
Qed.

Lemma last_split_app a b :
  lacks "." b → last (split "." (a +:+ String "." b)) = Some b.
Proof.
  intros (piece & pieces & ->)%(split_app a).
  by rewrite app_comm_cons, last_snoc.
Qed.

Lemma toLowerCase_char_slash c : toLowerCase_char c = "/"%char ↔ c = "/"%char.
Proof.
  destruct c as [[] [] [] [] [] [] [] []]; split; intros H; try done;
    vm_compute in H; done.
Qed.

Lemma extension_chars_toLowerCase s :
  extension_chars (toLowerCase s) = true → extension_chars s = true.
Proof.
  induction s as [|c s IH]; [done|]. simpl.
  intros [Hc Hs]%andb_true_iff. rewrite IH, andb_true_r by done.
  unfold extension_char in *.
  apply andb_true_iff in Hc as [H1%negb_true_iff%bool_decide_eq_false
                                H2%negb_true_iff%bool_decide_eq_false].
  rewrite toLowerCase_char_slash in H1. rewrite toLowerCase_char_dot in H2.
  by rewrite !bool_decide_eq_false_2.
Qed.

Lemma is_extension_toLowerCase s :
  is_extension (toLowerCase s) = true → is_extension s = true.
Proof. destruct s as [|c s]; [done|]. apply (extension_chars_toLowerCase (String c s)). Qed.

(** ** Reading a file *)

(** X12. A file whose name ends in a dot and [pdf], in any mix of upper
    and lower case, is read as a PDF whatever its MIME type says, and the
    source it gives is titled with what precedes that dot. *)
Theorem named_pdf_is_read_as_pdf
    (f : fileParserService.File) (base ext : string) :
  fileParserService.name f = base +:+ "." +:+ ext →
  toLowerCase ext = "pdf" →
  fileParserService.fileExtension f = Some "pdf"
  ∧ fileParserService.format f = fileParserService.pdf
  ∧ fileParserService.parseFile f =
      match fileParserService.parsePdf f with
      | Fulfilled content =>
          Fulfilled {| fileParserService.content := content;
                       fileParserService.title := base |}
      | Rejected e => Rejected e
      end.
Proof.
  intros Hn He.
  assert (is_extension ext = true) as Hx
    by (apply is_extension_toLowerCase; by rewrite He).
  assert (fileParserService.fileExtension f = Some "pdf") as Hf.
  { unfold fileParserService.fileExtension. rewrite Hn.
    change (base +:+ "." +:+ ext) with (base +:+ String "." ext).
    rewrite toLowerCase_app. simpl.
    change (String (toLowerCase_char ".") (toLowerCase ext))
      with (String "." (toLowerCase ext)).
    rewrite last_split_app; [by rewrite He|]. rewrite He. by vm_compute. }
  assert (fileParserService.format f = fileParserService.pdf) as Hfmt.
  { unfold fileParserService.format. rewrite Hf.
    rewrite (bool_decide_eq_true_2 (Some "pdf" = Some "pdf")) by done.
    by rewrite orb_true_r. }
  split; [done|]. split; [done|].
  unfold fileParserService.parseFile. rewrite Hfmt, Hn.
  change (base +:+ "." +:+ ext) with (base +:+ String "." ext).
  by rewrite stripExtension_append.
Qed.

Lemma named_pdf_is_read_as_pdf_witness :
  let f := {| fileParserService.name := "Annual.Report.PDF";
              fileParserService.type := "application/octet-stream";
              fileParserService.readAsText := Fulfilled "%PDF-1.7";
              fileParserService.readAsArrayBuffer :=
                Rejected {| message := "NotReadableError" |} |} in
  fileParserService.fileExtension f = Some "pdf"
  ∧ fileParserService.format f = fileParserService.pdf
  ∧ fileParserService.parseFile f = Rejected {| message := "NotReadableError" |}.
Proof.
  apply (named_pdf_is_read_as_pdf
           {| fileParserService.name := "Annual.Report.PDF";
              fileParserService.type := "application/octet-stream";
              fileParserService.readAsText := Fulfilled "%PDF-1.7";
              fileParserService.readAsArrayBuffer :=
                Rejected {| message := "NotReadableError" |} |}
           "Annual.Report" "PDF"); reflexivity.
Defined.

Lemma parseBuffer_rejected f failure extract e :
  fileParserService.parseBuffer f failure extract = Rejected e →
  fileParserService.readAsArrayBuffer f = Rejected e ∨ message e = failure.
Proof.
  unfold fileParserService.parseBuffer.
  destruct (fileParserService.readAsArrayBuffer f) as [b|e']; [|intros [= ->]; by left].
  destruct (extract b); [done|]. intros [= <-]. by right.
Qed.

Lemma parseFile_title f p :
  fileParserService.parseFile f = Fulfilled p →
  fileParserService.title p = stripExtension (fileParserService.name f).
Proof.
  unfold fileParserService.parseFile. by repeat case_match; intros [= <-].
Qed.

(** X13. [parseFile] turns no file down for its type: a file that matches
    no known format, like a plain text file, is fulfilled with the text the
    reader gives, as it is; the title is always the name without its
    extension.  When it rejects, the error is the one of the reader or
    carries one of the five messages of the service, and for a file of no
    known format it is the message about the file type, given exactly
    when the file cannot be read as text. *)
Theorem parseFile_outcomes (f : fileParserService.File) :
  (∀ p, fileParserService.parseFile f = Fulfilled p →
        fileParserService.title p = stripExtension (fileParserService.name f))
  ∧ (∀ text,
       fileParserService.readAsText f = Fulfilled text →
       fileParserService.format f = fileParserService.txt
       ∨ fileParserService.format f = fileParserService.fallback →
       fileParserService.parseFile f =
         Fulfilled {| fileParserService.content := text;
                      fileParserService.title :=
                        stripExtension (fileParserService.name f) |})
  ∧ (∀ e, fileParserService.parseFile f = Rejected e →
          fileParserService.readAsText f = Rejected e
          ∨ fileParserService.readAsArrayBuffer f = Rejected e
          ∨ message e ∈ fileParserService.failures)
  ∧ (fileParserService.format f = fileParserService.fallback →
     ∀ e, fileParserService.parseFile f = Rejected e ↔
          (∃ e', fileParserService.readAsText f = Rejected e')
          ∧ e = {| message :=
                "Unsupported file type. Please upload a .txt, .pdf, .docx, .pptx, or .xlsx file." |}).
Proof.
  unfold fileParserService.parseFile. split; [|split; [|split]].
  - intros p. apply parseFile_title.
  - intros text Ht [->| ->]; unfold fileParserService.parseTxt; by rewrite Ht.
  - intros e.
    destruct (fileParserService.format f);
      unfold fileParserService.parsePdf, fileParserService.parseDocx,
        fileParserService.parsePptx, fileParserService.parseXlsx,
        fileParserService.parseTxt;
      match goal with
      | |- context [fileParserService.parseBuffer f ?m ?x] =>
          destruct (fileParserService.parseBuffer f m x) as [v|e0] eqn:E;
          [done|]; intros [= ->];
          apply parseBuffer_rejected in E as [E|E]; [by right; left|];
          right; right; rewrite E; unfold fileParserService.failures;
          set_solver
      | _ => idtac
      end.
    + destruct (fileParserService.readAsText f); [done|]. intros [= ->]. by left.
    + destruct (fileParserService.readAsText f); [done|]. intros [= <-].
      right. right. unfold fileParserService.failures. simpl. set_solver.
  - intros H e. rewrite H. unfold fileParserService.parseTxt.
    destruct (fileParserService.readAsText f) as [t|e'].
    + split; [done|]. by intros [[e' ?] _].
    + split; [intros [= <-]; split; [by eexists|done]|by intros [_ ->]].
Qed.

Lemma parseFile_outcomes_witness :
  let f := {| fileParserService.name := "photo.png";
              fileParserService.type := "image/png";
              fileParserService.readAsText := Fulfilled "PNG";
              fileParserService.readAsArrayBuffer :=
                Rejected {| message := "NotReadableError" |} |} in
  fileParserService.parseFile f =
    Fulfilled {| fileParserService.content := "PNG";
                 fileParserService.title := "photo" |}.
Proof.
  intros f. apply (proj1 (proj2 (parseFile_outcomes f)) "PNG"); [reflexivity|by right].
Defined.

(** ** The form that adds a source *)

(** X14. Every source the form adds is of type [text], whatever the tab,
    and goes to the notebook of the form, which is then reset.  On the
    text tab it carries the title and the content typed, neither of them
    blank.  On the URL tab the content is what was fetched; on the file
    tab it is what [parseFile] gives, under the typed title, or under the
    name without extension when the title is empty; in these two cases the
    content is not examined. *)
Theorem form_adds_text_sources
    (notebookId : string) (fetched : string → Settled string)
    (s s' : AddSourceForm.State) (added : AddSourceForm.Added) :
  AddSourceForm.submit notebookId fetched s = (s', Some added) →
  AddSourceForm.added_type added = SourceType.text
  ∧ AddSourceForm.added_notebookId added = notebookId
  ∧ s' = AddSourceForm.resetForm s
  ∧ match AddSourceForm.sourceType s with
    | AddSourceForm.Tab.text =>
        AddSourceForm.added_title added = AddSourceForm.title s
        ∧ AddSourceForm.added_content added = AddSourceForm.content s
        ∧ trim (AddSourceForm.title s) ≠ EmptyString
        ∧ trim (AddSourceForm.content s) ≠ EmptyString
    | AddSourceForm.Tab.url =>
        AddSourceForm.added_title added = AddSourceForm.title s
        ∧ fetched (AddSourceForm.content s) =
            Fulfilled (AddSourceForm.added_content added)
        ∧ trim (AddSourceForm.title s) ≠ EmptyString
        ∧ trim (AddSourceForm.content s) ≠ EmptyString
    | AddSourceForm.Tab.file =>
        ∃ f, AddSourceForm.file s = Some f
          ∧ fileParserService.parseFile f =
              Fulfilled
                {| fileParserService.content := AddSourceForm.added_content added;
                   fileParserService.title :=
                     stripExtension (fileParserService.name f) |}
          ∧ AddSourceForm.added_title added =
              (if decide (AddSourceForm.title s = EmptyString)
               then stripExtension (fileParserService.name f)
               else AddSourceForm.title s)
    end.
Proof.
  unfold AddSourceForm.submit, AddSourceForm.handleSubmit.
  destruct s as [tab title content file isParsing error]. simpl.
  destruct tab; simpl.
  - destruct (bool_decide (trim title = EmptyString)) eqn:Ht; simpl; [done|].
    destruct (bool_decide (trim content = EmptyString)) eqn:Hc; simpl; [done|].
    intros [= <- <-]. simpl.
    apply bool_decide_eq_false in Ht, Hc. done.
  - destruct (bool_decide (trim title = EmptyString)) eqn:Ht; simpl; [done|].
    destruct (bool_decide (trim content = EmptyString)) eqn:Hc; simpl; [done|].
    unfold AddSourceForm.resumeFetchUrlContent.
    destruct (fetched content) as [fetchedContent|err]; [|done].
    intros [= <- <-]. simpl.
    apply bool_decide_eq_false in Ht, Hc. done.
  - destruct file as [f|]; simpl; [|done].
    unfold AddSourceForm.resumeParseFile.
    destruct (fileParserService.parseFile f) as [parsed|err] eqn:E; [|done].
    intros [= <- <-]. simpl. do 3 (split; [done|]). exists f. split; [done|].
    pose proof (parseFile_title f parsed E) as Ht.
    destruct parsed as [c t]. simpl in *. subst t. done.
Qed.

Lemma form_adds_text_sources_witness :
  let s := {| AddSourceForm.sourceType := AddSourceForm.Tab.url;
              AddSourceForm.title := "Site";
              AddSourceForm.content := "https://example.com";
              AddSourceForm.file := None; AddSourceForm.isParsing := false;
              AddSourceForm.error := None |} in
  let added := {| AddSourceForm.added_notebookId := notebook_id 1;
                  AddSourceForm.added_title := "Site";
                  AddSourceForm.added_content := "Example Domain";
                  AddSourceForm.added_type := SourceType.text |} in
  AddSourceForm.submit (notebook_id 1) (λ _, Fulfilled "Example Domain") s =
    (AddSourceForm.resetForm s, Some added)
  ∧ AddSourceForm.added_type added = SourceType.text.
Proof.
  intros s added. split; [reflexivity|].
  apply (form_adds_text_sources (notebook_id 1) (λ _, Fulfilled "Example Domain")
           s (AddSourceForm.resetForm s) added).
  reflexivity.
Defined.

(** X15. A submission that adds nothing keeps the tab, the title, the
    content and the file as they were.  It is silent only when the title
    or the content of the text or URL tab is blank; in every other case
    the form shows an error message, which is never empty, and a
    submission that waited for a file or a URL leaves the form idle. *)
Theorem form_failure_keeps_fields
    (notebookId : string) (fetched : string → Settled string)
    (s s' : AddSourceForm.State) :
  AddSourceForm.submit notebookId fetched s = (s', None) →
  AddSourceForm.sourceType s' = AddSourceForm.sourceType s
  ∧ AddSourceForm.title s' = AddSourceForm.title s
  ∧ AddSourceForm.content s' = AddSourceForm.content s
  ∧ AddSourceForm.file s' = AddSourceForm.file s
  ∧ match AddSourceForm.error s' with
    | None =>
        AddSourceForm.sourceType s ≠ AddSourceForm.Tab.file
        ∧ (trim (AddSourceForm.title s) = EmptyString
           ∨ trim (AddSourceForm.content s) = EmptyString)
        ∧ AddSourceForm.isParsing s' = AddSourceForm.isParsing s
    | Some msg =>
        msg ≠ EmptyString
        ∧ (AddSourceForm.isParsing s' = false
           ∨ (AddSourceForm.sourceType s = AddSourceForm.Tab.file
              ∧ AddSourceForm.file s = None
              ∧ AddSourceForm.isParsing s' = AddSourceForm.isParsing s))
    end.
Proof.
  assert (∀ err fallback, fallback ≠ EmptyString →
            AddSourceForm.message_or err fallback ≠ EmptyString) as Hm.
  { intros err fallback Hf. unfold AddSourceForm.message_or. by case_decide. }
  unfold AddSourceForm.submit, AddSourceForm.handleSubmit.
  destruct s as [tab title content file isParsing error]. simpl.
  destruct tab; simpl.
  - destruct (bool_decide (trim title = EmptyString)) eqn:Ht; simpl.
    + intros [= <-]. simpl. apply bool_decide_eq_true in Ht.
      do 4 (split; [done|]). split; [done|]. split; [by left|done].
    + destruct (bool_decide (trim content = EmptyString)) eqn:Hc; simpl; [|done].
      intros [= <-]. simpl. apply bool_decide_eq_true in Hc.
      do 4 (split; [done|]). split; [done|]. split; [by right|done].
  - destruct (bool_decide (trim title = EmptyString)) eqn:Ht; simpl.
    + intros [= <-]. simpl. apply bool_decide_eq_true in Ht.
      do 4 (split; [done|]). split; [done|]. split; [by left|done].
    + destruct (bool_decide (trim content = EmptyString)) eqn:Hc; simpl.
      * intros [= <-]. simpl. apply bool_decide_eq_true in Hc.
      do 4 (split; [done|]). split; [done|]. split; [by right|done].
      * unfold AddSourceForm.resumeFetchUrlContent.
        destruct (fetched content) as [fetchedContent|err]; [done|].
        intros [= <-]. simpl. do 4 (split; [done|]).
        split; [by apply Hm|by left].
  - destruct file as [f|]; simpl.
    + unfold AddSourceForm.resumeParseFile.
      destruct (fileParserService.parseFile f) as [parsed|err]; [done|].
      intros [= <-]. simpl. do 4 (split; [done|]).
      split; [by apply Hm|by left].
    + intros [= <-]. simpl. do 4 (split; [done|]). split; [done|]. by right.
Qed.

Lemma form_failure_keeps_fields_witness :
  let s := {| AddSourceForm.sourceType := AddSourceForm.Tab.url;
              AddSourceForm.title := "Site";
              AddSourceForm.content := "https://example.com";
              AddSourceForm.file := None; AddSourceForm.isParsing := false;
              AddSourceForm.error := None |} in
  let s' := (AddSourceForm.submit (notebook_id 1)
               (λ _, Rejected {| message := EmptyString |}) s).1 in
  AddSourceForm.error s' =
    Some "Failed to fetch from URL. It may be blocked due to security policies (CORS)."
  ∧ AddSourceForm.title s' = "Site".
Proof.
  intros s s'. split; [reflexivity|].
  apply (form_failure_keeps_fields (notebook_id 1)
           (λ _, Rejected {| message := EmptyString |}) s s').
  reflexivity.
Defined.

(** ** A source added by a handler of an earlier render *)

(** X16. [handleAddSourceToNotebook] writes the notebooks of the render
    it was created in.  When it is called in a later state, as happens
    after the form has awaited a file or a URL, the notebooks become those
    of that earlier render with the source appended: a notebook created
    since is gone, a notebook deleted since is back, and nothing else of
    the current state is touched. *)
Theorem late_add_source_discards_changes
    (r s : Store) (now : Z) (notebookId title content : string)
    (type : SourceType.t) :
  let cmds := handleAddSourceToNotebook r now notebookId title content type in
  let s' := run cmds s in
  notebooks s' = notebooks (run cmds r)
  ∧ same_but_notebooks s s'
  ∧ map Notebook.id (notebooks s') = map Notebook.id (notebooks r)
  ∧ (∀ n, n ∈ notebooks s →
          Notebook.id n ∉ map Notebook.id (notebooks r) → n ∉ notebooks s')
  ∧ (∀ n, n ∈ notebooks r →
          ∃ n', n' ∈ notebooks s' ∧ Notebook.id n' = Notebook.id n
            ∧ Notebook.sources n' =
                (if decide (Notebook.id n = notebookId)
                 then Notebook.sources n
                        ++ [Source.mk (source_id now) type title content]
                 else Notebook.sources n)).
Proof.
  intros cmds s'.
  set (f := λ n : Notebook.t, Notebook.with_sources n
              (Notebook.sources n ++ [Source.mk (source_id now) type title content])).
  assert (notebooks s' = update_notebook notebookId f (notebooks r)) as Hn by done.
  assert (notebooks (run cmds r) = update_notebook notebookId f (notebooks r)) as Hr
    by done.
  assert (map Notebook.id (update_notebook notebookId f (notebooks r)) =
            map Notebook.id (notebooks r)) as Hids
    by by apply update_notebook_ids.
  rewrite Hn, Hr.
  split; [done|]. split; [done|]. split; [done|]. split.
  - intros n Hn' Hid Hin. apply Hid. rewrite <- Hids. to_fmap.
    apply list_elem_of_fmap. by exists n.
  - intros n Hn'. apply list_elem_of_lookup in Hn' as [i Hi].
    pose proof (update_notebook_lookup notebookId f _ _ _ Hi) as Hl.
    eexists. split; [by eapply list_elem_of_lookup_2|].
    by case_decide.
Qed.

(** ** Creating a notebook *)

Lemma find_app_fresh (i : string) (l : list Notebook.t) (new : Notebook.t) :
  i ∉ map Notebook.id l → Notebook.id new = i →
  find (λ n, bool_decide (Notebook.id n = i)) (l ++ [new]) = Some new.
Proof.
  induction l as [|n l IH]; simpl.
  - intros _ ->. by rewrite bool_decide_eq_true_2.
  - intros [? ?]%not_elem_of_cons ?.
    rewrite bool_decide_eq_false_2 by done. by apply IH.
Qed.

(** X17. The editor passes on a title only when it is not blank, and
    passes it as typed.  The notebook then created comes last in the list,
    has no sources and no saved items, becomes the active one and gets an
    empty log, and the editor is left; when the clock reading names no
    earlier notebook, [App] shows the chat of the new notebook. *)
Theorem created_notebook_is_opened
    (s : Store) (now : Z) (createdAt field : string) :
  match SourceEditor.handleSave field with
  | (field', Some title) =>
      let newNotebook := Notebook.mk (notebook_id now) title [] createdAt (Some []) in
      let s' := commit (handleCreateNotebook s now createdAt title) s in
      title = field
      ∧ trim title ≠ EmptyString
      ∧ field' = EmptyString
      ∧ notebooks s' = notebooks s ++ [newNotebook]
      ∧ activeNotebookId s' = Some (notebook_id now)
      ∧ chatHistory s' = <[notebook_id now := []]> (chatHistory s)
      ∧ activeChatHistory s' = []
      ∧ isCreatingNotebook s' = false
      ∧ (notebook_id now ∉ map Notebook.id (notebooks s) →
         render s' = Chat newNotebook)
  | (field', None) => field' = field ∧ trim field = EmptyString
  end.
Proof.
  unfold SourceEditor.handleSave.
  destruct (bool_decide (trim field = EmptyString)) eqn:Ht; simpl.
  { by apply bool_decide_eq_true in Ht. }
  apply bool_decide_eq_false in Ht. do 3 (split; [done|]).
  assert (commit (handleCreateNotebook s now createdAt field) s =
            run (handleCreateNotebook s now createdAt field) s) as ->.
  { unfold commit, selectFirstNotebook, run. simpl.
    by destruct (notebooks s ++ _). }
  unfold run. simpl. do 2 (split; [done|]). split; [done|]. split.
  - unfold activeChatHistory. simpl. by rewrite lookup_insert_eq.
  - split; [done|]. intros Hfresh. unfold render, activeNotebook. simpl.
    rewrite find_app_fresh by done. by destruct (notebooks s).
Qed.

(** ** Choosing a file *)

(** X28. Choosing a file fills the title with the name of the file
    without its extension, keeps the file and clears the error; a change
    event without a file changes nothing.  On the file tab the submit
    button is then enabled exactly when the form is idle and that title is
    not blank, and submitting the form as it is adds what [parseFile] gives
    under that title. *)
Theorem chosen_file_is_titled_by_its_name
    (notebookId : string) (fetched : string → Settled string)
    (s : AddSourceForm.State) (f : fileParserService.File) :
  let s1 := AddSourceForm.handleFileChange (Some f) s in
  AddSourceForm.title s1 = stripExtension (fileParserService.name f)
  ∧ AddSourceForm.file s1 = Some f
  ∧ AddSourceForm.error s1 = None
  ∧ AddSourceForm.sourceType s1 = AddSourceForm.sourceType s
  ∧ AddSourceForm.content s1 = AddSourceForm.content s
  ∧ AddSourceForm.handleFileChange None s = s
  ∧ (AddSourceForm.sourceType s = AddSourceForm.Tab.file →
     (AddSourceForm.submit_disabled s1 = false ↔
      AddSourceForm.isParsing s = false
      ∧ trim (stripExtension (fileParserService.name f)) ≠ EmptyString)
     ∧ ∀ parsed,
         fileParserService.parseFile f = Fulfilled parsed →
         AddSourceForm.submit notebookId fetched s1 =
           (AddSourceForm.resetForm s1,
            Some {| AddSourceForm.added_notebookId := notebookId;
                    AddSourceForm.added_title :=
                      stripExtension (fileParserService.name f);
                    AddSourceForm.added_content := fileParserService.content parsed;
                    AddSourceForm.added_type := SourceType.text |})).
Proof.
  intros s1. do 6 (split; [done|]). intros Htab. split.
  - unfold AddSourceForm.submit_disabled. subst s1. simpl. rewrite Htab.
    rewrite orb_false_r.
    destruct (AddSourceForm.isParsing s); simpl; [by split; [|intros [? _]]|].
    destruct (bool_decide (trim (stripExtension (fileParserService.name f)) = EmptyString))
      eqn:E.
    + apply bool_decide_eq_true in E. by split; [|intros [_ ?]].
    + by apply bool_decide_eq_false in E.
  - intros parsed Hp. unfold AddSourceForm.submit, AddSourceForm.handleSubmit.
    subst s1. simpl. rewrite Htab. simpl. rewrite Hp. simpl.
    rewrite (parseFile_title f parsed Hp). by case_decide.
Qed.

Lemma chosen_file_is_titled_by_its_name_witness :
  let f := {| fileParserService.name := "notes.txt";
              fileParserService.type := "text/plain";
              fileParserService.readAsText := Fulfilled "Paris is the capital of France.";
              fileParserService.readAsArrayBuffer :=
                Rejected {| message := "NotReadableError" |} |} in
  let s := {| AddSourceForm.sourceType := AddSourceForm.Tab.file;
              AddSourceForm.title := EmptyString;
              AddSourceForm.content := EmptyString;
              AddSourceForm.file := None; AddSourceForm.isParsing := false;
              AddSourceForm.error := None |} in
  let s1 := AddSourceForm.handleFileChange (Some f) s in
  AddSourceForm.submit_disabled s1 = false
  ∧ AddSourceForm.submit (notebook_id 1) (λ _, Fulfilled EmptyString) s1 =
      (AddSourceForm.resetForm s1,
       Some {| AddSourceForm.added_notebookId := notebook_id 1;
               AddSourceForm.added_title := "notes";
               AddSourceForm.added_content := "Paris is the capital of France.";
               AddSourceForm.added_type := SourceType.text |}).
Proof.
  intros f s s1.
  destruct (chosen_file_is_titled_by_its_name (notebook_id 1)
              (λ _, Fulfilled EmptyString) s f)
    as (_ & _ & _ & _ & _ & _ & H).
  destruct (H eq_refl) as [Hd Hs]. split.
  - apply Hd. by vm_compute.
  - by apply (Hs {| fileParserService.content := "Paris is the capital of France.";
                    fileParserService.title := "notes" |}).
Defined.

(** * The viewers of generated content *)

(** ** The flashcard viewer *)

Section FlashcardViewer.
Context {Flashcard : Type}.
Variable flashcards : list Flashcard.

Lemma render_in_deck s :
  (FlashcardViewerModal.currentIndex s < length flashcards)%nat →
  FlashcardViewerModal.render flashcards s = FlashcardViewerModal.Showing s.
Proof.
  intros H. unfold FlashcardViewerModal.render, FlashcardViewerModal.currentCard.
  by destruct (lookup_lt_is_Some_2 flashcards _ H) as [card ->].
Qed.

Lemma handleNext_in_deck s :
  (FlashcardViewerModal.currentIndex s < length flashcards)%nat →
  (FlashcardViewerModal.currentIndex (FlashcardViewerModal.handleNext flashcards s)
     < length flashcards)%nat.
Proof.
  unfold FlashcardViewerModal.handleNext. intros H.
  destruct (Z.ltb_spec (Z.of_nat (FlashcardViewerModal.currentIndex s))
              (Z.of_nat (length flashcards) - 1)); [|done].
  simpl. lia.
Qed.

Lemma handlePrev_in_deck s :
  (FlashcardViewerModal.currentIndex s < length flashcards)%nat →
  (FlashcardViewerModal.currentIndex (FlashcardViewerModal.handlePrev s)
     < length flashcards)%nat.
Proof.
  unfold FlashcardViewerModal.handlePrev. intros H.
  destruct (Z.ltb_spec 0 (Z.of_nat (FlashcardViewerModal.currentIndex s))); [|done].
  simpl. lia.
Qed.

(** An event on a viewer that shows a card of the deck closes it or shows
    a card of the deck. *)
Lemma viewer_inv_step e s :
  (FlashcardViewerModal.currentIndex s < length flashcards)%nat →
  viewer_inv flashcards (FlashcardViewerModal.step flashcards e s).
Proof.
  intros H.
  assert (∀ s0, (FlashcardViewerModal.currentIndex s0 < length flashcards)%nat →
            viewer_inv flashcards (FlashcardViewerModal.render flashcards s0)) as Hr.
  { intros s0 H0. by rewrite render_in_deck. }
  destruct e as [key| | | |]; simpl; [| | | |done].
  - destruct (bool_decide (key = "Escape")); [done|]. apply Hr.
    assert (∀ s0, (FlashcardViewerModal.currentIndex s0 < length flashcards)%nat →
              (FlashcardViewerModal.currentIndex
                 (if FlashcardViewerModal.is_flip_key key
                  then FlashcardViewerModal.flip s0 else s0) < length flashcards)%nat)
      as Hf by (intros s0 ?; by destruct (FlashcardViewerModal.is_flip_key key)).
    apply Hf.
    destruct (bool_decide (key = "ArrowLeft"));
      destruct (bool_decide (key = "ArrowRight"));
      auto using handleNext_in_deck, handlePrev_in_deck.
  - by apply Hr.
  - apply Hr. destruct (FlashcardViewerModal.prev_disabled s);
      auto using handlePrev_in_deck.
  - apply Hr. destruct (FlashcardViewerModal.next_disabled flashcards s);
      auto using handleNext_in_deck.
Qed.

Lemma viewer_inv_run es v :
  viewer_inv flashcards v → viewer_inv flashcards (FlashcardViewerModal.run flashcards es v).
Proof.
  revert v. induction es as [|e es IH]; intros v H; [by destruct v|].
  destruct v as [s| |]; simpl; [|done..].
  apply IH. by apply viewer_inv_step.
Qed.

(** Once a render has thrown, no event reaches the viewer. *)
Lemma run_thrown es :
  FlashcardViewerModal.run flashcards es FlashcardViewerModal.Thrown =
    FlashcardViewerModal.Thrown.
Proof. by destruct es. Qed.

(** X18. The viewer opened on an empty deck throws in its first render,
    where it reads the term of a card that is not there, and nothing is
    shown from then on.  The viewer opened on a deck that is not empty
    shows its first card, and no key and no click makes a render throw:
    until it is closed it always shows a current card, so that the counter
    stays between 1 and the number of cards; going to another card shows
    its front, and stepping forward and back returns to the same card. *)
Theorem viewer_always_has_a_card (es : list FlashcardViewerModal.Event) :
  (flashcards = [] →
   FlashcardViewerModal.opened flashcards = FlashcardViewerModal.Thrown
   ∧ FlashcardViewerModal.run flashcards es (FlashcardViewerModal.opened flashcards) =
       FlashcardViewerModal.Thrown)
  ∧ (flashcards ≠ [] →
     FlashcardViewerModal.opened flashcards =
       FlashcardViewerModal.Showing FlashcardViewerModal.mount
     ∧ FlashcardViewerModal.run flashcards es (FlashcardViewerModal.opened flashcards) ≠
         FlashcardViewerModal.Thrown)
  ∧ (∀ s,
       FlashcardViewerModal.run flashcards es (FlashcardViewerModal.opened flashcards) =
         FlashcardViewerModal.Showing s →
       is_Some (FlashcardViewerModal.currentCard flashcards s)
       ∧ (1 ≤ FlashcardViewerModal.currentIndex s + 1 ≤ length flashcards)%nat
       ∧ (∀ e, FlashcardViewerModal.step flashcards e s ≠ FlashcardViewerModal.Thrown)
       ∧ (∀ e s',
            FlashcardViewerModal.step flashcards e s = FlashcardViewerModal.Showing s' →
            FlashcardViewerModal.currentIndex s' ≠ FlashcardViewerModal.currentIndex s →
            FlashcardViewerModal.isFlipped s' = false)
       ∧ ((FlashcardViewerModal.currentIndex s + 1 < length flashcards)%nat →
          FlashcardViewerModal.currentIndex
            (FlashcardViewerModal.handlePrev
               (FlashcardViewerModal.handleNext flashcards s)) =
          FlashcardViewerModal.currentIndex s)).
Proof.
  assert (flashcards ≠ [] →
          viewer_inv flashcards
            (FlashcardViewerModal.run flashcards es (FlashcardViewerModal.opened flashcards)))
    as Hinv.
  { intros Hne. apply viewer_inv_run. unfold FlashcardViewerModal.opened.
    rewrite render_in_deck; simpl; [|destruct flashcards; [done|simpl; lia]].
    destruct flashcards; [done|simpl; lia]. }
  split; [|split].
  - intros Hnil.
    assert (FlashcardViewerModal.opened flashcards = FlashcardViewerModal.Thrown) as ->
      by (by rewrite Hnil).
    split; [done|apply run_thrown].
  - intros Hne. split.
    + unfold FlashcardViewerModal.opened. apply render_in_deck.
      destruct flashcards; [done|simpl; lia].
    + intros Ht. specialize (Hinv Hne). by rewrite Ht in Hinv.
  - intros s Hrun.
    assert (FlashcardViewerModal.currentIndex s < length flashcards)%nat as Hlt.
    { destruct (decide (flashcards = [])) as [Hnil|Hne].
      - exfalso. revert Hrun.
        assert (FlashcardViewerModal.opened flashcards = FlashcardViewerModal.Thrown) as ->
          by (by rewrite Hnil).
        by rewrite run_thrown.
      - specialize (Hinv Hne). by rewrite Hrun in Hinv. }
    split; [by apply lookup_lt_is_Some_2|]. split; [lia|]. split; [|split].
    + intros e He. pose proof (viewer_inv_step e s Hlt) as H. by rewrite He in H.
    + intros e s'.
      unfold FlashcardViewerModal.step, FlashcardViewerModal.render,
        FlashcardViewerModal.handleNext,
        FlashcardViewerModal.handlePrev, FlashcardViewerModal.is_flip_key.
      destruct e as [key| | | |]; [| | | |done].
      * destruct (decide (key = "Escape")) as [->|];
          [done|rewrite (bool_decide_eq_false_2 (key = "Escape")) by done].
        destruct (decide (key = "ArrowRight")) as [->|Hr].
        { simpl. case_match; [|done]. intros [= <-]. by case_match. }
        rewrite (bool_decide_eq_false_2 (key = "ArrowRight")) by done.
        destruct (decide (key = "ArrowLeft")) as [->|Hl].
        { simpl. case_match; [|done]. intros [= <-]. by case_match. }
        rewrite (bool_decide_eq_false_2 (key = "ArrowLeft")) by done.
        case_match; [|done]. intros [= <-]. by case_match.
      * case_match; [|done]. by intros [= <-].
      * case_match; [|done]. intros [= <-]. by repeat case_match.
      * case_match; [|done]. intros [= <-]. by repeat case_match.
    + intros Hlt'. unfold FlashcardViewerModal.handleNext.
      destruct (Z.ltb_spec (Z.of_nat (FlashcardViewerModal.currentIndex s))
                  (Z.of_nat (length flashcards) - 1)); [|lia].
      unfold FlashcardViewerModal.handlePrev. simpl.
      destruct (Z.ltb_spec 0 (Z.of_nat (FlashcardViewerModal.currentIndex s + 1)));
        simpl; lia.
Qed.
End FlashcardViewer.

Lemma viewer_always_has_a_card_witness :
  let s := {| FlashcardViewerModal.currentIndex := 1;
              FlashcardViewerModal.isFlipped := true |} in
  let es :=
    [ FlashcardViewerModal.KeyDown "ArrowRight"; FlashcardViewerModal.ClickNext;
      FlashcardViewerModal.KeyDown "ArrowRight"; FlashcardViewerModal.KeyDown " " ] in
  FlashcardViewerModal.run ["Paris"; "Rome"] es
    (FlashcardViewerModal.opened ["Paris"; "Rome"]) = FlashcardViewerModal.Showing s
  ∧ FlashcardViewerModal.currentCard ["Paris"; "Rome"] s = Some "Rome"
  ∧ FlashcardViewerModal.run (@nil string) es
      (FlashcardViewerModal.opened (@nil string)) =
      FlashcardViewerModal.Thrown.
Proof.
  intros s es. split; [reflexivity|]. split.
  - destruct (viewer_always_has_a_card ["Paris"; "Rome"] es) as (_ & _ & H).
    by destruct (H s eq_refl) as [[card Hc] _].
  - destruct (viewer_always_has_a_card (@nil string) es) as (H & _).
    exact (proj2 (H eq_refl)).
Defined.

(** ** The quiz *)

Section Quiz.
Variable questions : list QuizQuestion.t.

Lemma quiz_inv_step e s :
  quiz_inv questions s → quiz_inv questions (QuizComponent.step questions e s).
Proof.
  intros H. destruct e as [qIndex oIndex|]; simpl.
  - destruct (questions !! qIndex) as [q|] eqn:Eq; [|done].
    destruct (QuizQuestion.options q !! oIndex) as [option|] eqn:Eo; [|done].
    unfold QuizComponent.handleAnswer.
    destruct (QuizComponent.submitted s); [done|]. simpl.
    intros k a. simpl. destruct (decide (k = qIndex)) as [->|Hne].
    + rewrite lookup_insert_eq. intros [= <-]. exists q. split; [done|].
      by eapply list_elem_of_lookup_2.
    + rewrite lookup_insert_ne by done. apply H.
  - by destruct (QuizComponent.submitted s).
Qed.

Lemma quiz_inv_run es s :
  quiz_inv questions s → quiz_inv questions (QuizComponent.run questions es s).
Proof.
  revert s. induction es as [|e es IH]; intros s H; [done|].
  apply IH. by apply quiz_inv_step.
Qed.

Lemma quiz_submitted_step e s :
  QuizComponent.submitted s = true → QuizComponent.step questions e s = s.
Proof.
  intros H. destruct e; simpl; rewrite ?H; by repeat case_match.
Qed.

(** X19. In every state the quiz reaches, the score can be computed; it
    is at most the number of answers given, which is at most the number of
    questions.  A question whose correct answer is not among its options
    is never counted, so that a quiz with such a question cannot be
    answered in full.  Once the quiz is submitted no event changes its
    state, and with it the score. *)
Theorem quiz_score_bounds (es : list QuizComponent.Event) :
  let s := QuizComponent.run questions es QuizComponent.mount in
  ∃ n, QuizComponent.score questions s = Some n
    ∧ (n ≤ size (QuizComponent.answers s))%nat
    ∧ (size (QuizComponent.answers s) ≤ length questions)%nat
    ∧ (∀ qIndex q,
         questions !! qIndex = Some q → ¬ answerable q →
         QuizComponent.answers s !! qIndex ≠ Some (QuizQuestion.correctAnswer q))
    ∧ ((∃ q, q ∈ questions ∧ ¬ answerable q) → (n < length questions)%nat)
    ∧ (QuizComponent.submitted s = true →
       ∀ e, QuizComponent.step questions e s = s).
Proof.
  intros s.
  assert (quiz_inv questions s) as Hinv.
  { apply quiz_inv_run. intros k a. simpl. by rewrite lookup_empty. }
  assert (map_Forall (λ qIndex _, is_Some (questions !! qIndex))
            (QuizComponent.answers s)) as Hall.
  { intros k a Hk. destruct (Hinv k a Hk) as (q & -> & _). by eexists. }
  assert (∀ qIndex q,
            questions !! qIndex = Some q → ¬ answerable q →
            QuizComponent.answers s !! qIndex ≠ Some (QuizQuestion.correctAnswer q))
    as Hnever.
  { intros k q Hq Hna Hk. destruct (Hinv _ _ Hk) as (q' & Hq' & Hin).
    rewrite Hq in Hq'. by injection Hq' as <-. }
  set (marks := filter (λ kv, QuizComponent.correct questions kv.1 kv.2)
                  (QuizComponent.answers s)).
  exists (size marks). split.
  { unfold QuizComponent.score. by rewrite decide_True. }
  split; [apply map_size_filter|].
  assert (dom (QuizComponent.answers s) ⊆ (set_seq 0 (length questions) : gset nat))
    as Hdom.
  { intros k [a Hk]%elem_of_dom. apply elem_of_set_seq.
    destruct (Hinv k a Hk) as (q & Hq%lookup_lt_Some & _). lia. }
  split.
  { rewrite <- size_dom, <- (size_set_seq (C := gset nat) 0 (length questions)).
    by apply subseteq_size. }
  split; [done|]. split; [|intros H e; by apply quiz_submitted_step].
  intros (q & [k Hq]%list_elem_of_lookup & Hna).
  assert (dom marks ⊆ (set_seq 0 (length questions) ∖ {[k]} : gset nat)) as Hm.
  { intros j [a Hj]%elem_of_dom. apply map_lookup_filter_Some in Hj as [Hj Hc].
    apply elem_of_difference. split.
    - apply Hdom. apply elem_of_dom. by eexists.
    - intros ->%elem_of_singleton. unfold QuizComponent.correct in Hc. simpl in Hc.
      rewrite Hq in Hc. simpl in Hc. injection Hc as <-. by eapply Hnever. }
  apply subseteq_size in Hm. rewrite size_dom in Hm.
  rewrite size_difference, size_set_seq, size_singleton in Hm.
  - apply lookup_lt_Some in Hq. lia.
  - apply singleton_subseteq_l, elem_of_set_seq. apply lookup_lt_Some in Hq. lia.
Qed.
End Quiz.

Lemma quiz_score_bounds_witness :
  let questions :=
    [ QuizQuestion.mk "Capital of France?" ["Paris"; "Rome"] "Paris";
      QuizQuestion.mk "Capital of Italy?" ["Paris"; "Madrid"] "Rome" ] in
  let s := QuizComponent.run questions
             [ QuizComponent.ClickOption 0 0; QuizComponent.ClickOption 1 1;
               QuizComponent.ClickSubmit ] QuizComponent.mount in
  QuizComponent.score questions s = Some 1%nat
  ∧ (∃ n, QuizComponent.score questions s = Some n ∧ (n < length questions)%nat).
Proof.
  intros questions s. split; [by vm_compute|].
  destruct (quiz_score_bounds questions
              [ QuizComponent.ClickOption 0 0; QuizComponent.ClickOption 1 1;
                QuizComponent.ClickSubmit ]) as (n & Hn & _ & _ & _ & Hlt & _).
  exists n. split; [done|]. apply Hlt.
  exists (QuizQuestion.mk "Capital of Italy?" ["Paris"; "Madrid"] "Rome").
  split; [right; left|]. unfold answerable. simpl.
  intros [?|[?|[]%elem_of_nil]%elem_of_cons]%elem_of_cons; done.
Defined.

(** ** Saved items *)

(** X20. An item is saved only under a title that is not empty, together
    with the type and the data of the message, and accepting the title the
    prompt suggests always saves.  Of the five content types that can be
    saved, only flashcards and mind maps have a viewer, and the list shows
    its [View] button for these two only: a saved quiz, podcast or debate
    can be deleted but not opened again. *)
Theorem saved_items_titles_and_viewers :
  (∀ notebookId type contentData answer id item,
     onSaveItem notebookId type contentData answer = Some (id, item) →
     id = notebookId
     ∧ answer = Some (itemData_title item)
     ∧ itemData_title item ≠ EmptyString
     ∧ itemData_type item = type
     ∧ itemData_contentData item = contentData)
  ∧ (∀ notebookId type contentData,
       is_Some (onSaveItem notebookId type contentData (Some (suggestedTitle type))))
  ∧ (∀ type, has_view_button type = has_viewer type)
  ∧ (∀ type, has_viewer type = true → has_save_button type = true)
  ∧ (∀ type, has_save_button type = true ∧ has_viewer type = false ↔
             type ∈ [QUIZ; PODCAST; DEBATE]).
Proof.
  split; [|split; [|split; [|split]]].
  - intros notebookId type contentData [title|] id item; simpl; [|done].
    case_decide; [done|]. by intros [= <- <-].
  - intros notebookId type contentData. by destruct type.
  - intros type. by destruct type.
  - intros type. by destruct type.
  - intros type. destruct type; compute_done.
Qed.

Lemma update_notebook_savedItems id f l :
  (∀ n, Notebook.id n = id →
        Notebook.savedItems_or_empty (f n) = Notebook.savedItems_or_empty n) →
  map Notebook.savedItems_or_empty (update_notebook id f l) =
    map Notebook.savedItems_or_empty l.
Proof.
  intros Hf. unfold update_notebook. rewrite map_map. apply map_ext.
  intros n. case_decide; [by apply Hf|done].
Qed.

Lemma filter_snoc_fresh (itemId : string) (items : list SavedItem.t) (item : SavedItem.t) :
  itemId ∉ map SavedItem.id items → SavedItem.id item = itemId →
  filter (λ item, SavedItem.id item ≠ itemId) (items ++ [item]) = items.
Proof.
  intros Hf Hi. rewrite filter_app, filter_absent by done.
  rewrite filter_cons_False, filter_nil by (by intros ?).
  apply app_nil_r.
Qed.

(** X21. Saving an item and then deleting the item of the id it was
    given restores the saved items of every notebook, provided the clock
    reading named no saved item of the notebook before; the rest of the
    state is not touched. *)
Theorem save_then_delete_restores
    (s : Store) (now : Z) (createdAt notebookId : string) (itemData : ItemData) :
  (∀ n, n ∈ notebooks s → Notebook.id n = notebookId →
        saved_id now ∉ map SavedItem.id (Notebook.savedItems_or_empty n)) →
  let s' :=
    run (handleSaveItemToNotebook now createdAt notebookId itemData
           ++ handleDeleteSavedItem notebookId (saved_id now)) s in
  map Notebook.savedItems_or_empty (notebooks s') =
    map Notebook.savedItems_or_empty (notebooks s)
  ∧ map Notebook.id (notebooks s') = map Notebook.id (notebooks s)
  ∧ map Notebook.sources (notebooks s') = map Notebook.sources (notebooks s)
  ∧ same_but_notebooks s s'.
Proof.
  intros Hfresh s'.
  set (item := SavedItem.mk (saved_id now) notebookId (itemData_title itemData)
                 (itemData_type itemData) (itemData_contentData itemData) createdAt).
  set (f := λ n, Notebook.with_savedItems n (Notebook.savedItems_or_empty n ++ [item])).
  set (g := λ n, Notebook.with_savedItems n
                   (filter (λ item, SavedItem.id item ≠ saved_id now)
                      (Notebook.savedItems_or_empty n))).
  assert (notebooks s' =
            update_notebook notebookId g (update_notebook notebookId f (notebooks s)))
    as Hn by done.
  rewrite Hn, update_notebook_compose by done.
  assert (update_notebook notebookId (g ∘ f) (notebooks s) =
            update_notebook notebookId
              (λ n, Notebook.with_savedItems n (Notebook.savedItems_or_empty n))
              (notebooks s)) as ->.
  { apply update_notebook_ext. intros n Hin Hid. unfold g, f. simpl.
    rewrite with_savedItems_or_empty, filter_snoc_fresh by auto. done. }
  split; [|split; [|split]].
  - apply update_notebook_savedItems. intros n _. apply with_savedItems_or_empty.
  - by apply update_notebook_ids.
  - unfold update_notebook. rewrite map_map. apply map_ext. intros n. by case_decide.
  - done.
Qed.

Lemma save_then_delete_restores_witness :
  map Notebook.savedItems_or_empty
    (notebooks
       (run (handleSaveItemToNotebook 1700000000500 example_createdAt (notebook_id 1)
               example_itemData
             ++ handleDeleteSavedItem (notebook_id 1) (saved_id 1700000000500))
          example_store)) =
  map Notebook.savedItems_or_empty (notebooks example_store).
Proof.
  apply (save_then_delete_restores example_store 1700000000500 example_createdAt
           (notebook_id 1) example_itemData).
  intros n [->|[]%elem_of_nil]%elem_of_cons _. simpl. apply not_elem_of_nil.
Defined.

(** * Fetching a URL through the proxy *)

(** ** The clean-up of the text of a page *)

Lemma lacks_app c a b : lacks c a → lacks c b → lacks c (a +:+ b).
Proof. induction a as [|x a IH]; simpl; [done|]. intros [? ?] ?. auto. Qed.

Lemma lacks_replaceLineBreaks s :
  lacks (ascii_of_nat 13) (proxy.replaceLineBreaks s)
  ∧ lacks (ascii_of_nat 10) (proxy.replaceLineBreaks s).
Proof.
  cut ((lacks (ascii_of_nat 13) (proxy.replaceLineBreaks s)
        ∧ lacks (ascii_of_nat 10) (proxy.replaceLineBreaks s))
       ∧ ∀ c, lacks (ascii_of_nat 13) (proxy.replaceLineBreaks (String c s))
              ∧ lacks (ascii_of_nat 10) (proxy.replaceLineBreaks (String c s))).
  { by intros [? _]. }
  induction s as [|a s [IH1 IH2]].
  - split; [done|]. intros c. simpl.
    destruct (bool_decide (c = ascii_of_nat 13)) eqn:E1; [done|].
    destruct (bool_decide (c = ascii_of_nat 10)) eqn:E2; [done|].
    apply bool_decide_eq_false in E1, E2. done.
  - split; [apply IH2|]. intros c.
    change (proxy.replaceLineBreaks (String c (String a s))) with
      (if bool_decide (c = ascii_of_nat 13) then
         if bool_decide (a = ascii_of_nat 10)
         then String " " (proxy.replaceLineBreaks s)
         else String " " (proxy.replaceLineBreaks (String a s))
       else if bool_decide (c = ascii_of_nat 10)
            then String " " (proxy.replaceLineBreaks (String a s))
            else String c (proxy.replaceLineBreaks (String a s))).
    destruct (IH2 a) as [H1 H2]. destruct IH1 as [I1 I2].
    destruct (bool_decide (c = ascii_of_nat 13)) eqn:E1.
    + by destruct (bool_decide (a = ascii_of_nat 10)).
    + destruct (bool_decide (c = ascii_of_nat 10)) eqn:E2; [done|].
      apply bool_decide_eq_false in E1, E2. done.
Qed.

Lemma replaceLineBreaks_fixed s :
  lacks (ascii_of_nat 13) s → lacks (ascii_of_nat 10) s →
  proxy.replaceLineBreaks s = s.
Proof.
  induction s as [|c s IH]; [done|]. intros [H1 Hs1] [H2 Hs2]. simpl.
  rewrite !bool_decide_eq_false_2 by done. by rewrite IH.
Qed.

Lemma lacks_collapse c r s :
  c ≠ " "%char → (∀ w, r = proxy.One w → w ≠ c) → lacks c s →
  lacks c (proxy.collapse r s).
Proof.
  intros Hc. revert r. induction s as [|a s IH]; intros r Hr; simpl.
  - intros _. destruct r as [|w|]; simpl; [done| |by split].
    split; [by apply Hr|done].
  - intros [Ha Hs]. destruct (is_space a).
    + apply IH; [|done]. intros w. destruct r; [|done..]. by intros [= <-].
    + apply lacks_app.
      * destruct r as [|w|]; simpl; [done| |by split]. split; [by apply Hr|done].
      * split; [done|]. by apply IH.
Qed.

Lemma single_spaced_cons c s :
  single_spaced (String c s) ↔
  match s with
  | String c' _ => ¬ (is_space c = true ∧ is_space c' = true)
  | EmptyString => True
  end ∧ single_spaced s.
Proof. destruct s; simpl; tauto. Qed.

Lemma single_spaced_collapse r s : single_spaced (proxy.collapse r s).
Proof.
  revert r. induction s as [|a s IH]; intros r.
  - by destruct r.
  - simpl. destruct (is_space a) eqn:Ha; [apply IH|].
    assert (single_spaced (String a (proxy.collapse proxy.NoRun s))) as H.
    { apply single_spaced_cons. split; [|apply IH].
      destruct (proxy.collapse _ s); [done|]. rewrite Ha. by intros [? _]. }
    destruct r as [|w|]; simpl; [done| |].
    + split; [|done]. rewrite Ha. by intros [_ ?].
    + split; [|done]. rewrite Ha. by intros [_ ?].
Qed.

Lemma collapse_fixed s :
  single_spaced s →
  proxy.collapse proxy.NoRun s = s
  ∧ ∀ w, is_space w = true → single_spaced (String w s) →
         proxy.collapse (proxy.One w) s = String w s.
Proof.
  induction s as [|a s IH]; [done|].
  intros [Ha Hs]%single_spaced_cons. destruct (IH Hs) as [IH1 IH2]. simpl.
  destruct (is_space a) eqn:E.
  - split.
    + apply IH2; [done|]. apply single_spaced_cons. rewrite E. by split.
    + intros w Hw [Hwa _]. destruct Hwa. by split.
  - rewrite IH1. split; [done|]. by intros w _ _.
Qed.

Lemma trimStart_lacks c s : lacks c s → lacks c (trimStart s).
Proof.
  induction s as [|a s IH]; [done|]. simpl. intros [? ?].
  destruct (is_space a); [auto|by split].
Qed.

Lemma trimEnd_lacks c s : lacks c s → lacks c (trimEnd s).
Proof.
  induction s as [|a s IH]; [done|]. simpl. intros [? Hs]. specialize (IH Hs).
  destruct (trimEnd s); [by destruct (is_space a)|by split].
Qed.

Lemma trimStart_single_spaced s : single_spaced s → single_spaced (trimStart s).
Proof.
  induction s as [|a s IH]; [done|]. intros H. simpl.
  destruct (is_space a); [|done]. apply IH. by apply single_spaced_cons in H as [_ ?].
Qed.

Lemma trimEnd_head s b t : trimEnd s = String b t → ∃ s', s = String b s'.
Proof.
  destruct s as [|a s]; [done|]. simpl.
  destruct (trimEnd s); [destruct (is_space a); [done|]|]; intros [= <- _]; by eexists.
Qed.

Lemma trimEnd_single_spaced s : single_spaced s → single_spaced (trimEnd s).
Proof.
  induction s as [|a s IH]; [done|].
  intros [Ha Hs]%single_spaced_cons. specialize (IH Hs). simpl.
  destruct (trimEnd s) as [|b t] eqn:E; [by destruct (is_space a)|].
  apply single_spaced_cons. split; [|done].
  apply trimEnd_head in E as [s' ->]. done.
Qed.

Lemma trimEnd_idemp s : trimEnd (trimEnd s) = trimEnd s.
Proof.
  induction s as [|a s IH]; [done|]. simpl.
  destruct (trimEnd s) as [|b t] eqn:E.
  - destruct (is_space a) eqn:Ha; [done|]. simpl. by rewrite Ha.
  - change (trimEnd (String a (String b t))) with
      (match trimEnd (String b t) with
       | EmptyString => if is_space a then EmptyString else String a EmptyString
       | t' => String a t'
       end).
    by rewrite IH.
Qed.

Lemma trim_idemp s : trim (trim s) = trim s.
Proof.
  unfold trim.
  assert (trimStart s = EmptyString
          ∨ ∃ c s', trimStart s = String c s' ∧ is_space c = false) as [->|H].
  { induction s as [|a s IH]; [by left|]. simpl.
    destruct (is_space a) eqn:E; [done|]. right. by eexists _, _. }
  - done.
  - destruct H as (c & s' & -> & Hc).
    assert (∃ t, trimEnd (String c s') = String c t) as [t Ht].
    { simpl. destruct (trimEnd s'); [rewrite Hc|]; by eexists. }
    rewrite Ht. simpl. rewrite Hc. rewrite <- Ht. apply trimEnd_idemp.
Qed.

(** X22. The text [parseHtml] returns, whatever the text of the page, is
    on one line, has no two white-space characters in a row and no white
    space at either end; cleaning it again changes nothing. *)
Theorem cleanText_normalises (text : string) :
  let t := proxy.cleanText text in
  lacks (ascii_of_nat 13) t
  ∧ lacks (ascii_of_nat 10) t
  ∧ single_spaced t
  ∧ trim t = t
  ∧ proxy.cleanText t = t.
Proof.
  intros t. subst t. unfold proxy.cleanText.
  destruct (lacks_replaceLineBreaks text) as [H13 H10].
  set (u := proxy.collapse proxy.NoRun (proxy.replaceLineBreaks text)).
  assert (lacks (ascii_of_nat 13) (trim u)) as L13.
  { apply trimEnd_lacks, trimStart_lacks, lacks_collapse; done. }
  assert (lacks (ascii_of_nat 10) (trim u)) as L10.
  { apply trimEnd_lacks, trimStart_lacks, lacks_collapse; done. }
  assert (single_spaced (trim u)) as Hs.
  { apply trimEnd_single_spaced, trimStart_single_spaced, single_spaced_collapse. }
  do 3 (split; [done|]). split; [apply trim_idemp|].
  rewrite replaceLineBreaks_fixed by done.
  rewrite (proj1 (collapse_fixed _ Hs)). apply trim_idemp.
Qed.

(** ** The outcomes of the fetch *)

(** X23. Every rejection of [fetchUrlContent] carries the fixed sentence
    followed by the message of what went wrong inside, and a response that
    is not [ok] is rejected with its status.  A response that is [ok],
    whose body can be read and whose content type does not mention PDF, is
    rejected in one case only: the body is empty and the content type
    neither starts with [text/] nor mentions [text/html]; otherwise its
    body is returned, as it is or cleaned as HTML.  A body of a [text/]
    type other than HTML is returned as it is even when it is empty. *)
Theorem proxy_fetch_outcomes
    (textContent : string → string) (fetched : Settled proxy.Response) :
  (∀ e, proxy.fetchUrlContent textContent fetched = Rejected e →
        ∃ cause, proxy.attempt textContent fetched = Rejected cause
          ∧ message e = proxy.details +:+ message cause)
  ∧ (∀ response,
       fetched = Fulfilled response → proxy.ok response = false →
       proxy.fetchUrlContent textContent fetched =
         Rejected {| message :=
           proxy.details +:+ "Failed to fetch from proxy with status: "
             +:+ pretty (proxy.status response)
             +:+ ". The requested URL might be down or blocking the proxy." |})
  ∧ (∀ response body,
       fetched = Fulfilled response → proxy.ok response = true →
       proxy.text response = Fulfilled body →
       let contentType := default EmptyString (proxy.content_type response) in
       includes "application/pdf" contentType = false →
       match proxy.fetchUrlContent textContent fetched with
       | Fulfilled content =>
           content = body ∨ content = proxy.parseHtml textContent body
       | Rejected e =>
           body = EmptyString
           ∧ startsWith "text/" contentType = false
           ∧ includes "text/html" contentType = false
           ∧ message e =
               proxy.details
                 +:+ "Unsupported or empty content from URL. Content-Type: "
                 +:+ (if decide (contentType = EmptyString)
                      then "Not specified" else contentType)
       end)
  ∧ (∀ response body,
       fetched = Fulfilled response → proxy.ok response = true →
       proxy.text response = Fulfilled body →
       let contentType := default EmptyString (proxy.content_type response) in
       includes "application/pdf" contentType = false →
       includes "text/html" contentType = false →
       startsWith "text/" contentType = true →
       proxy.fetchUrlContent textContent fetched = Fulfilled body).
Proof.
  split; [|split; [|split]].
  - intros e. unfold proxy.fetchUrlContent.
    destruct (proxy.attempt textContent fetched) as [v|cause]; [done|].
    intros [= <-]. by exists cause.
  - intros response -> Hok. unfold proxy.fetchUrlContent, proxy.attempt.
    by rewrite Hok.
  - intros response body -> Hok Hbody contentType Hpdf.
    unfold proxy.fetchUrlContent, proxy.attempt. rewrite Hok. cbn [negb].
    fold contentType. rewrite Hpdf, Hbody.
    destruct (includes "text/html" contentType); [by right|].
    destruct (startsWith "text/" contentType); [by left|].
    destruct (_ || _); [by right|].
    destruct (bool_decide (body = EmptyString)) eqn:E; simpl; [|by left].
    by apply bool_decide_eq_true in E.
  - intros response body -> Hok Hbody contentType Hpdf Hhtml Htext.
    unfold proxy.fetchUrlContent, proxy.attempt. rewrite Hok. cbn [negb].
    fold contentType. by rewrite Hpdf, Hhtml, Htext, Hbody.
Qed.

Lemma proxy_fetch_outcomes_witness :
  let response := {| proxy.ok := true; proxy.status := 200;
                     proxy.content_type := Some "text/plain; charset=utf-8";
                     proxy.text := Fulfilled EmptyString;
                     proxy.pdf_pages := Rejected {| message := "InvalidPDFException" |} |} in
  proxy.fetchUrlContent (λ html, html) (Fulfilled response) = Fulfilled EmptyString.
Proof.
  intros response.
  by apply (proj2 (proj2 (proj2
              (proxy_fetch_outcomes (λ html, html) (Fulfilled response))))
            response EmptyString).
Defined.

(** * The prompts *)

Lemma startsWith_app word b : startsWith word (word +:+ b) = true.
Proof.
  induction word as [|c word IH]; simpl; [done|].
  by rewrite bool_decide_eq_true_2.
Qed.

Lemma startsWith_app_l word a b :
  startsWith word a = true → startsWith word (a +:+ b) = true.
Proof.
  revert a. induction word as [|c word IH]; intros [|x a]; simpl; try done.
  intros [-> ?]%andb_true_iff. by rewrite IH.
Qed.

Lemma includes_cons word c s :
  includes word s = true → includes word (String c s) = true.
Proof. intros H. simpl. rewrite H. apply orb_true_r. Qed.

Lemma includes_app_r word a b :
  includes word b = true → includes word (a +:+ b) = true.
Proof. intros H. induction a as [|c a IH]; [done|]. by apply includes_cons. Qed.

Lemma includes_app_l word a b :
  includes word a = true → includes word (a +:+ b) = true.
Proof.
  induction a as [|c a IH].
  - destruct word; [by destruct b|done].
  - intros [H|H]%orb_true_iff.
    + apply orb_true_iff. left. exact (startsWith_app_l word (String c a) b H).
    + apply includes_cons. by apply IH.
Qed.

Lemma includes_self word : includes word word = true.
Proof.
  assert (∀ w, startsWith w w = true) as H.
  { intros w. induction w as [|c w IH]; [done|]. simpl.
    by rewrite bool_decide_eq_true_2. }
  destruct word as [|c word]; [done|]. apply orb_true_iff. left. apply H.
Qed.

Lemma includes_join word sep l e :
  e ∈ l → includes word e = true → includes word (join sep l) = true.
Proof.
  intros Hin He. induction l as [|x l IH]; [by apply elem_of_nil in Hin|].
  apply elem_of_cons in Hin as [<-|Hin].
  - destruct l; [done|]. by apply includes_app_l.
  - specialize (IH Hin). destruct l as [|y l]; [by apply elem_of_nil in Hin|].
    change (join sep (x :: y :: l)) with (x +:+ sep +:+ join sep (y :: l)).
    by do 2 apply includes_app_r.
Qed.

(** Goes down the concatenation to the part that holds [tgt]. *)
Ltac descend tgt :=
  repeat lazymatch goal with
         | |- includes _ (?a +:+ ?b) = true =>
             lazymatch a with
             | context [tgt] => apply includes_app_l
             | _ => apply includes_app_r
             end
         end.

Lemma generatePrompt_carries sources task source :
  source ∈ sources →
  includes (Source.title source) (geminiService.generatePrompt sources task) = true
  ∧ includes (Source.content source) (geminiService.generatePrompt sources task) = true.
Proof.
  intros [i Hi]%list_elem_of_lookup. unfold geminiService.generatePrompt, map_indexed.
  split.
  - descend (@join). eapply includes_join.
    + eapply list_elem_of_lookup_2. by rewrite list_lookup_imap, Hi.
    + cbv beta. descend (Source.title source). apply includes_self.
  - descend (@join). eapply includes_join.
    + eapply list_elem_of_lookup_2. by rewrite list_lookup_imap, Hi.
    + cbv beta. descend (Source.content source). apply includes_self.
Qed.

Lemma getSourceContext_carries sources source :
  source ∈ sources →
  includes (Source.title source) (geminiService2.getSourceContext sources) = true
  ∧ includes (Source.content source) (geminiService2.getSourceContext sources) = true.
Proof.
  intros Hin. unfold geminiService2.getSourceContext.
  destruct sources as [|s0 sources]; [by apply elem_of_nil in Hin|].
  assert (∀ f : Source.t → string, f source ∈ map f (s0 :: sources)) as Hf.
  { intros f. to_fmap. apply list_elem_of_fmap. by exists source. }
  split.
  - eapply includes_join; [apply Hf|]. cbv beta.
    descend (Source.title source). apply includes_self.
  - eapply includes_join; [apply Hf|]. cbv beta.
    descend (Source.content source). apply includes_self.
Qed.

Lemma with_sources_carries instruction sources source :
  source ∈ sources →
  includes (Source.title source) (geminiService2.with_sources instruction sources) = true
  ∧ includes (Source.content source)
      (geminiService2.with_sources instruction sources) = true.
Proof.
  intros [H1 H2]%getSourceContext_carries. unfold geminiService2.with_sources.
  split; by descend geminiService2.getSourceContext.
Qed.

#[local] Arguments geminiService.generatePrompt : simpl never.
#[local] Arguments geminiService2.with_sources : simpl never.
#[local] Arguments geminiService2.getSourceContext : simpl never.
#[local] Arguments includes : simpl never.

(** X24. Whatever the intent, and with either copy of the service, the
    prompt of the request holds the title and the content of every source
    of the notebook in full; for a question it also holds the question. *)
Theorem request_carries_every_source
    (second : bool) (type : Intent) (sources : list Source.t)
    (message msgId : string) (source : Source.t) :
  source ∈ sources →
  let prompt :=
    contents (generation_request
                (generate (svc := service_of second) type sources message msgId)) in
  includes (Source.title source) prompt = true
  ∧ includes (Source.content source) prompt = true
  ∧ (type = chat → includes message prompt = true).
Proof.
  intros Hin prompt. subst prompt.
  pose proof (λ task, generatePrompt_carries sources task source Hin) as H1.
  pose proof (λ instruction, with_sources_carries instruction sources source Hin) as H2.
  pose proof (getSourceContext_carries sources source Hin) as [H3 H4].
  destruct second, type as [|[]]; simpl;
    (split; [|split; [|try done]]);
    try apply H1; try apply H2; try (intros _).
  - by descend geminiService2.getSourceContext.
  - by descend geminiService2.getSourceContext.
  - descend message. apply includes_self.
  - by descend geminiService2.getSourceContext.
  - by descend geminiService2.getSourceContext.
  - unfold geminiService.generatePrompt. descend message.
    apply includes_cons, includes_self.
Qed.

Lemma request_carries_every_source_witness :
  let source := Source.mk (source_id 1700000000000) SourceType.text "Doc"
                  "Paris is in France." in
  let prompt :=
    contents (generation_request
                (generate (svc := service_of false) chat [source]
                   "What is the capital of France?" (msg_id 1700000000102))) in
  includes "Doc" prompt = true
  ∧ includes "Paris is in France." prompt = true
  ∧ (chat = chat → includes "What is the capital of France?" prompt = true).
Proof.
  intros source.
  apply (request_carries_every_source false chat [source]
           "What is the capital of France?" (msg_id 1700000000102) source).
  left.
Defined.

(** * The view and the handler together *)

Section ViewAndHandler.
Context {svc : GeminiService}.

(** X25. What the chat view of the active notebook sends, the handler of
    the same render accepts: the view clears its input only for a message
    that goes out, addressed to the notebook the view shows. *)
Theorem view_sends_are_accepted
    (s : Store) (nb : Notebook.t) (clock : nat → Z)
    (e : ChatView.UIEvent) (v v' : ChatView.State)
    (message : string) (type : Intent) :
  activeNotebook s = Some nb →
  ChatView.step (chatViewProps s nb) e v = (v', Some (message, type)) →
  ∃ cmds p,
    handleSendMessage s clock message type = (cmds, Some p)
    ∧ pending_notebookId p = Notebook.id nb
    ∧ chatHistory (run cmds s) !! Notebook.id nb =
        Some (default [] (chatHistory s !! Notebook.id nb)
                ++ [userMessage (clock 0%nat) message])
    ∧ isLoading (run cmds s) = true.
Proof.
  intros Hnb Hstep.
  assert (isLoading s = false) as Hl.
  { destruct (isLoading s) eqn:E; [|done].
    pose proof (view_step_while_loading (chatViewProps s nb) e v E) as Hn.
    by rewrite Hstep in Hn. }
  eexists _, _. split; [by apply handleSendMessage_accepted|].
  split; [done|]. unfold run. simpl. by rewrite lookup_insert_eq.
Qed.

(** X26. The message that settles a request goes to the log of the
    notebook the request was sent from, also when another notebook has
    been selected meanwhile: that log gets the user message and then the
    reply, the logs of the other notebooks are as before, and the
    selection stays. *)
Theorem reply_goes_to_the_notebook_of_the_request
    (sys : System) (clock clock' : nat → Z) (message : string) (type : Intent)
    (cmds : list Cmd) (p : Pending) (res : Settled string) (other : string) :
  inFlight sys = [] →
  other ≠ EmptyString →
  handleSendMessage (store sys) clock message type = (cmds, Some p) →
  let id := pending_notebookId p in
  let sys' :=
    steps [SendMessage clock message type; SelectNotebook other; Settle res clock'] sys in
  chatHistory (store sys') !! id =
    Some (default [] (chatHistory (store sys) !! id)
            ++ [userMessage (clock 0%nat) message; reply_of p res clock'])
  ∧ (∀ id', id' ≠ id →
       chatHistory (store sys') !! id' = chatHistory (store sys) !! id')
  ∧ activeNotebookId (store sys') = Some other
  ∧ isLoading (store sys') = false
  ∧ inFlight sys' = [].
Proof.
  intros Hfl Hother E id sys'. subst sys'. unfold steps. simpl. rewrite E. simpl.
  rewrite Hfl. simpl.
  destruct (handleSendMessage_inv _ _ _ _ _ _ E) as (nb & Hnb & Hl & Hid & Hg & ->).
  set (s1 := commit _ (store sys)).
  set (s2 := commit [setActiveNotebookId (Value (Some other))] s1).
  assert (chatHistory s1 =
            <[id := default [] (chatHistory (store sys) !! id)
                      ++ [userMessage (clock 0%nat) message]]> (chatHistory (store sys)))
    as H1.
  { subst s1. rewrite commit_chatHistory. unfold run. simpl. by rewrite <- Hid. }
  assert (chatHistory s2 = chatHistory s1) as H2
    by (subst s2; by rewrite commit_chatHistory).
  assert (activeNotebookId s2 = Some other) as Ha.
  { subst s2. unfold commit, selectFirstNotebook, run. simpl.
    rewrite bool_decide_eq_false_2 by done. by destruct (notebooks s1). }
  set (s3 := commit (resume p res clock') s2).
  assert (run (resume p res clock') s2 =
            {| notebooks := notebooks s2; activeNotebookId := activeNotebookId s2;
               chatHistory :=
                 <[id := default [] (chatHistory s2 !! id) ++ [reply_of p res clock']]>
                   (chatHistory s2);
               isLoading := false; isCreatingNotebook := isCreatingNotebook s2;
               isDarkMode := isDarkMode s2 |}) as Hr.
  { unfold resume. rewrite run_settle. done. }
  assert (chatHistory s3 =
            <[id := default [] (chatHistory s2 !! id) ++ [reply_of p res clock']]>
              (chatHistory s2)) as H3.
  { subst s3. by rewrite commit_chatHistory, Hr. }
  assert (activeNotebookId s3 = Some other) as Ha3.
  { subst s3. unfold commit. rewrite Hr. unfold selectFirstNotebook. simpl.
    rewrite Ha, bool_decide_eq_false_2 by done. by destruct (notebooks s2). }
  split; [|split; [|split; [done|split; [|done]]]].
  - rewrite H3, lookup_insert_eq, H2, H1, lookup_insert_eq. simpl.
    by rewrite <- app_assoc.
  - intros id' Hne. by rewrite H3, lookup_insert_ne, H2, H1, lookup_insert_ne.
  - subst s3. by rewrite commit_isLoading, Hr.
Qed.
End ViewAndHandler.

Lemma view_sends_are_accepted_witness :
  ∃ cmds p,
    handleSendMessage (svc := geminiService.service) example_store_with_source
      example_clock "Generate quiz for this notebook." (action quiz) = (cmds, Some p)
    ∧ pending_notebookId p = notebook_id 1
    ∧ chatHistory (run cmds example_store_with_source) !! notebook_id 1 =
        Some [userMessage 1700000000100 "Generate quiz for this notebook."]
    ∧ isLoading (run cmds example_store_with_source) = true.
Proof.
  apply (view_sends_are_accepted (svc := geminiService.service)
           example_store_with_source
           (Notebook.with_sources example_notebook
              [Source.mk (source_id 1700000000000) SourceType.text "Doc"
                 "Paris is the capital of France."])
           example_clock (ChatView.ClickButton quiz) ChatView.mount ChatView.mount
           "Generate quiz for this notebook." (action quiz)); reflexivity.
Defined.

Lemma reply_goes_to_the_notebook_of_the_request_witness :
  let sys' :=
    steps (svc := geminiService.service)
      [ SendMessage example_clock "What is the capital of France?" chat;
        SelectNotebook (notebook_id 7);
        Settle (Fulfilled "Paris.") example_clock' ]
      (boot example_store_with_source) in
  chatHistory (store sys') !! notebook_id 1 =
    Some [ userMessage 1700000000100 "What is the capital of France?";
           ChatMessage.mk (msg_id 1700000000102) Role.model "Paris." TEXT None ]
  ∧ activeNotebookId (store sys') = Some (notebook_id 7).
Proof.
  intros sys'.
  destruct (reply_goes_to_the_notebook_of_the_request (svc := geminiService.service)
              (boot example_store_with_source) example_clock example_clock'
              "What is the capital of France?" chat _ _ (Fulfilled "Paris.")
              (notebook_id 7) eq_refl ltac:(done) eq_refl) as (H1 & _ & H2 & _).
  split; [exact H1|exact H2].
Defined.

(** * The text of a mind map *)

Lemma MindMapNode_nested_ind (P : MindMapNode → Prop) :
  (∀ topic, P (Node topic None)) →
  (∀ topic children, Forall P children → P (Node topic (Some children))) →
  ∀ node, P node.
Proof.
  intros HN HS. fix IH 1. intros [topic [children|]]; [|apply HN].
  apply HS. induction children as [|child rest IHrest]; constructor.
  - apply IH.
  - apply IHrest.
Qed.

Lemma string_app_assoc (a b c : string) : (a +:+ b) +:+ c = a +:+ (b +:+ c).
Proof.
  induction a as [|x a IH]; [done|].
  change (String x ((a +:+ b) +:+ c) = String x (a +:+ (b +:+ c))). by f_equal.
Qed.

Lemma string_app_nil_r (a : string) : a +:+ EmptyString = a.
Proof.
  induction a as [|x a IH]; [done|].
  change (String x (a +:+ EmptyString) = String x a). by f_equal.
Qed.

Lemma outline_text_app l1 l2 :
  foldr (λ entry text, outline_line entry +:+ text) EmptyString (l1 ++ l2) =
    foldr (λ entry text, outline_line entry +:+ text) EmptyString l1
      +:+ foldr (λ entry text, outline_line entry +:+ text) EmptyString l2.
Proof.
  induction l1 as [|e l1 IH]; simpl; [done|]. by rewrite IH, string_app_assoc.
Qed.

Lemma count_char_app c a b :
  count_char c (a +:+ b) = (count_char c a + count_char c b)%nat.
Proof. induction a as [|x a IH]; simpl; [done|]. rewrite IH. lia. Qed.

Lemma count_char_spaces n : count_char (ascii_of_nat 10) (spaces n) = 0%nat.
Proof.
  induction n as [|n IH]; [done|].
  change (spaces (S n)) with ("  " +:+ spaces n). by rewrite count_char_app, IH.
Qed.

Lemma count_char_lacks c s : lacks c s → count_char c s = 0%nat.
Proof.
  induction s as [|x s IH]; [done|]. simpl. intros [? ?].
  rewrite decide_False by done. by rewrite IH.
Qed.

Lemma mindMapToText_is_outline node :
  ∀ indent,
    mindMapToText node indent =
      foldr (λ entry text, outline_line entry +:+ text) EmptyString
        (outline node indent).
Proof.
  induction node as [topic|topic children IH] using MindMapNode_nested_ind;
    intros indent.
  - simpl. unfold outline_line. simpl. by rewrite string_app_nil_r.
  - simpl. unfold outline_line at 1. simpl.
    generalize (spaces indent +:+ "- " +:+ topic +:+ newline). intros text.
    revert text. induction IH as [|child rest Hchild _ IHrest]; intros text; simpl.
    + by rewrite string_app_nil_r.
    + rewrite IHrest, outline_text_app, Hchild. by rewrite string_app_assoc.
Qed.

(** X27. The text of a mind map is its outline: one line for each node,
    parents before their children and children in their order, each line
    indented by two spaces for each level below the root and made of a
    dash and the topic.  When no topic holds a line break the text has as
    many lines as the map has nodes; a node without [children] and a node
    with an empty list of children give the same text. *)
Theorem mindMapToText_outline (node : MindMapNode) (indent : nat) :
  mindMapToText node indent =
    foldr (λ entry text, outline_line entry +:+ text) EmptyString
      (outline node indent)
  ∧ Forall (λ entry, (indent ≤ entry.1)%nat) (outline node indent)
  ∧ (Forall (λ entry, lacks (ascii_of_nat 10) entry.2) (outline node indent) →
     count_char (ascii_of_nat 10) (mindMapToText node indent) =
       length (outline node indent))
  ∧ mindMapToText (Node (topic node) None) indent =
      mindMapToText (Node (topic node) (Some [])) indent.
Proof.
  split; [apply mindMapToText_is_outline|]. split; [|split; [|done]].
  - revert indent.
    induction node as [topic|topic children IH] using MindMapNode_nested_ind;
      intros indent; simpl.
    + by repeat constructor.
    + constructor; [simpl; lia|].
      induction IH as [|child rest Hchild _ IHrest]; simpl; [done|].
      apply Forall_app. split; [|done].
      eapply Forall_impl; [apply Hchild|]. simpl. intros; lia.
  - rewrite mindMapToText_is_outline.
    induction (outline node indent) as [|[d t] l IH]; [done|].
    intros [Ht Hl]%Forall_cons. simpl. unfold outline_line at 1. simpl.
    rewrite !count_char_app, count_char_spaces, (count_char_lacks _ t) by done.
    rewrite IH by done. simpl. lia.
Qed.

Lemma mindMapToText_outline_witness :
  let node :=
    Node "France"
      (Some [Node "Paris" (Some [Node "Louvre" None]); Node "Lyon" (Some [])]) in
  mindMapToText node 0 =
    "- France" +:+ newline +:+ "  - Paris" +:+ newline
      +:+ "    - Louvre" +:+ newline +:+ "  - Lyon" +:+ newline
  ∧ count_char (ascii_of_nat 10) (mindMapToText node 0) = 4%nat.
Proof.
  intros node. split; [reflexivity|].
  apply (proj1 (proj2 (proj2 (mindMapToText_outline node 0)))).
  by repeat constructor.
Defined.

(** * The CSV of the flashcards *)

(** What follows a field does not begin with a quote. *)
Lemma readField_doubleQuotes s rest :
  match rest with String c _ => c ≠ dquote | EmptyString => True end →
  readField (doubleQuotes s +:+ String dquote rest) = Some (s, rest).
Proof.
  intros Hrest. induction s as [|c s IH].
  - simpl. destruct rest as [|c' rest']; [done|].
    by destruct (decide (c' = dquote)).
  - simpl. destruct (decide (c = dquote)) as [->|Hc]; simpl.
    + by rewrite IH.
    + by rewrite decide_False, IH.
Qed.

Lemma readRow_csvRow term definition rest :
  match rest with String c _ => c ≠ dquote | EmptyString => True end →
  readRow (csvRow term definition +:+ rest) = Some (term, definition, rest).
Proof.
  intros Hrest. unfold csvRow.
  rewrite !string_app_assoc.
  change (readRow (String dquote
            (doubleQuotes term +:+ String dquote (String ","
               (String dquote (doubleQuotes definition +:+ String dquote rest))))) =
          Some (term, definition, rest)).
  unfold readRow. rewrite decide_True by done.
  rewrite readField_doubleQuotes by done.
  rewrite !decide_True by done.
  by rewrite readField_doubleQuotes.
Qed.

Lemma readRows_csvRow fuel term definition rest :
  match rest with String c _ => c ≠ dquote | EmptyString => True end →
  readRows (S fuel) (csvRow term definition +:+ rest) =
    match rest with
    | EmptyString => Some [(term, definition)]
    | String c rest' =>
        if decide (c = ascii_of_nat 10) then
          match readRows fuel rest' with
          | Some rows => Some ((term, definition) :: rows)
          | None => None
          end
        else None
    end.
Proof.
  intros Hrest.
  transitivity
    (match readRow (csvRow term definition +:+ rest) with
     | Some (first, second, EmptyString) => Some [(first, second)]
     | Some (first, second, String c rest) =>
         if decide (c = ascii_of_nat 10) then
           match readRows fuel rest with
           | Some rows => Some ((first, second) :: rows)
           | None => None
           end
         else None
     | None => None
     end); [done|].
  by rewrite readRow_csvRow.
Qed.

Lemma readRows_join (rows : list (string * string)) :
  readRows (S (length rows)) (join newline (map (λ r, csvRow r.1 r.2) rows)) =
    Some rows.
Proof.
  induction rows as [|[t d] rows IH]; [done|].
  destruct rows as [|[t' d'] rows].
  - change (readRows 2 (csvRow t d) = Some [(t, d)]).
    rewrite <- (string_app_nil_r (csvRow t d)). by rewrite readRows_csvRow.
  - change (join newline (map (λ r, csvRow r.1 r.2) ((t, d) :: (t', d') :: rows)))
      with (csvRow t d +:+ String (ascii_of_nat 10)
              (join newline (map (λ r, csvRow r.1 r.2) ((t', d') :: rows)))).
    change (length ((t, d) :: (t', d') :: rows)) with (S (length ((t', d') :: rows))).
    rewrite readRows_csvRow by done. rewrite decide_True by done. by rewrite IH.
Qed.

(** X29. The CSV of a deck can be read back: read as lines of two quoted
    fields in which a doubled quote stands for one quote, the file gives
    the header row and then the term and the definition of every card, in
    order and unchanged, whatever quotes, commas and line breaks they
    hold. *)
Theorem flashcardsToCsv_reads_back (flashcards : list Flashcard.t) :
  readRows (S (S (length flashcards))) (flashcardsToCsv flashcards) =
    Some (("term", "definition")
            :: map (λ fc, (Flashcard.term fc, Flashcard.definition fc)) flashcards).
Proof.
  unfold flashcardsToCsv. rewrite string_app_assoc.
  change (newline +:+ ?x) with (String (ascii_of_nat 10) x).
  rewrite readRows_csvRow by done. rewrite decide_True by done.
  assert (map (λ fc, csvRow (Flashcard.term fc) (Flashcard.definition fc)) flashcards =
            map (λ r, csvRow r.1 r.2)
              (map (λ fc, (Flashcard.term fc, Flashcard.definition fc)) flashcards))
    as -> by (by rewrite map_map).
  rewrite <- (length_map (λ fc, (Flashcard.term fc, Flashcard.definition fc)) flashcards).
  by rewrite readRows_join.
Qed.
